(** * ilya: the message formatter, the result formatter and the log watcher

    A shallow embedding of [src/utils.ts], [src/colors.ts],
    [src/result-formatter.ts], [src/formatter.ts], [src/line-buffer.ts],
    the command lines of [src/cli.ts] and [src/watch.ts], the handler of the
    server's standard error in [src/proxy.ts] and the pure part of
    [src/watch.ts], together with the properties the specification states
    about them and further properties of the code.

    Conventions of the embedding.
    - A JavaScript string is a [string]: one [ascii] per code unit, so the
      model covers text whose code units are below 256.  The two arrows of
      the log format are spelt with the three bytes of their UTF-8 encoding;
      no length is ever taken of a string that the program builds around
      them.
    - A JSON number is an integer [Z]; what the program does with a number
      that has a fraction is outside the model ([Unmodelled]).
    - [undefined] is [None] in [jsval := option JSON].
    - An object is the list of its own properties in the order in which
      they are enumerated.  [JSON.parse] defines properties ([obj_set]),
      also under the key "__proto__"; the copy loops of the result
      formatter assign to them ([obj_assign]), and an assignment to
      "__proto__" on an object made by [{}] runs the setter of
      [Object.prototype] and creates no property.
    - A JavaScript exception is [Abort Thrown]; the effects that happened
      before it stay in the state, as they do in the program. *)

From Stdlib Require Import String Ascii List ZArith QArith Qround Bool Lia DecimalString.
Import ListNotations.
Local Open Scope list_scope.
Local Open Scope string_scope.

(** ** Strings *)

(** The double quote, as a character and as a string. *)
Definition DQ : ascii := ascii_of_nat 34.
Definition dq : string := String DQ EmptyString.

(** A JSON string literal without escapes, for writing JSON text. *)
Definition jq (s : string) : string := dq ++ s ++ dq.

Module Str.

Definition length (s : string) : Z := Z.of_nat (String.length s).

Fixpoint take (n : nat) (s : string) : string :=
  match n, s with
  | S n', String c t => String c (take n' t)
  | _, _ => EmptyString
  end.

Fixpoint drop (n : nat) (s : string) : string :=
  match n, s with
  | S n', String _ t => drop n' t
  | _, _ => s
  end.

(** [s.slice(0, e)]: a negative [e] counts from the end. *)
Definition slice0 (s : string) (e : Z) : string :=
  if (0 <=? e)%Z then take (Z.to_nat e) s
  else take (Z.to_nat (length s + e)) s.

Fixpoint startsWith (s p : string) {struct p} : bool :=
  match p, s with
  | EmptyString, _ => true
  | String a p', String b s' => Ascii.eqb a b && startsWith s' p'
  | String _ _, EmptyString => false
  end.

Fixpoint rev_acc (s acc : string) : string :=
  match s with
  | EmptyString => acc
  | String c t => rev_acc t (String c acc)
  end.

Definition rev (s : string) : string := rev_acc s EmptyString.

Definition endsWith (s p : string) : bool := startsWith (rev s) (rev p).

Definition LF : ascii := ascii_of_nat 10.

(** [s.split("\n")] *)
Fixpoint split_lines (s : string) : list string :=
  match s with
  | EmptyString => [EmptyString]
  | String c t =>
      if Ascii.eqb c LF then EmptyString :: split_lines t
      else match split_lines t with
           | [] => [String c EmptyString]
           | h :: r => String c h :: r
           end
  end.

(** White space and line terminators of ECMAScript, below code unit 256:
    TAB, LF, VT, FF, CR, SP and NBSP.  This is both what [trim] strips and
    what [\s] matches. *)
Definition is_space (c : ascii) : bool :=
  let n := nat_of_ascii c in
  ((9 <=? n) && (n <=? 13) || (n =? 32) || (n =? 160))%nat.

Fixpoint trimStart (s : string) : string :=
  match s with
  | EmptyString => EmptyString
  | String c t => if is_space c then trimStart t else s
  end.

Fixpoint trimEnd (s : string) : string :=
  match s with
  | EmptyString => EmptyString
  | String c t =>
      match trimEnd t with
      | EmptyString => if is_space c then EmptyString else String c EmptyString
      | t' => String c t'
      end
  end.

Definition trim (s : string) : string := trimEnd (trimStart s).

(** [xs.join(sep)] on an array of strings. *)
Definition join (sep : string) (xs : list string) : string := String.concat sep xs.

(** [String(n)] for an integer [n]. *)
Definition of_Z (n : Z) : string := NilZero.string_of_int (Z.to_int n).

(** [s] has [sub] as a contiguous part: [s.includes(sub)]. *)
Definition Contains (s sub : string) : Prop :=
  exists pre post, s = pre ++ sub ++ post.

End Str.

(** ** Outcomes

    A computation of the program either returns, or throws a JavaScript
    exception, or leaves the fragment of JavaScript that is modelled. *)

Inductive abort : Type :=
| Thrown       (* a TypeError or SyntaxError, which [catch] catches *)
| Unmodelled.  (* the program runs on, but the model does not follow it *)

Inductive outcome (A : Type) : Type :=
| Val (a : A)
| Abort (e : abort).
Arguments Val {A} a.
Arguments Abort {A} e.

Definition obind {A B} (x : outcome A) (f : A -> outcome B) : outcome B :=
  match x with
  | Val a => f a
  | Abort e => Abort e
  end.

(** ** JSON values *)

#[warnings="-register-all"]
Inductive JSON : Type :=
| JNull
| JBool (b : bool)
| JNum (n : Z)
| JStr (s : string)
| JArr (xs : list JSON)
| JObj (es : list (string * JSON)).

(** A JavaScript value that came out of [JSON.parse], or [undefined]. *)
Definition jsval : Type := option JSON.
Definition undefined : jsval := None.

(** *** Objects: own properties in enumeration order

    The entries of [JObj] are listed as [Object.entries] enumerates them:
    array-index keys first, in ascending numeric order, then the other keys
    in creation order. *)

Fixpoint obj_get (es : list (string * JSON)) (k : string) : jsval :=
  match es with
  | [] => None
  | (k', v) :: t => if String.eqb k' k then Some v else obj_get t k
  end.

Definition obj_has (es : list (string * JSON)) (k : string) : bool :=
  match obj_get es k with Some _ => true | None => false end.

Definition is_digit (c : ascii) : bool :=
  let n := nat_of_ascii c in ((48 <=? n) && (n <=? 57))%nat.

Definition digit_val (c : ascii) : Z := Z.of_nat (nat_of_ascii c) - 48.

Fixpoint digits_val (acc : Z) (s : string) : option Z :=
  match s with
  | EmptyString => Some acc
  | String c t => if is_digit c then digits_val (10 * acc + digit_val c) t else None
  end.

(** An array index is the canonical decimal spelling of an integer below
    [2^32 - 1]. *)
Definition index_of_key (k : string) : option Z :=
  match k with
  | EmptyString => None
  | String c t =>
      if Ascii.eqb c "0" && negb (String.eqb t EmptyString) then None
      else match digits_val 0 k with
           | Some n => if (n <? 4294967295)%Z then Some n else None
           | None => None
           end
  end.

Fixpoint obj_replace (es : list (string * JSON)) (k : string) (v : JSON)
  : list (string * JSON) :=
  match es with
  | [] => []
  | (k', v') :: t =>
      if String.eqb k' k then (k', v) :: t else (k', v') :: obj_replace t k v
  end.

Fixpoint obj_insert_index (es : list (string * JSON)) (n : Z) (k : string) (v : JSON)
  : list (string * JSON) :=
  match es with
  | [] => [(k, v)]
  | (k', v') :: t =>
      match index_of_key k' with
      | Some n' =>
          if (n <? n')%Z then (k, v) :: es
          else (k', v') :: obj_insert_index t n k v
      | None => (k, v) :: es
      end
  end.

(** The own property [k] of an object is given the value [v]
    (CreateDataProperty): this is how [JSON.parse] fills the objects it
    makes, also for the key "__proto__". *)
Definition obj_set (es : list (string * JSON)) (k : string) (v : JSON)
  : list (string * JSON) :=
  if obj_has es k then obj_replace es k v
  else match index_of_key k with
       | Some n => obj_insert_index es n k v
       | None => (es ++ [(k, v)])%list
       end.

(** [result[k] = v], for a [result] that the program has made with [{}]
    and only assigned to, at keys that all differ.  The key "__proto__" is
    the accessor of [Object.prototype]: the assignment runs its setter,
    which changes the prototype of [result], or does nothing, and creates
    no property.  A value lists the own properties of an object, which
    is what [Object.entries], [Object.keys] and [JSON.stringify] see; the
    prototype is not part of it. *)
Definition obj_assign (es : list (string * JSON)) (k : string) (v : JSON)
  : list (string * JSON) :=
  if String.eqb k "__proto__" then es else obj_set es k v.

(** [Object.keys(v)] for a value that is neither [undefined] nor [null]:
    the indices of a string or an array, the keys of an object, nothing
    for a number or a boolean. *)
Definition indices (n : nat) : list string :=
  map (fun i => Str.of_Z (Z.of_nat i)) (seq 0 n).

Definition Object_keys (v : JSON) : list string :=
  match v with
  | JStr s => indices (String.length s)
  | JArr xs => indices (List.length xs)
  | JObj es => map fst es
  | _ => []
  end.

(** *** Coercions and operators *)

(** [if (v)], [!v], [v || w], [v ? a : b] *)
Definition truthy (v : jsval) : bool :=
  match v with
  | None | Some JNull | Some (JBool false) => false
  | Some (JNum n) => negb (n =? 0)%Z
  | Some (JStr s) => negb (String.eqb s EmptyString)
  | Some _ => true
  end.

Definition js_or (v w : jsval) : jsval := if truthy v then v else w.

Definition isArray (v : jsval) : option (list JSON) :=
  match v with Some (JArr xs) => Some xs | _ => None end.

(** [v === s] for a string literal [s] *)
Definition is_str (v : jsval) (s : string) : bool :=
  match v with Some (JStr s') => String.eqb s' s | _ => false end.

(** [v.k].  Reading a property of [undefined] or [null] throws.  The keys
    the program reads this way (id, method, params, name, ...) are not
    properties of the prototypes of strings, numbers, booleans, arrays or
    objects, so only an object can have them. *)
Definition prop (v : jsval) (k : string) : outcome jsval :=
  match v with
  | None | Some JNull => Abort Thrown
  | Some (JObj es) => Val (obj_get es k)
  | Some _ => Val None
  end.

(** [v?.k] *)
Definition prop_opt (v : jsval) (k : string) : jsval :=
  match v with
  | Some (JObj es) => obj_get es k
  | _ => None
  end.

(** [String(v)], as a template literal applies it.  An object from
    [JSON.parse] converts through [Object.prototype.toString] unless it has
    an own [toString] property: that one is never callable and the inherited
    [valueOf] returns the object, so the conversion throws.  An array
    converts through [join(",")], where [null] elements are empty. *)
Fixpoint ToString (v : JSON) : outcome string :=
  match v with
  | JNull => Val "null"
  | JBool true => Val "true"
  | JBool false => Val "false"
  | JNum n => Val (Str.of_Z n)
  | JStr s => Val s
  | JArr xs =>
      let elems :=
        fix elems (l : list JSON) : outcome (list string) :=
          match l with
          | [] => Val []
          | x :: r =>
              obind (match x with JNull => Val EmptyString | _ => ToString x end)
                (fun s => obind (elems r) (fun ss => Val (s :: ss)))
          end in
      obind (elems xs) (fun ss => Val (Str.join "," ss))
  | JObj es => if obj_has es "toString" then Abort Thrown else Val "[object Object]"
  end.

(** ** [JSON.parse]

    A recursive-descent reader of the JSON grammar.  A number literal with
    a fraction or an exponent, an integer beyond [2^53] and a [\u] escape
    above code unit 255 are valid JSON that the model has no value for:
    the reader answers [Unsupported] there. *)

Inductive parsed (A : Type) : Type :=
| Parsed (a : A) (rest : string)
| SyntaxError
| Unsupported.
Arguments Parsed {A} a rest.
Arguments SyntaxError {A}.
Arguments Unsupported {A}.

Definition is_json_ws (c : ascii) : bool :=
  let n := nat_of_ascii c in
  ((n =? 32) || (n =? 9) || (n =? 10) || (n =? 13))%nat.

Fixpoint skip_ws (s : string) : string :=
  match s with
  | EmptyString => EmptyString
  | String c t => if is_json_ws c then skip_ws t else s
  end.

Definition expect (lit s : string) : option string :=
  if Str.startsWith s lit then Some (Str.drop (String.length lit) s) else None.

Definition hex_val (c : ascii) : option nat :=
  let n := nat_of_ascii c in
  if ((48 <=? n) && (n <=? 57))%nat then Some (n - 48)%nat
  else if ((97 <=? n) && (n <=? 102))%nat then Some (n - 87)%nat
  else if ((65 <=? n) && (n <=? 70))%nat then Some (n - 55)%nat
  else None.

Definition hex4 (a b c d : ascii) : option nat :=
  match hex_val a, hex_val b, hex_val c, hex_val d with
  | Some x, Some y, Some z, Some w => Some (((x * 16 + y) * 16 + z) * 16 + w)%nat
  | _, _, _, _ => None
  end.

Definition map_parsed {A} (r : parsed A) (k : A -> A) : parsed A :=
  match r with
  | Parsed a rest => Parsed (k a) rest
  | SyntaxError => SyntaxError
  | Unsupported => Unsupported
  end.

(** The characters of a string literal after its opening quote. *)
Fixpoint parse_chars (s : string) : parsed string :=
  match s with
  | EmptyString => SyntaxError
  | String c t =>
      if Ascii.eqb c DQ then Parsed EmptyString t
      else if Ascii.eqb c "\" then
        match t with
        | EmptyString => SyntaxError
        | String e t' =>
            let esc (x : ascii) := map_parsed (parse_chars t') (String x) in
            if Ascii.eqb e DQ then esc DQ
            else if Ascii.eqb e "\" then esc "\"%char
            else if Ascii.eqb e "/" then esc "/"%char
            else if Ascii.eqb e "b" then esc (ascii_of_nat 8)
            else if Ascii.eqb e "f" then esc (ascii_of_nat 12)
            else if Ascii.eqb e "n" then esc (ascii_of_nat 10)
            else if Ascii.eqb e "r" then esc (ascii_of_nat 13)
            else if Ascii.eqb e "t" then esc (ascii_of_nat 9)
            else if Ascii.eqb e "u" then
              match t' with
              | String h1 (String h2 (String h3 (String h4 t''))) =>
                  match hex4 h1 h2 h3 h4 with
                  | Some n =>
                      if (n <? 256)%nat
                      then map_parsed (parse_chars t'') (String (ascii_of_nat n))
                      else Unsupported
                  | None => SyntaxError
                  end
              | _ => SyntaxError
              end
            else SyntaxError
        end
      else if (nat_of_ascii c <? 32)%nat then SyntaxError
      else map_parsed (parse_chars t) (String c)
  end.

Fixpoint span_digits (s : string) : string * string :=
  match s with
  | EmptyString => (EmptyString, EmptyString)
  | String c t =>
      if is_digit c then let (ds, r) := span_digits t in (String c ds, r)
      else (EmptyString, s)
  end.

(** Is what follows the integer part a well-formed fraction and exponent? *)
Definition frac_exp_ok (rest : string) : bool :=
  let after_frac :=
    match rest with
    | String "." t =>
        let (fd, r) := span_digits t in
        if String.eqb fd EmptyString then None else Some r
    | _ => Some rest
    end in
  match after_frac with
  | None => false
  | Some (String e t) =>
      if Ascii.eqb e "e" || Ascii.eqb e "E" then
        let t' := match t with
                  | String sg u => if Ascii.eqb sg "+" || Ascii.eqb sg "-" then u else t
                  | EmptyString => t
                  end in
        negb (String.eqb (fst (span_digits t')) EmptyString)
      else true
  | Some EmptyString => true
  end.

Definition parse_number (s : string) : parsed Z :=
  let (neg, s1) := match s with
                   | String "-" t => (true, t)
                   | _ => (false, s)
                   end in
  let (ds, rest) := span_digits s1 in
  match ds with
  | EmptyString => SyntaxError
  | String d ds' =>
      if Ascii.eqb d "0" && negb (String.eqb ds' EmptyString) then SyntaxError
      else
        match rest with
        | String c _ =>
            if Ascii.eqb c "." || Ascii.eqb c "e" || Ascii.eqb c "E"
            then (if frac_exp_ok rest then Unsupported else SyntaxError)
            else match digits_val 0 ds with
                 | Some n => if (n <=? 9007199254740992)%Z
                             then Parsed (if neg then (- n)%Z else n) rest
                             else Unsupported
                 | None => SyntaxError
                 end
        | EmptyString =>
            match digits_val 0 ds with
            | Some n => if (n <=? 9007199254740992)%Z
                        then Parsed (if neg then (- n)%Z else n) rest
                        else Unsupported
            | None => SyntaxError
            end
        end
  end.

Section Parse.
(** The reader of one value, at the nesting depth below. *)
Variable pv : string -> parsed JSON.

(** The elements of an array after the first one has been announced. *)
Fixpoint parse_elements (fuel : nat) (s : string) : parsed (list JSON) :=
  match fuel with
  | O => Unsupported
  | S f =>
      match pv s with
      | Parsed v r =>
          match skip_ws r with
          | String c r' =>
              if Ascii.eqb c "," then
                match parse_elements f r' with
                | Parsed vs r'' => Parsed (v :: vs) r''
                | SyntaxError => SyntaxError
                | Unsupported => Unsupported
                end
              else if Ascii.eqb c "]" then Parsed [v] r'
              else SyntaxError
          | EmptyString => SyntaxError
          end
      | SyntaxError => SyntaxError
      | Unsupported => Unsupported
      end
  end.

(** The members of an object; a repeated key overwrites. *)
Fixpoint parse_members (fuel : nat) (acc : list (string * JSON)) (s : string)
  : parsed (list (string * JSON)) :=
  match fuel with
  | O => Unsupported
  | S f =>
      match skip_ws s with
      | String q s1 =>
          if Ascii.eqb q DQ then
            match parse_chars s1 with
            | Parsed k s2 =>
                match skip_ws s2 with
                | String c s3 =>
                    if Ascii.eqb c ":" then
                      match pv s3 with
                      | Parsed v r =>
                          let acc' := obj_set acc k v in
                          match skip_ws r with
                          | String d r' =>
                              if Ascii.eqb d "," then parse_members f acc' r'
                              else if Ascii.eqb d "}" then Parsed acc' r'
                              else SyntaxError
                          | EmptyString => SyntaxError
                          end
                      | SyntaxError => SyntaxError
                      | Unsupported => Unsupported
                      end
                    else SyntaxError
                | EmptyString => SyntaxError
                end
            | SyntaxError => SyntaxError
            | Unsupported => Unsupported
            end
          else SyntaxError
      | EmptyString => SyntaxError
      end
  end.
End Parse.

Definition parse_literal (lit : string) (v : JSON) (s : string) : parsed JSON :=
  match expect lit s with
  | Some r => Parsed v r
  | None => SyntaxError
  end.

Fixpoint parse_value (fuel : nat) (s : string) : parsed JSON :=
  match fuel with
  | O => Unsupported
  | S f =>
      match skip_ws s with
      | EmptyString => SyntaxError
      | String c t as s' =>
          if Ascii.eqb c "n" then parse_literal "null" JNull s'
          else if Ascii.eqb c "t" then parse_literal "true" (JBool true) s'
          else if Ascii.eqb c "f" then parse_literal "false" (JBool false) s'
          else if Ascii.eqb c DQ then
            match parse_chars t with
            | Parsed str r => Parsed (JStr str) r
            | SyntaxError => SyntaxError
            | Unsupported => Unsupported
            end
          else if Ascii.eqb c "[" then
            match skip_ws t with
            | String "]" r => Parsed (JArr []) r
            | _ =>
                match parse_elements (parse_value f) f t with
                | Parsed vs r => Parsed (JArr vs) r
                | SyntaxError => SyntaxError
                | Unsupported => Unsupported
                end
            end
          else if Ascii.eqb c "{" then
            match skip_ws t with
            | String "}" r => Parsed (JObj []) r
            | _ =>
                match parse_members (parse_value f) f [] t with
                | Parsed es r => Parsed (JObj es) r
                | SyntaxError => SyntaxError
                | Unsupported => Unsupported
                end
            end
          else
            match parse_number s' with
            | Parsed n r => Parsed (JNum n) r
            | SyntaxError => SyntaxError
            | Unsupported => Unsupported
            end
      end
  end.

(** [JSON.parse(text)] for a string [text] *)
Definition JSON_parse (text : string) : outcome JSON :=
  match parse_value (S (String.length text)) text with
  | Parsed v r =>
      match skip_ws r with
      | EmptyString => Val v
      | String _ _ => Abort Thrown
      end
  | SyntaxError => Abort Thrown
  | Unsupported => Abort Unmodelled
  end.

(** [JSON.parse(v)] for any value: the argument is converted to a string
    first; [undefined] reads as the text "undefined". *)
Definition JSON_parse_val (v : jsval) : outcome JSON :=
  match v with
  | None => Abort Thrown
  | Some (JStr s) => JSON_parse s
  | Some w => obind (ToString w) JSON_parse
  end.

(** ** [JSON.stringify] *)

Definition hex_digit (n : nat) : ascii :=
  if (n <? 10)%nat then ascii_of_nat (48 + n) else ascii_of_nat (87 + n).

Definition escape_char (c : ascii) : string :=
  let n := nat_of_ascii c in
  if Ascii.eqb c DQ then "\" ++ dq
  else if Ascii.eqb c "\" then "\\"
  else if (n =? 8)%nat then "\b"
  else if (n =? 12)%nat then "\f"
  else if (n =? 10)%nat then "\n"
  else if (n =? 13)%nat then "\r"
  else if (n =? 9)%nat then "\t"
  else if (n <? 32)%nat
       then "\u00" ++ String (hex_digit (n / 16)) (String (hex_digit (n mod 16)) EmptyString)
  else String c EmptyString.

Fixpoint escape (s : string) : string :=
  match s with
  | EmptyString => EmptyString
  | String c t => escape_char c ++ escape t
  end.

Definition quote (s : string) : string := dq ++ escape s ++ dq.

(** [JSON.stringify(v)] *)
Fixpoint stringify (v : JSON) : string :=
  match v with
  | JNull => "null"
  | JBool true => "true"
  | JBool false => "false"
  | JNum n => Str.of_Z n
  | JStr s => quote s
  | JArr xs => "[" ++ Str.join "," (map stringify xs) ++ "]"
  | JObj es =>
      "{" ++ Str.join "," (map (fun kv => quote (fst kv) ++ ":" ++ stringify (snd kv)) es) ++ "}"
  end.

Definition NL : string := String Str.LF EmptyString.

(** [JSON.stringify(v, null, 2)], with [ind] the indentation reached. *)
Fixpoint stringify_indent (ind : string) (v : JSON) : string :=
  let ind' := ind ++ "  " in
  match v with
  | JArr [] => "[]"
  | JArr xs =>
      "[" ++ NL ++ ind'
          ++ Str.join ("," ++ NL ++ ind') (map (stringify_indent ind') xs)
          ++ NL ++ ind ++ "]"
  | JObj [] => "{}"
  | JObj es =>
      "{" ++ NL ++ ind'
          ++ Str.join ("," ++ NL ++ ind')
               (map (fun kv => quote (fst kv) ++ ": " ++ stringify_indent ind' (snd kv)) es)
          ++ NL ++ ind ++ "}"
  | _ => stringify v
  end.

Definition stringify2 (v : JSON) : string := stringify_indent EmptyString v.

(** ** Arrays *)

(** How many elements [xs.slice(0, e)] keeps of [len]: a negative [e]
    counts from the end. *)
Definition slice_count (len : nat) (e : Z) : nat :=
  if (0 <=? e)%Z then Z.to_nat e else Z.to_nat (Z.of_nat len + e).

Definition arr_slice0 {A} (xs : list A) (e : Z) : list A :=
  firstn (slice_count (List.length xs) e) xs.

Section SliceMap.
Context {A B : Type} (f : A -> B).

(** [xs.slice(0, n).map(f)] for a count [n] *)
Fixpoint slice_map (n : nat) (xs : list A) {struct xs} : list B :=
  match xs, n with
  | x :: r, S n' => f x :: slice_map n' r
  | _, _ => []
  end.
End SliceMap.

Fixpoint mapM {A B} (f : A -> outcome B) (l : list A) : outcome (list B) :=
  match l with
  | [] => Val []
  | x :: r => obind (f x) (fun y => obind (mapM f r) (fun ys => Val (y :: ys)))
  end.

(** [xs.join(sep)] on an array of values: [undefined] and [null] are
    empty, the other elements are converted to strings. *)
Definition join_vals (sep : string) (xs : list jsval) : outcome string :=
  obind (mapM (fun x : jsval =>
                 match x with
                 | None | Some JNull => Val EmptyString
                 | Some v => ToString v
                 end) xs)
        (fun ss => Val (Str.join sep ss)).

(** ** The state: what the logger has been given, and the pending requests *)

(** One call of [logger.write(coloredLine, plainLine)]. *)
Record record : Type := Rec { colored : string; plain : string }.

(** [PendingRequest] of result-formatter.ts.  [toolName] is [null] ([None])
    or the [params.name] of the request. *)
Record PendingRequest : Type := Pending {
  method : string;
  toolName : option JSON;
  ts : Z
}.

(** [Map<string | number, PendingRequest>].  Keys are compared as [Map]
    does: primitives by value; an array or an object is a fresh reference
    at every [JSON.parse] and equals no key stored before. *)
Definition same_value_zero (a b : JSON) : bool :=
  match a, b with
  | JNull, JNull => true
  | JBool x, JBool y => Bool.eqb x y
  | JNum x, JNum y => (x =? y)%Z
  | JStr x, JStr y => String.eqb x y
  | _, _ => false
  end.

Definition Map : Type := list (JSON * PendingRequest).

Fixpoint Map_get (m : Map) (k : JSON) : option PendingRequest :=
  match m with
  | [] => None
  | (k', p) :: t => if same_value_zero k' k then Some p else Map_get t k
  end.

Definition Map_has (m : Map) (k : JSON) : bool :=
  match Map_get m k with Some _ => true | None => false end.

Fixpoint Map_replace (m : Map) (k : JSON) (p : PendingRequest) : Map :=
  match m with
  | [] => []
  | (k', p') :: t =>
      if same_value_zero k' k then (k', p) :: t else (k', p') :: Map_replace t k p
  end.

Definition Map_set (m : Map) (k : JSON) (p : PendingRequest) : Map :=
  if Map_has m k then Map_replace m k p else (m ++ [(k, p)])%list.

Fixpoint Map_delete (m : Map) (k : JSON) : Map :=
  match m with
  | [] => []
  | (k', p') :: t =>
      if same_value_zero k' k then t else (k', p') :: Map_delete t k
  end.

Record world : Type := World {
  written : list record;
  pendingRequests : Map
}.

(** A computation with effects on the logger and the map.  The state after
    an exception is the state reached when it was thrown. *)
Definition M (A : Type) : Type := world -> outcome A * world.

Definition ret {A} (a : A) : M A := fun w => (Val a, w).

Definition bind {A B} (c : M A) (k : A -> M B) : M B :=
  fun w => match c w with
           | (Val a, w') => k a w'
           | (Abort e, w') => (Abort e, w')
           end.

Definition lift {A} (o : outcome A) : M A := fun w => (o, w).

(** [try { body } catch { handler }]: only JavaScript exceptions are caught. *)
Definition try_catch (body handler : M unit) : M unit :=
  fun w => match body w with
           | (Abort Thrown, w') => handler w'
           | r => r
           end.

Declare Scope M_scope.
Delimit Scope M_scope with M.
Notation "x <- c ;; k" := (bind c (fun x => k))
  (at level 61, c at next level, right associativity) : M_scope.
Notation "c ;; k" := (bind c (fun _ => k))
  (at level 61, right associativity) : M_scope.
Local Open Scope M_scope.

(** [logger.write(colored, plain)] *)
Definition write (coloredLine plainLine : string) : M unit :=
  fun w => (Val tt, World (written w ++ [Rec coloredLine plainLine])%list (pendingRequests w)).

Definition pending_get (k : JSON) : M (option PendingRequest) :=
  fun w => (Val (Map_get (pendingRequests w) k), w).

Definition pending_set (k : JSON) (p : PendingRequest) : M unit :=
  fun w => (Val tt, World (written w) (Map_set (pendingRequests w) k p)).

Definition pending_delete (k : JSON) : M unit :=
  fun w => (Val tt, World (written w) (Map_delete (pendingRequests w) k)).

(** [for (const x of xs) body(x)] *)
Fixpoint forM {A} (xs : list A) (body : A -> M unit) : M unit :=
  match xs with
  | [] => ret tt
  | x :: r => body x ;; forM r body
  end.

(** ** utils.ts *)

(** [truncate(str, max = 200)] *)
Definition truncate (str : string) (max : Z) : string :=
  if (Str.length str <=? max)%Z then str
  else Str.slice0 str (max - 3) ++ "...".

(** ** colors.ts *)

Record Colors : Type := {
  RESET : string; BOLD : string; DIM : string; RED : string; GREEN : string;
  YELLOW : string; BLUE : string; MAGENTA : string; CYAN : string; WHITE : string
}.

Definition ESC : string := String (ascii_of_nat 27) EmptyString.

Definition createColors (isTTY : bool) : Colors :=
  if isTTY then
    {| RESET := ESC ++ "[0m"; BOLD := ESC ++ "[1m"; DIM := ESC ++ "[2m";
       RED := ESC ++ "[31m"; GREEN := ESC ++ "[32m"; YELLOW := ESC ++ "[33m";
       BLUE := ESC ++ "[34m"; MAGENTA := ESC ++ "[35m"; CYAN := ESC ++ "[36m";
       WHITE := ESC ++ "[37m" |}
  else
    {| RESET := ""; BOLD := ""; DIM := ""; RED := ""; GREEN := ""; YELLOW := "";
       BLUE := ""; MAGENTA := ""; CYAN := ""; WHITE := "" |}.

Definition PLAIN : Colors :=
  {| RESET := ""; BOLD := ""; DIM := ""; RED := ""; GREEN := ""; YELLOW := "";
     BLUE := ""; MAGENTA := ""; CYAN := ""; WHITE := "" |}.

(** [methodColor(method, colors)].  A truthy [method] that is not a string
    has no [startsWith]: the call throws. *)
Definition methodColor (method : jsval) (colors : Colors) : outcome string :=
  if negb (truthy method) then Val (WHITE colors)
  else match method with
       | Some (JStr m) =>
           if Str.startsWith m "initialize" then Val (MAGENTA colors)
           else if Str.startsWith m "tools/" then Val (GREEN colors)
           else if Str.startsWith m "resources/" then Val (CYAN colors)
           else if Str.startsWith m "prompts/" then Val (YELLOW colors)
           else if Str.startsWith m "notifications/" then Val (BLUE colors)
           else Val (WHITE colors)
       | _ => Abort Thrown
       end.

(** ** result-formatter.ts *)

Definition NOISE_FIELDS_has (key : string) : bool :=
  String.eqb key "id" || String.eqb key "timestamp".

(** [truncateArrays(obj, maxItems = 3)] *)
Fixpoint truncateArrays (obj : JSON) (maxItems : Z) : JSON :=
  match obj with
  | JArr xs =>
      let len := List.length xs in
      let truncated :=
        slice_map (fun item => truncateArrays item maxItems) (slice_count len maxItems) xs in
      if (Z.of_nat len >? maxItems)%Z
      then JArr (truncated ++ [JStr ("... +" ++ Str.of_Z (Z.of_nat len - maxItems) ++ " more")])%list
      else JArr truncated
  | JObj es =>
      JObj (fold_left
              (fun result kv => obj_assign result (fst kv) (truncateArrays (snd kv) maxItems))
              es [])
  | _ => obj
  end.

(** [truncateStringValues(obj, maxLen = 100)] *)
Fixpoint truncateStringValues (obj : JSON) (maxLen : Z) : JSON :=
  match obj with
  | JStr s =>
      if (Str.length s >? maxLen)%Z then JStr (Str.slice0 s (maxLen - 3) ++ "...")
      else obj
  | JArr xs => JArr (map (fun item => truncateStringValues item maxLen) xs)
  | JObj es =>
      JObj (fold_left
              (fun result kv =>
                 obj_assign result (fst kv) (truncateStringValues (snd kv) maxLen))
              es [])
  | _ => obj
  end.

(** [value !== null && typeof value === "object" &&
     Object.keys(value).length === 0] *)
Definition is_empty_object (value : JSON) : bool :=
  match value with
  | JArr [] | JObj [] => true
  | _ => false
  end.

(** Does the loop of [removeNoiseFields] skip this entry ([continue])? *)
Definition noise_skipped (insideArray : bool) (key : string) (value : JSON) : bool :=
  (insideArray && NOISE_FIELDS_has key)
  || (insideArray && String.eqb key "graphql" && is_empty_object value).

(** [removeNoiseFields(obj, insideArray = false)] *)
Fixpoint removeNoiseFields (obj : JSON) (insideArray : bool) : JSON :=
  match obj with
  | JArr xs => JArr (map (fun item => removeNoiseFields item true) xs)
  | JObj es =>
      JObj (fold_left
              (fun result kv =>
                 if noise_skipped insideArray (fst kv) (snd kv) then result
                 else obj_assign result (fst kv) (removeNoiseFields (snd kv) false))
              es [])
  | _ => obj
  end.

(** [parsed === null || typeof parsed !== "object"] *)
Definition is_primitive (parsed : JSON) : bool :=
  match parsed with
  | JArr _ | JObj _ => false
  | _ => true
  end.

(** [tryFormatJson(text)]: [None] is the [null] it returns.  The only way
    not to return is to leave the model inside [JSON.parse]. *)
Definition tryFormatJson (text : string) : outcome (option string) :=
  match JSON_parse text with
  | Val parsed =>
      if is_primitive parsed then Val None
      else
        let truncated := truncateArrays parsed 3 in
        let cleaned := removeNoiseFields truncated false in
        let shortened := truncateStringValues cleaned 100 in
        Val (Some (stringify2 shortened))
  | Abort Thrown => Val None
  | Abort Unmodelled => Abort Unmodelled
  end.

(** [Math.round(x)]: the nearest integer, a half going up.  The quotients
    the program rounds are integers divided by powers of two, which the
    floating-point division computes exactly as long as the integer is
    itself exact, that is up to [2^53]. *)
Definition Math_round (x : Q) : Z := Qfloor (x + (1 # 2)).

(** [`${Math.round((len * 3) / 4 / 1024)}KB`] *)
Definition sizeKB (len : Z) : string :=
  Str.of_Z (Math_round (inject_Z len * 3 / 4 / 1024)) ++ "KB".

(** The [size] of an image block, [data ? `...KB` : "?"].  [data.length]
    is the length of a string or an array, an own property of an object,
    and [undefined] (so the size is NaN) on a number or a boolean.  Three
    times the length of a string or an array is exact in floating point;
    three times a [length] that an object gives is exact up to [2^53], and
    the model does not follow the rounding beyond. *)
Definition image_size (data : jsval) : outcome string :=
  if truthy data then
    match data with
    | Some (JStr s) => Val (sizeKB (Str.length s))
    | Some (JArr xs) => Val (sizeKB (Z.of_nat (List.length xs)))
    | Some (JObj es) =>
        match obj_get es "length" with
        | None => Val "NaNKB"
        | Some (JNum n) =>
            if (Z.abs (n * 3) <=? 2 ^ 53)%Z then Val (sizeKB n) else Abort Unmodelled
        | Some _ => Abort Unmodelled
        end
    | _ => Val "NaNKB"
    end
  else Val "?".

(** [names.length <= 8 ? names.join(", ")
     : names.slice(0, 6).join(", ") + `, ... +${names.length - 6} more`] *)
Definition summarize (names : list jsval) : outcome string :=
  let n := Z.of_nat (List.length names) in
  if (n <=? 8)%Z then join_vals ", " names
  else obind (join_vals ", " (arr_slice0 names 6))
         (fun s => Val (s ++ ", ... +" ++ Str.of_Z (n - 6) ++ " more")).

(** The summary line of the three list methods. *)
Definition write_summary (color reset : string) (count : nat) (kind summary : string)
  : M unit :=
  let n := Str.of_Z (Z.of_nat count) in
  write ("    " ++ color ++ "(" ++ n ++ " " ++ kind ++ ": " ++ summary ++ ")" ++ reset)
        ("    (" ++ n ++ " " ++ kind ++ ": " ++ summary ++ ")").

(** [`${v}`] of a value that may be [undefined] *)
Definition template (v : jsval) : outcome string :=
  match v with
  | None => Val "undefined"
  | Some w => ToString w
  end.

(** [`${v || "d"}`] *)
Definition or_text (v : jsval) (d : string) : outcome string :=
  template (js_or v (Some (JStr d))).

(** The text [tryFormatJson(text)] reads when [text] is cast from
    [block.text]: [JSON.parse] converts its argument to a string inside
    the [try]. *)
Definition tryFormatJson_of (text : jsval) : outcome (option string) :=
  match text with
  | Some (JStr s) => tryFormatJson s
  | _ =>
      match template text with
      | Val s => tryFormatJson s
      | Abort Thrown => Val None
      | Abort Unmodelled => Abort Unmodelled
      end
  end.

(** The body of [for (const block of content)] in [formatResult]. *)
Definition formatBlock (c : Colors) (block : JSON) : M unit :=
  ty <- lift (prop (Some block) "type") ;;
  if is_str ty "text" then
    text <- lift (prop (Some block) "text") ;;
    formatted <- lift (tryFormatJson_of text) ;;
    match formatted with
    | Some formatted =>
        write ("    " ++ DIM c ++ "[text]" ++ RESET c) "    [text]" ;;
        forM (Str.split_lines formatted)
          (fun line => write ("    " ++ DIM c ++ "    " ++ line ++ RESET c)
                             ("        " ++ line))
    | None =>
        match text with
        | Some (JStr text) =>
            forM (Str.split_lines text)
              (fun line => write ("    " ++ DIM c ++ "[text]" ++ RESET c ++ " " ++ line)
                                 ("    [text] " ++ line))
        | _ => lift (Abort Thrown)   (* [text.split] is not a function *)
        end
    end
  else if is_str ty "image" then
    data <- lift (prop (Some block) "data") ;;
    size <- lift (image_size data) ;;
    mimeType <- lift (prop (Some block) "mimeType") ;;
    mime <- lift (or_text mimeType "?") ;;
    write ("    " ++ DIM c ++ "[image " ++ mime ++ "]" ++ RESET c ++ " " ++ size)
          ("    [image " ++ mime ++ "] " ++ size)
  else if is_str ty "resource" then
    resource <- lift (prop (Some block) "resource") ;;
    match js_or (prop_opt resource "uri") (Some (JStr "?")) with
    | Some (JStr uri) =>
        write ("    " ++ DIM c ++ "[resource]" ++ RESET c ++ " " ++ truncate uri 200)
              ("    [resource] " ++ truncate uri 200)
    | _ => lift (Abort Unmodelled)   (* [truncate] of a uri that is not a string *)
    end
  else
    let raw := truncate (stringify block) 200 in
    tyS <- lift (or_text ty "?") ;;
    write ("    " ++ DIM c ++ "[" ++ tyS ++ "]" ++ RESET c ++ " " ++ raw)
          ("    [" ++ tyS ++ "] " ++ raw).

(** [method === name && Array.isArray(result.field)], for a [result] that
    is truthy (so reading it does not throw): the array, if any. *)
Definition list_of (method name : string) (result : jsval) (field : string)
  : option (list JSON) :=
  if String.eqb method name then isArray (prop_opt result field) else None.

(** [formatResult(method, result, _pending, ctx)].  [c] is [ctx.colors];
    [ctx.logger] is the log of the state; [_pending] and
    [ctx.plainColors] are not used by the function. *)
Definition formatResult (method : string) (result : jsval) (c : Colors) : M unit :=
  if negb (truthy result) then ret tt
  else
    match list_of method "tools/list" result "tools" with
    | Some tools =>
        names <- lift (mapM (fun t => prop (Some t) "name") tools) ;;
        summary <- lift (summarize names) ;;
        write_summary (GREEN c) (RESET c) (List.length tools) "tools" summary
    | None =>
    match list_of method "resources/list" result "resources" with
    | Some resources =>
        names <- lift (mapM (fun r => obind (prop (Some r) "name") (fun name =>
                                      if truthy name then Val name
                                      else prop (Some r) "uri")) resources) ;;
        summary <- lift (summarize names) ;;
        write_summary (CYAN c) (RESET c) (List.length resources) "resources" summary
    | None =>
    match list_of method "prompts/list" result "prompts" with
    | Some prompts =>
        names <- lift (mapM (fun p => prop (Some p) "name") prompts) ;;
        summary <- lift (summarize names) ;;
        write_summary (YELLOW c) (RESET c) (List.length prompts) "prompts" summary
    | None =>
    match list_of method "tools/call" result "content" with
    | Some content =>
        forM content (formatBlock c) ;;
        if truthy (prop_opt result "isError")
        then write ("    " ++ RED c ++ "(isError: true)" ++ RESET c) "    (isError: true)"
        else ret tt
    | None =>
    match (if String.eqb method "initialize" && truthy (prop_opt result "capabilities")
           then prop_opt result "capabilities" else None) with
    | Some capabilities =>
        let caps := Str.join ", " (Object_keys capabilities) in
        let serverInfo := prop_opt result "serverInfo" in
        name <- lift (or_text (prop_opt serverInfo "name") "?") ;;
        version <- lift (or_text (prop_opt serverInfo "version") "?") ;;
        write ("    " ++ MAGENTA c ++ name ++ " v" ++ version ++ RESET c
                      ++ "  capabilities: " ++ caps)
              ("    " ++ name ++ " v" ++ version ++ "  capabilities: " ++ caps)
    | None =>
        match result with
        | Some r =>
            let raw := stringify r in
            if (Str.length raw >? 2)%Z then
              let display := truncate raw 300 in
              write ("    " ++ DIM c ++ display ++ RESET c) ("    " ++ display)
            else ret tt
        | None => ret tt
        end
    end end end end end.

(** ** formatter.ts *)

Inductive direction : Type := client | server.

Definition arrow_of (d : direction) : string :=
  match d with client => "→" | server => "←" end.

Definition label_of (d : direction) : string :=
  match d with client => "CLIENT" | server => "SERVER" end.

(** [params && Object.keys(params).length > 0] *)
Definition nonempty_params (params : jsval) : bool :=
  match params with
  | Some p => truthy params && negb (Nat.eqb (List.length (Object_keys p)) 0)
  | None => false
  end.

(** The record of the parameters: [truncate(JSON.stringify(params), 200)]. *)
Definition write_params (c : Colors) (params : jsval) : M unit :=
  match params with
  | Some p =>
      let paramStr := truncate (stringify p) 200 in
      write ("    " ++ DIM c ++ paramStr ++ RESET c) ("    " ++ paramStr)
  | None => ret tt
  end.

Section FormatMessage.
(** [ctx.colors], and the two readings of the clock: [tsNow] is what
    [timestamp()] returns and [now] what [Date.now()] returns. *)
Variable c : Colors.
Variable tsNow : string.
Variable now : Z.
Variable json : string.
Variable dir : direction.

Let arrow := arrow_of dir.
Let label := label_of dir.
Let dirColor := match dir with client => CYAN c | server => GREEN c end.

(** The common start of every primary record. *)
Definition head_colored : string :=
  DIM c ++ tsNow ++ RESET c ++ " " ++ dirColor ++ arrow ++ " " ++ label ++ RESET c.
Definition head_plain : string := tsNow ++ " " ++ arrow ++ " " ++ label.

Definition format_notification (msg : JSON) (method : jsval) : M unit :=
  mc <- lift (methodColor method c) ;;
  m <- lift (template method) ;;
  write (head_colored ++ "  " ++ BLUE c ++ "notification" ++ RESET c ++ "  "
           ++ mc ++ m ++ RESET c)
        (head_plain ++ "  notification  " ++ m) ;;
  params <- lift (prop (Some msg) "params") ;;
  if nonempty_params params then write_params c params else ret tt.

Definition format_request (msg : JSON) (method : jsval) (id : JSON) : M unit :=
  mc <- lift (methodColor method c) ;;
  m <- lift (template method) ;;
  params <- lift (prop (Some msg) "params") ;;
  let is_call := is_str method "tools/call" in
  let toolName : option JSON :=
    if is_call && truthy (prop_opt params "name") then prop_opt params "name" else None in
  pending_set id (Pending m toolName now) ;;
  tool <- lift (match toolName with
                | Some t => if truthy toolName then ToString t else Val EmptyString
                | None => Val EmptyString
                end) ;;
  let extra := if truthy toolName then "  " ++ BOLD c ++ tool ++ RESET c else "" in
  let extraPlain := if truthy toolName then "  " ++ tool else "" in
  ids <- lift (ToString id) ;;
  write (head_colored ++ "  " ++ WHITE c ++ "request" ++ RESET c ++ "  "
           ++ mc ++ m ++ RESET c ++ extra ++ "  " ++ DIM c ++ "#" ++ ids ++ RESET c)
        (head_plain ++ "  request  " ++ m ++ extraPlain ++ "  #" ++ ids) ;;
  match (if is_call && truthy (prop_opt params "arguments")
         then prop_opt params "arguments" else None) with
  | Some arguments =>
      forM (Str.split_lines (stringify2 arguments))
        (fun line => write ("    " ++ DIM c ++ line ++ RESET c) ("    " ++ line))
  | None =>
      if nonempty_params params then write_params c params else ret tt
  end.

Definition format_response (msg : JSON) (id : JSON) : M unit :=
  pending <- pending_get id ;;
  let reqMethod : string :=
    match pending with
    | Some p => if String.eqb (method p) EmptyString then "unknown" else method p
    | None => "unknown"
    end in
  mc <- lift (methodColor (Some (JStr reqMethod)) c) ;;
  let elapsed : string :=
    match pending with
    | Some p => Str.of_Z (now - ts p) ++ "ms"
    | None => EmptyString
    end in
  error <- lift (prop (Some msg) "error") ;;
  if truthy error then
    code <- lift (prop error "code") ;;
    errMsg <- lift (prop error "message") ;;
    ids <- lift (ToString id) ;;
    write (head_colored ++ "  " ++ RED c ++ BOLD c ++ "ERROR" ++ RESET c ++ "  "
             ++ mc ++ "(" ++ reqMethod ++ " #" ++ ids ++ ")" ++ RESET c ++ "  "
             ++ DIM c ++ elapsed ++ RESET c)
          (head_plain ++ "  ERROR  (" ++ reqMethod ++ " #" ++ ids ++ ")  " ++ elapsed) ;;
    codeS <- lift (or_text code "?") ;;
    errS <- lift (or_text errMsg "Unknown error") ;;
    write ("    " ++ RED c ++ "[" ++ codeS ++ "] " ++ errS ++ RESET c)
          ("    [" ++ codeS ++ "] " ++ errS) ;;
    pending_delete id
  else
    ids <- lift (ToString id) ;;
    write (head_colored ++ "  " ++ WHITE c ++ "response" ++ RESET c ++ "  "
             ++ mc ++ reqMethod ++ RESET c ++ "  " ++ DIM c ++ "#" ++ ids ++ "  "
             ++ elapsed ++ RESET c)
          (head_plain ++ "  response  " ++ reqMethod ++ "  #" ++ ids ++ "  " ++ elapsed) ;;
    result <- lift (prop (Some msg) "result") ;;
    formatResult reqMethod result c ;;
    pending_delete id.

(** The body of the [try] block. *)
Definition format_parsed : M unit :=
  msg <- lift (JSON_parse json) ;;
  id <- lift (prop (Some msg) "id") ;;
  method <- lift (prop (Some msg) "method") ;;
  match truthy method, id with
  | true, None => format_notification msg method
  | true, Some id => format_request msg method id
  | false, Some id => format_response msg id
  | false, None =>
      let raw := truncate (Str.trim json) 200 in
      write (head_colored ++ "  " ++ DIM c ++ raw ++ RESET c)
            (head_plain ++ "  " ++ raw)
  end.

(** The [catch] block. *)
Definition format_raw : M unit :=
  let raw := truncate (Str.trim json) 200 in
  write (head_colored ++ "  " ++ YELLOW c ++ "[raw]" ++ RESET c ++ " " ++ raw)
        (head_plain ++ "  [raw] " ++ raw).

(** [formatMessage(json, direction, ctx)] *)
Definition formatMessage : M unit := try_catch format_parsed format_raw.
End FormatMessage.

(** ** watch.ts: the regular expressions of [colorize]

    Each regular expression of [colorize] is given as a function that
    tells, at a position of the line, how long the match starting there
    is.  The expressions are a literal followed by at most one greedy
    character class, so the first match found by the regexp engine is the
    one computed here; none of them matches the empty string. *)

Module Re.

Definition is_word (c : ascii) : bool :=
  let n := nat_of_ascii c in
  ((48 <=? n) && (n <=? 57) || (65 <=? n) && (n <=? 90)
   || (97 <=? n) && (n <=? 122) || (n =? 95))%nat.

(** A position: the character before it, if any, and the text from it. *)
Definition pattern : Type := option ascii -> string -> option nat.

Definition word_before (prev : option ascii) : bool :=
  match prev with Some c => is_word c | None => false end.

Definition word_at (s : string) : bool :=
  match s with String c _ => is_word c | EmptyString => false end.

(** [\b] *)
Definition boundary (prev : option ascii) (s : string) : bool :=
  xorb (word_before prev) (word_at s).

(** The length of the longest prefix in a character class. *)
Fixpoint span (cls : ascii -> bool) (s : string) : nat :=
  match s with
  | String c t => if cls c then S (span cls t) else O
  | EmptyString => O
  end.

(** [/lit/] *)
Definition lit (l : string) : pattern :=
  fun _ s => if Str.startsWith s l then Some (String.length l) else None.

(** [/\blit\b/] for a literal made of word characters *)
Definition word (l : string) : pattern :=
  fun prev s =>
    if boundary prev s && Str.startsWith s l
       && negb (word_at (Str.drop (String.length l) s))
    then Some (String.length l) else None.

(** [/\blit\w*/] *)
Definition word_prefix (l : string) : pattern :=
  fun prev s =>
    if boundary prev s && Str.startsWith s l
    then Some (String.length l + span is_word (Str.drop (String.length l) s))%nat
    else None.

(** [/\blit\S+/], as in [/\btools\/\S+/] *)
Definition family (l : string) : pattern :=
  fun prev s =>
    if boundary prev s && Str.startsWith s l then
      match span (fun c => negb (Str.is_space c)) (Str.drop (String.length l) s) with
      | O => None
      | n => Some (String.length l + n)%nat
      end
    else None.

(** [/#\d+/] *)
Definition request_id : pattern :=
  fun _ s =>
    match s with
    | String "#" t => match span is_digit t with O => None | n => Some (S n) end
    | _ => None
    end.

(** [/\d+ms/] *)
Definition elapsed_ms : pattern :=
  fun _ s =>
    match span is_digit s with
    | O => None
    | n => if Str.startsWith (Str.drop n s) "ms" then Some (n + 2)%nat else None
    end.

(** [line.replace(re, pre + "$&" + suf)]: scanning from the left, the
    text of each match is wrapped; with [global = false] only the first
    one.  [k] counts the characters of the current match still to copy. *)
Fixpoint replace_from (p : pattern) (pre suf : string) (global : bool)
    (k : nat) (prev : option ascii) (s : string) : string :=
  match s with
  | EmptyString => EmptyString
  | String ch t =>
      let inside (k' : nat) :=
        String ch (match k' with
                   | O => suf ++ (if global then replace_from p pre suf global O (Some ch) t
                                  else t)
                   | S _ => replace_from p pre suf global k' (Some ch) t
                   end) in
      match k with
      | S k' => inside k'
      | O =>
          match p prev s with
          | Some (S n) => pre ++ inside n
          | _ => String ch (replace_from p pre suf global O (Some ch) t)
          end
      end
  end.

Definition replace (p : pattern) (pre suf : string) (global : bool) (s : string) : string :=
  replace_from p pre suf global O None s.

(** [/^\d{2}:\d{2}:\d{2}\.\d{3}/] *)
Definition timestamp_at_start (s : string) : bool :=
  match s with
  | String h1 (String h2 (String c1 (String m1 (String m2 (String c2
      (String s1 (String s2 (String d (String f1 (String f2 (String f3 _))))))))))) =>
      is_digit h1 && is_digit h2 && Ascii.eqb c1 ":" && is_digit m1 && is_digit m2
      && Ascii.eqb c2 ":" && is_digit s1 && is_digit s2 && Ascii.eqb d "."
      && is_digit f1 && is_digit f2 && is_digit f3
  | _ => false
  end.

(** [/^\s+\[[-\d]+\]/.test(line)] *)
Definition error_detail (line : string) : bool :=
  match span Str.is_space line with
  | O => false
  | n =>
      match Str.drop n line with
      | String "[" r =>
          match span (fun c => Ascii.eqb c "-" || is_digit c) r with
          | O => false
          | m => match Str.drop m r with
                 | String "]" _ => true
                 | _ => false
                 end
          end
      | _ => false
      end
  end.

End Re.

Definition ansi (code : string) : string := ESC ++ "[" ++ code ++ "m".

(** The replacements of [colorize], from the timestamp to the elapsed
    time, in the order of the source. *)
Definition highlight (line : string) : string :=
  let reset := ansi "0" in
  let line := if Re.timestamp_at_start line
              then ansi "2" ++ Str.take 12 line ++ reset ++ Str.drop 12 line
              else line in
  let line := Re.replace (Re.lit "→ CLIENT") (ansi "36" ++ ansi "1") reset true line in
  let line := Re.replace (Re.lit "← SERVER") (ansi "32" ++ ansi "1") reset true line in
  let line := Re.replace (Re.word "ERROR") (ansi "31" ++ ansi "1") reset true line in
  let line := Re.replace (Re.word "notification") (ansi "34") reset false line in
  let line := Re.replace (Re.word "request") (ansi "37") reset false line in
  let line := Re.replace (Re.word "response") (ansi "37") reset false line in
  let line := Re.replace (Re.word_prefix "initialize") (ansi "35") reset true line in
  let line := Re.replace (Re.family "tools/") (ansi "32") reset true line in
  let line := Re.replace (Re.family "resources/") (ansi "36") reset true line in
  let line := Re.replace (Re.family "prompts/") (ansi "33") reset true line in
  let line := Re.replace (Re.family "notifications/") (ansi "34") reset true line in
  let line := Re.replace Re.request_id (ansi "2") reset true line in
  let line := Re.replace Re.elapsed_ms (ansi "2") reset true line in
  line.

(** [colorize(line, useColor)] *)
Definition colorize (line : string) (useColor : bool) : string :=
  if negb useColor then line
  else
    let line := highlight line in
    let line := if Str.startsWith line "    "
                then ansi "2" ++ line ++ ansi "0" else line in
    let line := if Str.startsWith line "[server stderr]"
                then ansi "2" ++ line ++ ansi "0" else line in
    let line := if Re.error_detail line
                then ansi "31" ++ line ++ ansi "0" else line in
    line.

(** ** watch.ts: [findLatestLog] *)

Section FindLatestLog.
(** The file system as the function sees it: [readdirSync(dir)] lists a
    directory or throws ([None]); [statSync(path).mtimeMs] is the
    modification time of a path or [statSync] throws ([None]);
    [join] is [path.join].  Only the order of modification times
    matters, so they are taken in [Z]. *)
Variable readdirSync : string -> option (list string).
Variable mtimeMs : string -> option Z.
Variable join : string -> string -> string.

(** One turn of the loop over [entries], on [(latest, latestMtime)]. *)
Definition consider (dir : string) (acc : option string * Z) (entry : string)
  : option string * Z :=
  if negb (Str.endsWith entry ".log") then acc
  else
    let fullPath := join dir entry in
    match mtimeMs fullPath with
    | Some m => if (m >? snd acc)%Z then (Some fullPath, m) else acc
    | None => acc
    end.

Definition findLatestLog (dir : string) : option string :=
  match readdirSync dir with
  | None => None
  | Some entries => fst (fold_left (consider dir) entries (None, 0%Z))
  end.
End FindLatestLog.

(** ** Vocabulary of the properties *)

(** A position inside a JSON value: the keys and indices that lead to it. *)
Inductive step : Type :=
| Key (k : string)
| Idx (i : nat).

Fixpoint at_path (v : JSON) (p : list step) : option JSON :=
  match p with
  | [] => Some v
  | Key k :: p' =>
      match v with
      | JObj es => match obj_get es k with
                   | Some v' => at_path v' p'
                   | None => None
                   end
      | _ => None
      end
  | Idx i :: p' =>
      match v with
      | JArr xs => match nth_error xs i with
                   | Some v' => at_path v' p'
                   | None => None
                   end
      | _ => None
      end
  end.

(** Is the value at this position a direct element of an array? *)
Fixpoint element_of_array (p : list step) : bool :=
  match p with
  | [] => false
  | [Idx _] => true
  | [Key _] => false
  | _ :: p' => element_of_array p'
  end.

Fixpoint distinct_keys (ks : list string) : bool :=
  match ks with
  | [] => true
  | k :: r => negb (existsb (String.eqb k) r) && distinct_keys r
  end.

(** The values that are JavaScript values: no object has a key twice. *)
Fixpoint well_formed (v : JSON) : bool :=
  match v with
  | JArr xs => forallb well_formed xs
  | JObj es => distinct_keys (map fst es) && forallb (fun kv => well_formed (snd kv)) es
  | _ => true
  end.

(** The world after some more records have been written. *)
Definition emit (rs : list record) (w : world) : world :=
  World (written w ++ rs)%list (pendingRequests w).

(** [s.includes(sub)], by search. *)
Fixpoint includes (s sub : string) : bool :=
  Str.startsWith s sub
  || match s with
     | EmptyString => false
     | String _ t => includes t sub
     end.

(** The text of the records written, in order. *)
Definition plains (w : world) : list string := map plain (written w).

(** The two lines of the round trip of the specification. *)
Definition line_request : string :=
  ("{" ++ jq "jsonrpc" ++ ":" ++ jq "2.0" ++ "," ++ jq "id" ++ ":1," ++ jq "method" ++ ":" ++ jq "tools/list" ++ "}").

Definition line_response : string :=
  ("{" ++ jq "jsonrpc" ++ ":" ++ jq "2.0" ++ "," ++ jq "id" ++ ":1," ++ jq "result" ++ ":{" ++ jq "tools" ++ ":[{" ++ jq "name" ++ ":" ++ jq "echo" ++ "},{" ++ jq "name" ++ ":" ++ jq "add" ++ "}]}}").

(** The record of one line of a text block that is not pretty-printed,
    and of one line of a pretty-printed one. *)
Definition text_line (c : Colors) (line : string) : record :=
  Rec ("    " ++ DIM c ++ "[text]" ++ RESET c ++ " " ++ line) ("    [text] " ++ line).

Definition json_line (c : Colors) (line : string) : record :=
  Rec ("    " ++ DIM c ++ "    " ++ line ++ RESET c) ("        " ++ line).

Definition text_label (c : Colors) : record :=
  Rec ("    " ++ DIM c ++ "[text]" ++ RESET c) "    [text]".

(** The record of an image block. *)
Definition image_line (c : Colors) (mime size : string) : record :=
  Rec ("    " ++ DIM c ++ "[image " ++ mime ++ "]" ++ RESET c ++ " " ++ size)
      ("    [image " ++ mime ++ "] " ++ size).

(** A [tools/call] result with one content block. *)
Definition one_block (block : JSON) : jsval :=
  Some (JObj [("content", JArr [block])]).

Definition text_block (text : string) : JSON :=
  JObj [("type", JStr "text"); ("text", JStr text)].

Definition image_block (mimeType data : string) : JSON :=
  JObj [("type", JStr "image"); ("mimeType", JStr mimeType); ("data", JStr data)].

(** The two records of an error response, for the request method
    [reqMethod], the texts of the id, the code and the message, and the
    elapsed-time token. *)
Definition error_header (c : Colors) (tsNow : string) (dir : direction)
    (reqMethod mc ids elapsed : string) : record :=
  Rec (head_colored c tsNow dir ++ "  " ++ RED c ++ BOLD c ++ "ERROR" ++ RESET c ++ "  "
         ++ mc ++ "(" ++ reqMethod ++ " #" ++ ids ++ ")" ++ RESET c ++ "  "
         ++ DIM c ++ elapsed ++ RESET c)
      (head_plain tsNow dir ++ "  ERROR  (" ++ reqMethod ++ " #" ++ ids ++ ")  " ++ elapsed).

Definition error_detail_line (c : Colors) (codeS errS : string) : record :=
  Rec ("    " ++ RED c ++ "[" ++ codeS ++ "] " ++ errS ++ RESET c)
      ("    [" ++ codeS ++ "] " ++ errS).

(** The error response of the test suite, and a response whose result
    lists a [null] tool. *)
Definition line_error : string :=
  ("{" ++ jq "jsonrpc" ++ ":" ++ jq "2.0" ++ "," ++ jq "id" ++ ":2," ++ jq "error" ++ ":{" ++ jq "code" ++ ":-32600," ++ jq "message" ++ ":" ++ jq "Invalid request" ++ "}}").

Definition line_null_tool : string :=
  ("{" ++ jq "jsonrpc" ++ ":" ++ jq "2.0" ++ "," ++ jq "id" ++ ":1," ++ jq "result" ++ ":{" ++ jq "tools" ++ ":[null]}}").

(** A pattern that never matches at a space. *)
Definition not_at_space (p : Re.pattern) : Prop :=
  forall prev t, p prev (String " " t) = None.

(** An error detail line as the formatter writes it. *)
Definition line_error_detail : string := "    [-32601] Method not found".

(** A directory as [findLatestLog] sees it, for examples: the listing of
    one directory, modification times by path, and [path.join] on names
    that need no normalisation. *)
Definition listing (dir : string) (entries : list string) (d : string)
  : option (list string) :=
  if String.eqb d dir then Some entries else None.

Fixpoint mtime_of (files : list (string * Z)) (path : string) : option Z :=
  match files with
  | [] => None
  | (p, m) :: r => if String.eqb p path then Some m else mtime_of r path
  end.

Definition join_slash (dir entry : string) : string := dir ++ "/" ++ entry.

(** What the loop of [findLatestLog] knows after the entries [seen]: no
    matching entry seen is newer than [latestMtime], and [latest] is either
    [null] with [latestMtime = 0], or the path of a matching entry seen
    whose time is [latestMtime > 0]. *)
Definition loop_knows (mtimeMs : string -> option Z) (join : string -> string -> string)
    (dir : string) (seen : list string) (acc : option string * Z) : Prop :=
  (forall e m, In e seen -> Str.endsWith e ".log" = true ->
               mtimeMs (join dir e) = Some m -> (m <= snd acc)%Z)
  /\ match fst acc with
     | None => snd acc = 0%Z
     | Some p =>
         exists e, In e seen /\ Str.endsWith e ".log" = true /\ p = join dir e
                   /\ mtimeMs p = Some (snd acc) /\ (0 < snd acc)%Z
     end.

(** The example of the specification for [removeNoiseFields]:
    [{data: {id: "keep", items: [{id: "remove"}]}}]. *)
Definition noisy_example : JSON :=
  JObj [("data", JObj [("id", JStr "keep");
                       ("items", JArr [JObj [("id", JStr "remove")]])])].

(** The [insideArray] flag under which [removeNoiseFields] reaches the
    position [p] when it starts with the flag [b]. *)
Definition flag_at (b : bool) (p : list step) : bool :=
  match p with
  | [] => b
  | _ => element_of_array p
  end.

(** The marker that [truncateArrays] appends. *)
Definition more_marker (n : Z) : JSON := JStr ("... +" ++ Str.of_Z n ++ " more").

(** A computation that leaves the pending requests as they are, whether
    it returns or not. *)
Definition keeps_pending {A} (m : M A) : Prop :=
  forall w, pendingRequests (snd (m w)) = pendingRequests w.

(** A computation that deletes the entry of [id] when it returns and
    leaves the pending requests as they are when it does not. *)
Definition deletes_on_return (id : JSON) (m : M unit) : Prop :=
  forall w,
    (fst (m w) = Val tt /\ pendingRequests (snd (m w)) = Map_delete (pendingRequests w) id)
    \/ (fst (m w) <> Val tt /\ pendingRequests (snd (m w)) = pendingRequests w).

(** [s.repeat(n)] *)
Fixpoint repeat_str (s : string) (n : nat) : string :=
  match n with
  | O => EmptyString
  | S n' => s ++ repeat_str s n'
  end.

(** The log that a run leaves, as the mock logger of the tests records it. *)
Definition run_plains (m : M unit) : list string := plains (snd (m (World [] []))).

Definition nums (l : list Z) : JSON := JArr (map JNum l).

(** ** utils.ts: [timestamp] *)

(** [s.padStart(n, "0")] *)
Definition padStart0 (s : string) (n : nat) : string :=
  repeat_str "0" (n - String.length s) ++ s.

(** [timestamp()], from the four readings of [new Date()]: [getHours()],
    [getMinutes()], [getSeconds()] and [getMilliseconds()]. *)
Definition timestamp (hours minutes seconds milliseconds : Z) : string :=
  let h := padStart0 (Str.of_Z hours) 2 in
  let m := padStart0 (Str.of_Z minutes) 2 in
  let s := padStart0 (Str.of_Z seconds) 2 in
  let ms := padStart0 (Str.of_Z milliseconds) 3 in
  h ++ ":" ++ m ++ ":" ++ s ++ "." ++ ms.

(** ** line-buffer.ts *)

(** [buffer.indexOf("\n")]: [None] is [-1]. *)
Fixpoint indexOf_LF (s : string) : option nat :=
  match s with
  | EmptyString => None
  | String c t => if Ascii.eqb c Str.LF then Some O else option_map S (indexOf_LF t)
  end.

(** [line.trim().length === 0] *)
Definition is_blank (line : string) : bool := (Str.length (Str.trim line) =? 0)%Z.

(** The [while] loop of the closure that [createLineBuffer] returns: the
    lines handed to [onLine], in order, and the buffer left.  The loop is
    given [fuel] turns; [None] when that is not enough. *)
Fixpoint drain (fuel : nat) (buffer : string) : option (list string * string) :=
  match fuel with
  | O => None
  | S fuel' =>
      match indexOf_LF buffer with
      | None => Some ([], buffer)
      | Some newlineIdx =>
          let line := Str.take newlineIdx buffer in
          let buffer := Str.drop (S newlineIdx) buffer in
          match drain fuel' buffer with
          | Some (lines, buffer) =>
              Some ((if is_blank line then [] else [line]) ++ lines, buffer)%list
          | None => None
          end
      end
  end.

(** One call of the closure of [createLineBuffer(onLine)] on [chunk], from
    the [buffer] that the closure holds. *)
Definition createLineBuffer (buffer chunk : string) : option (list string * string) :=
  let buffer := buffer ++ chunk in
  drain (S (String.length buffer)) buffer.

(** The closure called on one chunk after the other: all the lines handed
    to [onLine], and the buffer at the end. *)
Fixpoint feed_all (buffer : string) (chunks : list string) : option (list string * string) :=
  match chunks with
  | [] => Some ([], buffer)
  | chunk :: rest =>
      match createLineBuffer buffer chunk with
      | Some (lines, buffer) =>
          match feed_all buffer rest with
          | Some (more, buffer) => Some (lines ++ more, buffer)%list
          | None => None
          end
      | None => None
      end
  end.

(** ** proxy.ts: the handler of the server's standard error

    [child.stderr.on("data", ...)], on the text of the chunk. *)
Definition stderr_data (c : Colors) (chunk : string) : M unit :=
  forM (Str.split_lines chunk)
    (fun line =>
       if is_blank line then ret tt
       else write (DIM c ++ "[server stderr]" ++ RESET c ++ " " ++ line)
                  ("[server stderr] " ++ line)).

(** ** cli.ts and watch.ts: the command lines *)

(** A function that may end the process: [process.exit(code)]. *)
Inductive cli (A : Type) : Type :=
| Returned (a : A)
| Exited (code : Z).
Arguments Returned {A} a.
Arguments Exited {A} code.

Section ParseArgs.
(** [parseInt(s, 10)], whose results are only stored. *)
Context {number : Type} (parseInt : string -> number).

Record ParsedArgs : Type := {
  logFilePath : option string;
  httpPort : option number;
  serverCmd : option string;
  serverArgs : list string
}.

(** The loop of [parseArgs] from the argument it has reached. *)
Fixpoint parseArgs_from (args : list string) (log : option string) (port : option number)
  : cli ParsedArgs :=
  match args with
  | [] => Returned {| logFilePath := log; httpPort := port;
                      serverCmd := None; serverArgs := [] |}
  | arg :: rest =>
      match String.eqb arg "--log" || String.eqb arg "-l", rest with
      | true, value :: rest' => parseArgs_from rest' (Some value) port
      | _, _ =>
          match String.eqb arg "--port" || String.eqb arg "-p", rest with
          | true, value :: rest' => parseArgs_from rest' log (Some (parseInt value))
          | _, _ =>
              if String.eqb arg "--help" || String.eqb arg "-h" then Exited 0
              else if String.eqb arg "--version" || String.eqb arg "-v" then Exited 0
              else Returned {| logFilePath := log; httpPort := port;
                               serverCmd := Some arg; serverArgs := rest |}
          end
      end
  end.

(** [parseArgs(argv)] *)
Definition parseArgs (argv : list string) : cli ParsedArgs :=
  parseArgs_from (skipn 2 argv) None None.
End ParseArgs.

Module WatchArgs.

Record WatchOptions : Type := {
  dir : string;
  file : option string;
  color : bool
}.

(** The loop of [parseWatchArgs] from the argument it has reached. *)
Fixpoint parseWatchArgs_from (args : list string) (o : WatchOptions) : cli WatchOptions :=
  match args with
  | [] => Returned o
  | arg :: rest =>
      match String.eqb arg "--dir", rest with
      | true, value :: rest' =>
          parseWatchArgs_from rest' {| dir := value; file := file o; color := color o |}
      | _, _ =>
          match String.eqb arg "--file", rest with
          | true, value :: rest' =>
              parseWatchArgs_from rest' {| dir := dir o; file := Some value; color := color o |}
          | _, _ =>
              if String.eqb arg "--no-color"
              then parseWatchArgs_from rest {| dir := dir o; file := file o; color := false |}
              else if String.eqb arg "--help" || String.eqb arg "-h" then Exited 0
              else parseWatchArgs_from rest o
          end
      end
  end.

(** [parseWatchArgs(args)], with the value of [DEFAULT_LOG_DIR]. *)
Definition parseWatchArgs (DEFAULT_LOG_DIR : string) (args : list string)
  : cli WatchOptions :=
  parseWatchArgs_from args {| dir := DEFAULT_LOG_DIR; file := None; color := true |}.

End WatchArgs.

(** ** watch.ts: the lines that [streamFile] prints *)

(** The loop that prints the existing content, from the line it has
    reached: what goes to the standard output, write by write, and
    [partial]. *)
Fixpoint print_existing_from (useColor : bool) (text : string) (lines : list string)
    (partial : string) : list string * string :=
  match lines with
  | [] => ([], partial)
  | line :: rest =>
      let is_last := match rest with [] => true | _ :: _ => false end in
      if is_last && String.eqb line EmptyString
      then print_existing_from useColor text rest partial
      else if is_last && negb (Str.endsWith text NL)
      then print_existing_from useColor text rest line
      else let (out, partial) := print_existing_from useColor text rest partial in
           ((colorize line useColor ++ NL) :: out, partial)
  end.

(** What [streamFile] does with the [text] that the file holds when it is
    opened.  An empty file is not read; the loop prints nothing of the
    empty text either. *)
Definition print_existing (useColor : bool) (text : string) : list string * string :=
  print_existing_from useColor text (Str.split_lines text) EmptyString.

(** The loop of one turn of the poll, from the line it has reached. *)
Fixpoint print_new_from (useColor : bool) (lines : list string) (partial : string)
  : list string * string :=
  match lines with
  | [] => ([], partial)
  | line :: rest =>
      match rest with
      | [] =>
          print_new_from useColor rest
            (if negb (String.eqb line EmptyString) then line else partial)
      | _ :: _ =>
          let (out, partial) := print_new_from useColor rest partial in
          ((colorize line useColor ++ NL) :: out, partial)
      end
  end.

(** What one turn of the poll does with the text [decoded] from the bytes
    it has read, when [partial] was left by the turn before. *)
Definition print_new (useColor : bool) (partial decoded : string) : list string * string :=
  let text := partial ++ decoded in
  print_new_from useColor (Str.split_lines text) EmptyString.

(** The content that is there when the file is opened, then one turn of
    the poll after the other, each with the text it reads. *)
Fixpoint print_all (useColor : bool) (out : list string) (partial : string)
    (reads : list string) : list string * string :=
  match reads with
  | [] => (out, partial)
  | decoded :: rest =>
      let (more, partial) := print_new useColor partial decoded in
      print_all useColor (out ++ more)%list partial rest
  end.

Definition streamFile_prints (useColor : bool) (text : string) (reads : list string)
  : list string * string :=
  let (out, partial) := print_existing useColor text in
  print_all useColor out partial reads.

(** ** Induction on JSON values *)

Section JSON_induction.
Variable P : JSON -> Prop.
Hypothesis P_null : P JNull.
Hypothesis P_bool : forall b, P (JBool b).
Hypothesis P_num : forall n, P (JNum n).
Hypothesis P_str : forall s, P (JStr s).
Hypothesis P_arr : forall xs, Forall P xs -> P (JArr xs).
Hypothesis P_obj : forall es, Forall (fun kv => P (snd kv)) es -> P (JObj es).

Fixpoint JSON_induction (v : JSON) : P v :=
  match v with
  | JNull => P_null
  | JBool b => P_bool b
  | JNum n => P_num n
  | JStr s => P_str s
  | JArr xs =>
      P_arr xs ((fix all (l : list JSON) : Forall P l :=
                   match l with
                   | [] => Forall_nil _
                   | x :: r => Forall_cons x (JSON_induction x) (all r)
                   end) xs)
  | JObj es =>
      P_obj es ((fix all (l : list (string * JSON)) : Forall (fun kv => P (snd kv)) l :=
                   match l with
                   | [] => Forall_nil _
                   | kv :: r => Forall_cons kv (JSON_induction (snd kv)) (all r)
                   end) es)
  end.
End JSON_induction.

(** ** Vocabulary of the further properties *)

(** A JSON text whose value has a long array of objects with an id. *)
Definition bounded_example : string :=
  "{" ++ jq "items" ++ ":[{" ++ jq "id" ++ ":7," ++ jq "name" ++ ":" ++ jq "a"
      ++ "},2,3,4,5]}".

(** A detail record, as the formatters write them under a header: both of
    its texts begin with four spaces. *)
Definition detail (r : record) : Prop :=
  Str.startsWith (plain r) "    " = true /\ Str.startsWith (colored r) "    " = true.

(** A header record of a message: its texts begin with the timestamp, the
    arrow and the label, and two spaces. *)
Definition header (c : Colors) (tsNow : string) (dir : direction) (r : record) : Prop :=
  Str.startsWith (plain r) (head_plain tsNow dir ++ "  ") = true
  /\ Str.startsWith (colored r) (head_colored c tsNow dir ++ "  ") = true.

(** A computation that only adds records to the log, each with the
    property [P], whether it returns or not. *)
Definition appends {A} (P : record -> Prop) (m : M A) : Prop :=
  forall w, exists rs, written (snd (m w)) = (written w ++ rs)%list /\ Forall P rs.

(** A computation that writes nothing. *)
Definition silent {A} (m : M A) : Prop :=
  forall w, written (snd (m w)) = written w.

(** A computation that only adds records to the log, the first of them
    with the property [P], and that does not return without writing. *)
Definition begins {A} (P : record -> Prop) (m : M A) : Prop :=
  forall w, exists rs,
    written (snd (m w)) = (written w ++ rs)%list
    /\ match rs with
       | [] => forall a, fst (m w) <> Val a
       | h :: _ => P h
       end.

(** One line that the proxy hands to [formatMessage]: what [timestamp()]
    and [Date.now()] read when it comes, its text and its direction. *)
Record event : Type := Event {
  ev_ts : string;
  ev_now : Z;
  ev_json : string;
  ev_dir : direction
}.

Definition formatEvent (c : Colors) (e : event) : M unit :=
  formatMessage c (ev_ts e) (ev_now e) (ev_json e) (ev_dir e).

(** The lines formatted one after the other, each in its own call;
    [None] when one of them leaves the model. *)
Fixpoint formatEvents (c : Colors) (evs : list event) (w : world) : option world :=
  match evs with
  | [] => Some w
  | e :: rest =>
      match formatEvent c e w with
      | (Val _, w') => formatEvents c rest w'
      | (Abort _, _) => None
      end
  end.

(** Is the line the JSON text of an object whose id is [id]? *)
Definition about (id : JSON) (json : string) : bool :=
  match JSON_parse json with
  | Val (JObj es) =>
      match obj_get es "id" with
      | Some k => same_value_zero k id
      | None => false
      end
  | _ => false
  end.

(** A request, a notification and the response to the request. *)
Definition ping_request : event :=
  Event "10:00:00.000" 1000
        ("{" ++ jq "id" ++ ":" ++ jq "a" ++ "," ++ jq "method" ++ ":" ++ jq "ping" ++ "}")
        client.

Definition progress_notification : event :=
  Event "10:00:00.010" 1010 ("{" ++ jq "method" ++ ":" ++ jq "notifications/progress" ++ "}")
        server.

Definition ping_response : event :=
  Event "10:00:00.042" 1042
        ("{" ++ jq "id" ++ ":" ++ jq "a" ++ "," ++ jq "result" ++ ":{}}")
        server.

(** A text made of decimal digits. *)
Fixpoint all_digits (s : string) : bool :=
  match s with
  | EmptyString => true
  | String c t => is_digit c && all_digits t
  end.

(** The options of [ilya] that take a value, and a run of such options,
    each followed by its value. *)
Definition takes_value (arg : string) : bool :=
  (String.eqb arg "--log" || String.eqb arg "-l")
  || (String.eqb arg "--port" || String.eqb arg "-p").

Fixpoint options_with_values (args : list string) : bool :=
  match args with
  | [] => true
  | arg :: _ :: rest => takes_value arg && options_with_values rest
  | [_] => false
  end.

(** The record that the proxy writes for one line of the server's
    standard error. *)
Definition stderr_record (c : Colors) (line : string) : record :=
  Rec (DIM c ++ "[server stderr]" ++ RESET c ++ " " ++ line) ("[server stderr] " ++ line).

(** A pattern that finds nothing in the tag of such a line. *)
Definition skips_stderr_tag (p : Re.pattern) : Prop :=
  forall pre suf g rest,
    Re.replace p pre suf g ("[server stderr] " ++ rest)
    = "[server stderr] " ++ Re.replace_from p pre suf g O (Some " "%char) rest.

(** The summary of a list of names: all of them up to eight, otherwise the
    first six and the number of the others. *)
Definition summary_of (names : list string) : string :=
  if (List.length names <=? 8)%nat then Str.join ", " names
  else Str.join ", " (firstn 6 names)
       ++ ", ... +" ++ Str.of_Z (Z.of_nat (List.length names) - 6) ++ " more".

Definition summary_record (color reset kind : string) (names : list string) : record :=
  Rec ("    " ++ color ++ "(" ++ Str.of_Z (Z.of_nat (List.length names)) ++ " " ++ kind ++ ": "
         ++ summary_of names ++ ")" ++ reset)
      ("    (" ++ Str.of_Z (Z.of_nat (List.length names)) ++ " " ++ kind ++ ": "
         ++ summary_of names ++ ")").

(** An object whose [name] is the string [n]; and one that is listed
    under [n], its name or, for want of a name, its uri. *)
Definition named (v : JSON) (n : string) : Prop :=
  exists props, v = JObj props /\ obj_get props "name" = Some (JStr n).

Definition listed_as (v : JSON) (n : string) : Prop :=
  exists props,
    v = JObj props
    /\ ((obj_get props "name" = Some (JStr n) /\ n <> EmptyString)
        \/ (truthy (obj_get props "name") = false /\ obj_get props "uri" = Some (JStr n))).

(** The one record of a line that is no request, notification or
    response: the text of the line, trimmed and cut to 200 characters,
    after the tag "[raw]" when the line could not be read. *)
Definition raw_record (c : Colors) (tsNow : string) (dir : direction) (tagged : bool)
    (json : string) : record :=
  let raw := truncate (Str.trim json) 200 in
  if tagged
  then Rec (head_colored c tsNow dir ++ "  " ++ YELLOW c ++ "[raw]" ++ RESET c ++ " " ++ raw)
           (head_plain tsNow dir ++ "  [raw] " ++ raw)
  else Rec (head_colored c tsNow dir ++ "  " ++ DIM c ++ raw ++ RESET c)
           (head_plain tsNow dir ++ "  " ++ raw).

(** Two states with the same plain log and the same pending requests. *)
Definition same_log (w w' : world) : Prop :=
  plains w = plains w' /\ pendingRequests w = pendingRequests w'.

(** Two computations that, from such states, end in the same way, with
    results related by [R] when they return, and lead to such states. *)
Definition agree {A B} (R : A -> B -> Prop) (m : M A) (m' : M B) : Prop :=
  forall w w',
    same_log w w' ->
    same_log (snd (m w)) (snd (m' w'))
    /\ match fst (m w), fst (m' w') with
       | Val a, Val b => R a b
       | Abort e, Abort e' => e = e'
       | _, _ => False
       end.

(** ** Vocabulary of the copy loops *)

(** Does the loop of [removeNoiseFields] leave this entry out of the
    object it builds?  It skips the noise fields, and the assignment of
    the key "__proto__" creates no property. *)
Definition dropped (insideArray : bool) (key : string) (value : JSON) : bool :=
  noise_skipped insideArray key value || String.eqb key "__proto__".

(** A path none of whose steps is the key "__proto__". *)
Definition proto_free (p : list step) : bool :=
  forallb (fun s => match s with
                    | Key k => negb (String.eqb k "__proto__")
                    | Idx _ => true
                    end) p.

(** Does [removeNoiseFields], called on [v] with the flag [b], keep what
    stands in [v] at the position [p]: is no step of [p] a member that the
    loop leaves out? *)
Fixpoint undropped (v : JSON) (b : bool) (p : list step) : bool :=
  match p with
  | [] => true
  | Key k :: p' =>
      match v with
      | JObj es => match obj_get es k with
                   | Some x => negb (dropped b k x) && undropped x false p'
                   | None => true
                   end
      | _ => true
      end
  | Idx i :: p' =>
      match v with
      | JArr xs => match nth_error xs i with
                   | Some x => undropped x true p'
                   | None => true
                   end
      | _ => true
      end
  end.


(** ** Vocabulary of the command line of [ilya watch] *)

(** The arguments read as options: "--dir" or "--file" with the argument
    that follows it, "--no-color", and any argument that means nothing. *)
Inductive watch_option : Type :=
| DirOption (value : string)
| FileOption (value : string)
| NoColorOption
| OtherArgument (arg : string).

Definition arguments_of (o : watch_option) : list string :=
  match o with
  | DirOption value => ["--dir"; value]
  | FileOption value => ["--file"; value]
  | NoColorOption => ["--no-color"]
  | OtherArgument arg => [arg]
  end.

Definition is_help (arg : string) : bool :=
  String.eqb arg "--help" || String.eqb arg "-h".

(** An argument that is none of the five that mean something. *)
Definition means_nothing (arg : string) : bool :=
  negb (String.eqb arg "--dir" || String.eqb arg "--file"
        || String.eqb arg "--no-color" || is_help arg).

Definition well_read (o : watch_option) : bool :=
  match o with
  | OtherArgument arg => means_nothing arg
  | _ => true
  end.

(** What may be left at the end: nothing, or a "--dir" or a "--file" with
    no argument after it. *)
Definition dangling (tail : list string) : bool :=
  match tail with
  | [] => true
  | [arg] => String.eqb arg "--dir" || String.eqb arg "--file"
  | _ => false
  end.

Definition dir_values (os : list watch_option) : list string :=
  flat_map (fun o => match o with DirOption value => [value] | _ => [] end) os.

Definition file_values (os : list watch_option) : list string :=
  flat_map (fun o => match o with FileOption value => [value] | _ => [] end) os.

Definition is_no_color (o : watch_option) : bool :=
  match o with NoColorOption => true | _ => false end.

(** What the options say, read after the options [o0]: the last
    directory, the last file, and no colours if "--no-color" is there. *)
Definition options_after (o0 : WatchArgs.WatchOptions) (os : list watch_option)
  : WatchArgs.WatchOptions :=
  {| WatchArgs.dir := last (dir_values os) (WatchArgs.dir o0);
     WatchArgs.file := last (map Some (file_values os)) (WatchArgs.file o0);
     WatchArgs.color := WatchArgs.color o0 && negb (existsb is_no_color os) |}.

Definition options_read (DEFAULT_LOG_DIR : string) (os : list watch_option)
  : WatchArgs.WatchOptions :=
  {| WatchArgs.dir := last (dir_values os) DEFAULT_LOG_DIR;
     WatchArgs.file := last (map Some (file_values os)) None;
     WatchArgs.color := negb (existsb is_no_color os) |}.

(** * Properties *)

(** ** Strings *)

Lemma startsWith_app (p s : string) : Str.startsWith (p ++ s) p = true.
Proof.
  induction p as [|a p IH]; simpl.
  - now destruct s.
  - now rewrite Ascii.eqb_refl, IH.
Qed.

Lemma startsWith_split (s p : string) :
  Str.startsWith s p = true -> exists r, s = p ++ r.
Proof.
  revert s. induction p as [|a p IH]; intros s H.
  - now exists s.
  - destruct s as [|b s]; simpl in H; [discriminate|].
    apply andb_true_iff in H. destruct H as [Hab Hs].
    apply Ascii.eqb_eq in Hab. subst b.
    destruct (IH _ Hs) as [r ->]. now exists r.
Qed.

Lemma append_assoc (a b c : string) : (a ++ b) ++ c = a ++ (b ++ c).
Proof. induction a; simpl; congruence. Qed.

Lemma append_nil_r (a : string) : a ++ "" = a.
Proof. induction a; simpl; congruence. Qed.

Lemma Contains_here (s post : string) : Str.Contains (s ++ post) s.
Proof. exists "", post. reflexivity. Qed.

Lemma Contains_refl (s : string) : Str.Contains s s.
Proof. exists "", "". simpl. now rewrite append_nil_r. Qed.

Lemma Contains_app_r (a b sub : string) : Str.Contains b sub -> Str.Contains (a ++ b) sub.
Proof.
  intros (pre & post & ->). exists (a ++ pre), post. now rewrite append_assoc.
Qed.

Lemma Contains_app_l (a b sub : string) : Str.Contains a sub -> Str.Contains (a ++ b) sub.
Proof.
  intros (pre & post & ->). exists pre, (post ++ b). now rewrite !append_assoc.
Qed.

Lemma includes_sound (s sub : string) : includes s sub = true -> Str.Contains s sub.
Proof.
  induction s as [|c s IH]; cbn [includes]; intros H.
  - rewrite orb_false_r in H. destruct (startsWith_split _ _ H) as [r ->].
    apply Contains_here.
  - apply orb_true_iff in H. destruct H as [H|H].
    + destruct (startsWith_split _ _ H) as [r ->]. apply Contains_here.
    + apply (Contains_app_r (String c "") s sub). auto.
Qed.

(** Finds a literal inside a concatenation of literals and variables. *)
Ltac contains :=
  solve [ apply includes_sound; vm_compute; reflexivity
        | apply Contains_refl
        | apply Contains_here
        | apply Contains_app_r; contains
        | apply Contains_app_l; contains ].

(** ** The round trip of a [tools/list] request *)

Lemma request_run (c : Colors) (tsA : string) (nowA : Z) (dA : direction) :
  formatMessage c tsA nowA line_request dA (World [] []) =
  (Val tt,
   World [Rec (head_colored c tsA dA ++ "  " ++ WHITE c ++ "request" ++ RESET c ++ "  "
                 ++ GREEN c ++ "tools/list" ++ RESET c ++ "" ++ "  "
                 ++ DIM c ++ "#" ++ "1" ++ RESET c)
              (head_plain tsA dA ++ "  request  tools/list  #1")]
         [(JNum 1, Pending "tools/list" None nowA)]).
Proof. reflexivity. Qed.

Lemma response_run (c : Colors) (tsB : string) (nowA nowB : Z) (dB : direction) (r : record) :
  formatMessage c tsB nowB line_response dB
    (World [r] [(JNum 1, Pending "tools/list" None nowA)]) =
  (Val tt,
   World [r;
          Rec (head_colored c tsB dB ++ "  " ++ WHITE c ++ "response" ++ RESET c ++ "  "
                 ++ GREEN c ++ "tools/list" ++ RESET c ++ "  " ++ DIM c ++ "#" ++ "1"
                 ++ "  " ++ (Str.of_Z (nowB - nowA) ++ "ms") ++ RESET c)
              (head_plain tsB dB ++ "  response  tools/list  #1  "
                 ++ (Str.of_Z (nowB - nowA) ++ "ms"));
          Rec ("    " ++ GREEN c ++ "(2 tools: echo, add)" ++ RESET c)
              "    (2 tools: echo, add)"]
         []).
Proof. reflexivity. Qed.

(** C1.  From an empty pending-request map, whatever the colours, the
    directions and the clock: [formatMessage] on the [tools/list] request
    with id 1 writes one request record, with "#1" and "tools/list", and
    registers id 1; [formatMessage] on the response then writes a response
    record with "tools/list", "#1" and the elapsed time followed by "ms",
    and exactly one summary record with "2 tools" and "echo, add"; after
    that the map has no entry for id 1. *)
Theorem round_trip_tools_list
    (c : Colors) (tsA tsB : string) (nowA nowB : Z) (dA dB : direction) :
  let r1 := formatMessage c tsA nowA line_request dA (World [] []) in
  let r2 := formatMessage c tsB nowB line_response dB (snd r1) in
  fst r1 = Val tt /\ fst r2 = Val tt /\
  Map_has (pendingRequests (snd r1)) (JNum 1) = true /\
  Map_has (pendingRequests (snd r2)) (JNum 1) = false /\
  exists req resp summary,
    plains (snd r1) = [req] /\
    plains (snd r2) = [req; resp; summary] /\
    Str.Contains req "request" /\ Str.Contains req "#1" /\ Str.Contains req "tools/list" /\
    Str.Contains resp "response" /\ Str.Contains resp "tools/list" /\
    Str.Contains resp "#1" /\ Str.Contains resp (Str.of_Z (nowB - nowA) ++ "ms") /\
    Str.Contains summary "2 tools" /\ Str.Contains summary "echo, add".
Proof.
  intros r1 r2. subst r2 r1.
  rewrite request_run. cbn [snd fst].
  rewrite response_run. cbn [snd fst pendingRequests].
  repeat split.
  eexists _, _, _. unfold plains. cbn [written map plain].
  split; [reflexivity|]. split; [reflexivity|].
  repeat split; contains.
Qed.

(** ** [tryFormatJson] *)

Lemma tryFormatJson_null (text : string) :
  JSON_parse text = Abort Thrown \/
  (exists v, JSON_parse text = Val v /\ is_primitive v = true) ->
  tryFormatJson text = Val None.
Proof.
  unfold tryFormatJson. intros [->|(v & -> & ->)]; reflexivity.
Qed.

Lemma tryFormatJson_string (text : string) (v : JSON) :
  JSON_parse text = Val v -> is_primitive v = false ->
  tryFormatJson text
  = Val (Some (stringify2
                 (truncateStringValues (removeNoiseFields (truncateArrays v 3) false) 100))).
Proof.
  unfold tryFormatJson. intros -> ->. reflexivity.
Qed.

(** C3.  For every text: [tryFormatJson] returns [null] exactly when the
    text is not valid JSON or is valid JSON whose top-level value is
    [null], a boolean, a number or a string; it returns a string exactly
    when the top-level value is an array or an object, and the string is
    then the two-space pretty-print of the truncated, cleaned and
    shortened value.  It never throws. *)
Theorem tryFormatJson_cases (text : string) :
  (tryFormatJson text = Val None <->
     JSON_parse text = Abort Thrown \/
     exists v, JSON_parse text = Val v /\
       (v = JNull \/ (exists b, v = JBool b) \/ (exists n, v = JNum n)
        \/ (exists s, v = JStr s)))
  /\
  (forall out, tryFormatJson text = Val (Some out) <->
     exists v, JSON_parse text = Val v /\
       ((exists xs, v = JArr xs) \/ (exists es, v = JObj es)) /\
       out = stringify2
               (truncateStringValues (removeNoiseFields (truncateArrays v 3) false) 100))
  /\
  tryFormatJson text <> Abort Thrown.
Proof.
  split; [|split].
  - split.
    + unfold tryFormatJson. destruct (JSON_parse text) as [v|[|]]; [|auto|discriminate].
      destruct v; cbn [is_primitive]; intros H; try discriminate;
        right; eexists; (split; [reflexivity|]); eauto 6.
    + intros H. apply tryFormatJson_null.
      destruct H as [H|(v & Hv & Hp)]; [now left|]. right. exists v. split; [exact Hv|].
      destruct Hp as [->|[[b ->]|[[n ->]|[s ->]]]]; reflexivity.
  - intros out. split.
    + unfold tryFormatJson. destruct (JSON_parse text) as [v|[|]]; try discriminate.
      destruct v; cbn [is_primitive]; intros H; try discriminate;
        injection H as <-; eexists; (split; [reflexivity|]); split; eauto.
    + intros (v & Hv & Hs & ->). apply tryFormatJson_string; [exact Hv|].
      destruct Hs as [[xs ->]|[es ->]]; reflexivity.
  - unfold tryFormatJson. destruct (JSON_parse text) as [v|[|]]; try discriminate.
    destruct (is_primitive v); discriminate.
Qed.

(** ** Effects *)

Lemma emit_nil (w : world) : emit [] w = w.
Proof. destruct w. unfold emit. cbn. now rewrite app_nil_r. Qed.

Lemma emit_emit (a b : list record) (w : world) : emit b (emit a w) = emit (a ++ b) w.
Proof. unfold emit. cbn. now rewrite app_assoc. Qed.

Lemma write_run (a b : string) (w : world) : write a b w = (Val tt, emit [Rec a b] w).
Proof. reflexivity. Qed.

Lemma forM_write {A} (f g : A -> string) (xs : list A) (w : world) :
  forM xs (fun x => write (f x) (g x)) w
  = (Val tt, emit (map (fun x => Rec (f x) (g x)) xs) w).
Proof.
  revert w. induction xs as [|x xs IH]; intros w; cbn [forM map].
  - unfold ret. now rewrite emit_nil.
  - unfold bind. rewrite write_run, IH, emit_emit. reflexivity.
Qed.

Lemma bind_lift_val {A B} (a : A) (k : A -> M B) (w : world) :
  bind (lift (Val a)) k w = k a w.
Proof. reflexivity. Qed.

(** ** Text blocks of a [tools/call] result *)

(** What [formatResult] does for [tools/call]: the blocks in order, then
    the [isError] mark. *)
Lemma formatResult_tools_call (c : Colors) (es : list (string * JSON)) (content : list JSON) :
  obj_get es "content" = Some (JArr content) ->
  formatResult "tools/call" (Some (JObj es)) c
  = (forM content (formatBlock c) ;;
     if truthy (obj_get es "isError")
     then write ("    " ++ RED c ++ "(isError: true)" ++ RESET c) "    (isError: true)"
     else ret tt).
Proof.
  intros H. unfold formatResult, list_of. cbn. rewrite H. reflexivity.
Qed.

(** C2, as the program has it.  A content block of type "text" whose text
    is not valid JSON, or is JSON for [null], a boolean, a number or a
    string, is split on newlines and gives exactly one "[text] <line>"
    record per line.  A text that parses to an array or to an object takes
    the pretty-printed path: the "[text]" label, then one indented record
    per line of the pretty-print. *)
Theorem text_block_records
    (c : Colors) (es : list (string * JSON)) (text : string) (w : world) :
  obj_get es "type" = Some (JStr "text") ->
  obj_get es "text" = Some (JStr text) ->
  (JSON_parse text = Abort Thrown \/
   (exists v, JSON_parse text = Val v /\
      (v = JNull \/ (exists b, v = JBool b) \/ (exists n, v = JNum n)
       \/ (exists s, v = JStr s))) ->
   formatBlock c (JObj es) w
   = (Val tt, emit (map (text_line c) (Str.split_lines text)) w))
  /\
  (forall v, JSON_parse text = Val v ->
     (exists xs, v = JArr xs) \/ (exists fs, v = JObj fs) ->
     formatBlock c (JObj es) w
     = (Val tt,
        emit (text_label c
              :: map (json_line c)
                   (Str.split_lines
                      (stringify2
                         (truncateStringValues
                            (removeNoiseFields (truncateArrays v 3) false) 100)))) w)).
Proof.
  intros Hty Htext.
  unfold formatBlock. cbn [prop]. rewrite Hty, Htext.
  rewrite !bind_lift_val. cbn [is_str String.eqb Ascii.eqb Bool.eqb].
  rewrite !bind_lift_val. cbn [tryFormatJson_of].
  split.
  - intros H. rewrite (tryFormatJson_null text), bind_lift_val.
    + unfold text_line. apply forM_write.
    + destruct H as [H|(v & Hv & Hprim)]; [now left|]. right. exists v. split; [exact Hv|].
      destruct Hprim as [->|[[b ->]|[[n ->]|[s ->]]]]; reflexivity.
  - intros v Hv Hshape.
    rewrite (tryFormatJson_string text v Hv), bind_lift_val
      by (destruct Hshape as [[xs ->]|[fs ->]]; reflexivity). unfold bind at 1. rewrite write_run.
    rewrite forM_write, emit_emit. reflexivity.
Qed.

(** The plain text "hello", a newline, "world": two "[text]" records. *)
Lemma text_block_records_witness :
  formatBlock PLAIN (text_block ("hello" ++ NL ++ "world")) (World [] [])
  = (Val tt, World [Rec "    [text] hello" "    [text] hello";
                    Rec "    [text] world" "    [text] world"] []).
Proof.
  apply (proj1 (text_block_records PLAIN
                  [("type", JStr "text"); ("text", JStr ("hello" ++ NL ++ "world"))]
                  ("hello" ++ NL ++ "world") (World [] []) eq_refl eq_refl)).
  left. reflexivity.
Defined.

(** C2 as stated fails on a text that is JSON for an array: "[1,2]" does
    not parse to a JSON object, yet it is not written as the single
    record "[text] [1,2]" but pretty-printed over five records. *)
Lemma array_text_is_pretty_printed :
  JSON_parse "[1,2]" = Val (JArr [JNum 1; JNum 2])
  /\ plains (snd (formatResult "tools/call" (one_block (text_block "[1,2]")) PLAIN
                    (World [] [])))
     = ["    [text]"; "        ["; "          1,"; "          2"; "        ]"]
  /\ plains (snd (formatResult "tools/call" (one_block (text_block "[1,2]")) PLAIN
                    (World [] [])))
     <> map (fun line => "    [text] " ++ line) (Str.split_lines "[1,2]").
Proof.
  split; [reflexivity|]. split; [reflexivity|]. vm_compute. discriminate.
Qed.

(** ** Image blocks of a [tools/call] result *)

(** [Math.round] of [len * 3 / 4 / 1024] is the integer nearest to it, a
    half going up. *)
Lemma Math_round_nearest (len : Z) :
  let k := Math_round (inject_Z len * 3 / 4 / 1024) in
  (4096 * k - 2048 <= 3 * len < 4096 * k + 2048)%Z.
Proof.
  intros k.
  assert (E : k = ((len * 3 * 1 * 1 * 2 + 4096) / 8192)%Z) by reflexivity.
  rewrite E. clear E k. Z.div_mod_to_equations. lia.
Qed.

Lemma sizeKB_nearest (len : Z) :
  exists k, sizeKB len = Str.of_Z k ++ "KB"
            /\ (4096 * k - 2048 <= 3 * len < 4096 * k + 2048)%Z.
Proof.
  eexists. split; [reflexivity|]. apply Math_round_nearest.
Qed.

(** C9, as the program has it.  An image block gives exactly one record
    "[image <mimeType or '?'>] <size>".  With a data string that is not
    empty, of length [len], the size is "<k>KB" where [k] is
    [len * 3 / 4 / 1024] rounded to the nearest integer, a half going up
    ([Math.round], not a ceiling).  With no data, or with the empty
    string as data, the size is "?". *)
Theorem image_block_record
    (c : Colors) (es : list (string * JSON)) (mime : string) (w : world) :
  obj_get es "type" = Some (JStr "image") ->
  or_text (obj_get es "mimeType") "?" = Val mime ->
  (forall data, obj_get es "data" = Some (JStr data) -> data <> "" ->
     exists k,
       (4096 * k - 2048 <= 3 * Str.length data < 4096 * k + 2048)%Z /\
       formatBlock c (JObj es) w
       = (Val tt, emit [image_line c mime (Str.of_Z k ++ "KB")] w))
  /\
  (obj_get es "data" = None \/ obj_get es "data" = Some (JStr "") ->
   formatBlock c (JObj es) w = (Val tt, emit [image_line c mime "?"] w)).
Proof.
  intros Hty Hmime.
  assert (Hrun : forall data size,
             obj_get es "data" = data -> image_size data = Val size ->
             formatBlock c (JObj es) w = (Val tt, emit [image_line c mime size] w)).
  { intros data size Hdata Hsize.
    unfold formatBlock. cbn [prop]. rewrite Hty, Hdata.
    rewrite !bind_lift_val. cbn [is_str String.eqb Ascii.eqb Bool.eqb].
    rewrite !bind_lift_val. rewrite Hsize, !bind_lift_val, Hmime, bind_lift_val.
    reflexivity. }
  split.
  - intros data Hdata Hne.
    destruct (sizeKB_nearest (Str.length data)) as (k & Hk & Hbounds).
    exists k. split; [exact Hbounds|].
    apply (Hrun _ _ Hdata).
    unfold image_size. cbn [truthy].
    destruct data as [|a data]; [contradiction|]. cbn [String.eqb negb].
    now rewrite Hk.
  - intros [H|H]; apply (Hrun _ _ H); reflexivity.
Qed.

(** The theorem at an image block with four characters of data. *)
Lemma image_block_record_witness :
  exists k,
    (4096 * k - 2048 <= 3 * Str.length "abcd" < 4096 * k + 2048)%Z /\
    formatBlock PLAIN (image_block "image/png" "abcd") (World [] [])
    = (Val tt, emit [image_line PLAIN "image/png" (Str.of_Z k ++ "KB")] (World [] [])).
Proof.
  apply (proj1 (image_block_record PLAIN
                  [("type", JStr "image"); ("mimeType", JStr "image/png");
                   ("data", JStr "abcd")]
                  "image/png" (World [] []) eq_refl eq_refl) "abcd" eq_refl).
  discriminate.
Defined.

(** C9 as stated fails on a short payload: for one character of data the
    ceiling of [1 * 3 / 4 / 1024] is 1, but the record says "0KB"; and the
    empty data string gives "?", not a size. *)
Lemma image_size_is_not_a_ceiling :
  Qceiling (inject_Z (Str.length "a") * 3 / 4 / 1024) = 1%Z
  /\ plains (snd (formatResult "tools/call" (one_block (image_block "image/png" "a")) PLAIN
                    (World [] [])))
     = ["    [image image/png] 0KB"]
  /\ plains (snd (formatResult "tools/call" (one_block (image_block "image/png" "")) PLAIN
                    (World [] [])))
     = ["    [image image/png] ?"].
Proof. repeat split. Qed.

(** ** Responses *)

Lemma Map_delete_absent (m : Map) (k : JSON) :
  Map_get m k = None -> Map_delete m k = m.
Proof.
  induction m as [|[k' p] m IH]; cbn; intros H; [reflexivity|].
  destruct (same_value_zero k' k); [discriminate|].
  now rewrite IH.
Qed.

Lemma bind_pending_get {B} (id : JSON) (k : option PendingRequest -> M B) (w : world) :
  bind (pending_get id) k w = k (Map_get (pendingRequests w) id) w.
Proof. reflexivity. Qed.

Lemma bind_write {B} (a b : string) (k : unit -> M B) (w : world) :
  bind (write a b) k w = k tt (emit [Rec a b] w).
Proof. reflexivity. Qed.

(** An error response whose id has no pending entry, in general: whatever
    the id, the code and the message are, as long as they convert to text
    (a string or a number always does). *)
Lemma error_response_unregistered
    (c : Colors) (tsNow : string) (now : Z) (json : string) (dir : direction) (w : world)
    (es ee : list (string * JSON)) (id : JSON) (ids codeS errS : string) :
  JSON_parse json = Val (JObj es) ->
  obj_get es "id" = Some id ->
  truthy (obj_get es "method") = false ->
  obj_get es "error" = Some (JObj ee) ->
  Map_get (pendingRequests w) id = None ->
  ToString id = Val ids ->
  or_text (obj_get ee "code") "?" = Val codeS ->
  or_text (obj_get ee "message") "Unknown error" = Val errS ->
  format_parsed c tsNow now json dir w
  = (Val tt, emit [error_header c tsNow dir "unknown" (WHITE c) ids "";
                   error_detail_line c codeS errS] w).
Proof.
  intros Hparse Hid Hmethod Herror Hget Hids Hcode Hmsg.
  unfold format_parsed. rewrite Hparse, bind_lift_val.
  cbn [prop]. rewrite Hid, !bind_lift_val, Hmethod.
  unfold format_response. rewrite bind_pending_get, Hget. cbn beta iota.
  change (methodColor (Some (JStr "unknown")) c) with (Val (WHITE c)).
  rewrite bind_lift_val.
  cbn [prop]. rewrite Herror, bind_lift_val. cbn [truthy prop].
  rewrite !bind_lift_val, Hids, bind_lift_val, bind_write.
  rewrite Hcode, bind_lift_val, Hmsg, bind_lift_val, bind_write.
  unfold pending_delete, emit. cbn [written pendingRequests].
  rewrite (Map_delete_absent _ _ Hget), <- app_assoc. reflexivity.
Qed.

(** C8.  An error response (an id, no method, an error object) whose id
    has no pending entry: [formatMessage] writes exactly two records, the
    ERROR header with the method "unknown" and no elapsed-time token, and
    the detail "[<code or '?'>] <message or 'Unknown error'>"; the [try]
    block ends normally, so no exception is raised, and the map is as it
    was. *)
Theorem error_response_without_request
    (c : Colors) (tsNow : string) (now : Z) (json : string) (dir : direction) (w : world)
    (es ee : list (string * JSON)) (id : JSON) (ids codeS errS : string) :
  JSON_parse json = Val (JObj es) ->
  obj_get es "id" = Some id ->
  obj_get es "method" = None ->
  obj_get es "error" = Some (JObj ee) ->
  Map_get (pendingRequests w) id = None ->
  ToString id = Val ids ->
  or_text (obj_get ee "code") "?" = Val codeS ->
  or_text (obj_get ee "message") "Unknown error" = Val errS ->
  format_parsed c tsNow now json dir w
  = (Val tt, emit [error_header c tsNow dir "unknown" (WHITE c) ids "";
                   error_detail_line c codeS errS] w)
  /\ formatMessage c tsNow now json dir w
     = (Val tt, emit [error_header c tsNow dir "unknown" (WHITE c) ids "";
                      error_detail_line c codeS errS] w)
  /\ plain (error_header c tsNow dir "unknown" (WHITE c) ids "")
     = head_plain tsNow dir ++ "  ERROR  (unknown #" ++ ids ++ ")  "
  /\ plain (error_detail_line c codeS errS) = "    [" ++ codeS ++ "] " ++ errS
  /\ pendingRequests (snd (formatMessage c tsNow now json dir w)) = pendingRequests w.
Proof.
  intros Hparse Hid Hmethod Herror Hget Hids Hcode Hmsg.
  assert (Hrun := error_response_unregistered c tsNow now json dir w es ee id ids codeS errS
                    Hparse Hid).
  rewrite Hmethod in Hrun. specialize (Hrun eq_refl Herror Hget Hids Hcode Hmsg).
  assert (Hfm : formatMessage c tsNow now json dir w
                = (Val tt, emit [error_header c tsNow dir "unknown" (WHITE c) ids "";
                                 error_detail_line c codeS errS] w)).
  { unfold formatMessage, try_catch. now rewrite Hrun. }
  repeat split; try assumption.
  now rewrite Hfm.
Qed.

(** The error response of the test suite, on an empty map. *)
Lemma error_response_without_request_witness :
  formatMessage PLAIN "12:00:00.000" 0 line_error server (World [] [])
  = (Val tt,
     World [Rec "12:00:00.000 ← SERVER  ERROR  (unknown #2)  "
                "12:00:00.000 ← SERVER  ERROR  (unknown #2)  ";
            Rec "    [-32600] Invalid request" "    [-32600] Invalid request"] []).
Proof.
  apply (proj1 (proj2 (error_response_without_request PLAIN "12:00:00.000" 0 line_error
                         server (World [] [])
                         [("jsonrpc", JStr "2.0"); ("id", JNum 2);
                          ("error", JObj [("code", JNum (-32600));
                                          ("message", JStr "Invalid request")])]
                         [("code", JNum (-32600)); ("message", JStr "Invalid request")]
                         (JNum 2) "2" "-32600" "Invalid request"
                         eq_refl eq_refl eq_refl eq_refl eq_refl eq_refl eq_refl eq_refl))).
Defined.

(** ** A response whose result cannot be formatted *)

(** C10 fails on a response line.  With a pending [tools/list] request
    for id 1, the response whose [tools] array holds [null] makes
    [formatResult] throw on [t.name]; the [catch] block writes the line
    as a "[raw]" record, [pendingRequests.delete(id)] is never reached,
    and the entry for id 1 is still in the map. *)
Theorem response_that_throws_keeps_entry
    (c : Colors) (tsNow : string) (now t0 : Z) (dir : direction) :
  let w := World [] [(JNum 1, Pending "tools/list" None t0)] in
  let w' := snd (formatMessage c tsNow now line_null_tool dir w) in
  JSON_parse line_null_tool
  = Val (JObj [("jsonrpc", JStr "2.0"); ("id", JNum 1);
               ("result", JObj [("tools", JArr [JNull])])])
  /\ fst (format_parsed c tsNow now line_null_tool dir w) = Abort Thrown
  /\ plains w'
     = [head_plain tsNow dir ++ "  response  tools/list  #1  " ++ Str.of_Z (now - t0) ++ "ms";
        head_plain tsNow dir ++ "  [raw] " ++ line_null_tool]
  /\ pendingRequests w' = pendingRequests w
  /\ Map_get (pendingRequests w') (JNum 1) = Some (Pending "tools/list" None t0).
Proof. repeat split. Qed.

(** ** [colorize]: indentation before error detail *)

Lemma replace_from_space (p : Re.pattern) (pre suf : string) (g : bool)
    (prev : option ascii) (t : string) :
  not_at_space p ->
  Re.replace_from p pre suf g O prev (String " " t)
  = String " " (Re.replace_from p pre suf g O (Some " "%char) t).
Proof. intros H. cbn [Re.replace_from]. now rewrite H. Qed.

Lemma indent_split (s : string) :
  Str.startsWith s "    " = true -> exists r, s = "    " ++ r.
Proof. apply startsWith_split. Qed.

Lemma replace_keeps_indent (p : Re.pattern) (pre suf : string) (g : bool) (s : string) :
  not_at_space p ->
  Str.startsWith s "    " = true ->
  Str.startsWith (Re.replace p pre suf g s) "    " = true.
Proof.
  intros Hp Hs. destruct (indent_split s Hs) as [r ->].
  unfold Re.replace. cbn [append].
  rewrite !replace_from_space by assumption. reflexivity.
Qed.

Lemma lit_not_at_space (l : string) :
  Str.startsWith " " (Str.take 1 l) = false -> not_at_space (Re.lit l).
Proof.
  intros H prev t. unfold Re.lit.
  destruct l as [|a l]; [discriminate|].
  cbn in H |- *. destruct (Ascii.eqb a " "); [discriminate|reflexivity].
Qed.

Lemma startsWith_space_false (l t : string) :
  Str.startsWith " " (Str.take 1 l) = false ->
  Str.startsWith (String " " t) l = false.
Proof.
  intros H. destruct l as [|a l]; [discriminate|].
  cbn in H |- *. destruct (Ascii.eqb a " "); [discriminate|reflexivity].
Qed.

Lemma word_not_at_space (l : string) :
  Str.startsWith " " (Str.take 1 l) = false -> not_at_space (Re.word l).
Proof.
  intros H prev t. unfold Re.word.
  now rewrite (startsWith_space_false l t H), andb_false_r.
Qed.

Lemma word_prefix_not_at_space (l : string) :
  Str.startsWith " " (Str.take 1 l) = false -> not_at_space (Re.word_prefix l).
Proof.
  intros H prev t. unfold Re.word_prefix.
  now rewrite (startsWith_space_false l t H), andb_false_r.
Qed.

Lemma family_not_at_space (l : string) :
  Str.startsWith " " (Str.take 1 l) = false -> not_at_space (Re.family l).
Proof.
  intros H prev t. unfold Re.family.
  now rewrite (startsWith_space_false l t H), andb_false_r.
Qed.

Lemma request_id_not_at_space : not_at_space Re.request_id.
Proof. intros prev t. reflexivity. Qed.

Lemma elapsed_ms_not_at_space : not_at_space Re.elapsed_ms.
Proof. intros prev t. reflexivity. Qed.

Lemma timestamp_not_at_space (t : string) : Re.timestamp_at_start (String " " t) = false.
Proof.
  unfold Re.timestamp_at_start.
  do 11 (destruct t as [|? t]; [reflexivity|]). reflexivity.
Qed.

(** The targeted replacements leave the indentation of a line in place. *)
Lemma highlight_keeps_indent (line : string) :
  Str.startsWith line "    " = true -> Str.startsWith (highlight line) "    " = true.
Proof.
  intros H. unfold highlight.
  destruct (indent_split line H) as [r Hr].
  replace (Re.timestamp_at_start line) with false
    by (rewrite Hr; symmetry; apply timestamp_not_at_space).
  cbv zeta.
  repeat (apply replace_keeps_indent;
          [ first [ apply lit_not_at_space | apply word_not_at_space
                  | apply word_prefix_not_at_space | apply family_not_at_space
                  | apply request_id_not_at_space | apply elapsed_ms_not_at_space ];
            reflexivity
          | ]).
  exact H.
Qed.

(** C6.  A line that begins with four spaces, also when it matches the
    error-detail pattern, comes out of [colorize(line, true)] wrapped whole
    in the dim code around its highlighted text, and not in the red code:
    once dimmed the line begins with an escape character, which the
    error-detail pattern does not accept as white space. *)
Theorem indented_error_detail_is_dimmed (line : string) :
  Str.startsWith line "    " = true ->
  Re.error_detail line = true ->
  colorize line true = ansi "2" ++ highlight line ++ ansi "0"
  /\ Str.startsWith (colorize line true) (ansi "2") = true
  /\ Str.startsWith (colorize line true) (ansi "31") = false
  /\ Re.error_detail (ansi "2" ++ highlight line ++ ansi "0") = false.
Proof.
  intros Hindent _.
  assert (E : colorize line true = ansi "2" ++ highlight line ++ ansi "0").
  { unfold colorize. cbn [negb]. cbv zeta.
    rewrite (highlight_keeps_indent line Hindent). reflexivity. }
  rewrite E. repeat split.
Qed.

(** The error detail line of the formatter: the red test accepts its
    highlighted text, and yet the line comes out dimmed. *)
Lemma indented_error_detail_is_dimmed_witness :
  Re.error_detail (highlight line_error_detail) = true
  /\ colorize line_error_detail true
     = ansi "2" ++ "    [-32601] Method not found" ++ ansi "0".
Proof.
  split; [reflexivity|].
  exact (proj1 (indented_error_detail_is_dimmed line_error_detail eq_refl eq_refl)).
Defined.

(** ** [findLatestLog] *)

Section FindLatestLogProps.
Variable readdirSync : string -> option (list string).
Variable mtimeMs : string -> option Z.
Variable join : string -> string -> string.
Variable dir : string.

Lemma consider_inv (seen : list string) (acc : option string * Z) (entry : string) :
  loop_knows mtimeMs join dir seen acc -> loop_knows mtimeMs join dir (seen ++ [entry]) (consider mtimeMs join dir acc entry).
Proof.
  intros [Hmax Hlatest]. unfold consider.
  destruct (Str.endsWith entry ".log") eqn:Hlog; cbn [negb].
  - destruct (mtimeMs (join dir entry)) as [m|] eqn:Hm.
    + destruct (m >? snd acc)%Z eqn:Hgt.
      * split; cbn [fst snd].
        -- intros e m' Hin He Hm'. apply in_app_or in Hin.
           destruct Hin as [Hin|[<-|[]]].
           ++ specialize (Hmax e m' Hin He Hm'). lia.
           ++ rewrite Hm in Hm'. injection Hm' as <-. lia.
        -- exists entry. repeat split; auto.
           ++ apply in_or_app. right. now left.
           ++ destruct (fst acc); [destruct Hlatest as (e & _ & _ & _ & _ & H)|]; lia.
      * split.
        -- intros e m' Hin He Hm'. apply in_app_or in Hin.
           destruct Hin as [Hin|[<-|[]]].
           ++ eauto.
           ++ rewrite Hm in Hm'. injection Hm' as <-. lia.
        -- destruct (fst acc); [|assumption].
           destruct Hlatest as (e & Hin & H). exists e. split; [|assumption].
           apply in_or_app. now left.
    + split.
      * intros e m' Hin He Hm'. apply in_app_or in Hin.
        destruct Hin as [Hin|[<-|[]]]; [eauto|congruence].
      * destruct (fst acc); [|assumption].
        destruct Hlatest as (e & Hin & H). exists e. split; [|assumption].
        apply in_or_app. now left.
  - split.
    + intros e m' Hin He Hm'. apply in_app_or in Hin.
      destruct Hin as [Hin|[<-|[]]]; [eauto|congruence].
    + destruct (fst acc); [|assumption].
      destruct Hlatest as (e & Hin & H). exists e. split; [|assumption].
      apply in_or_app. now left.
Qed.

Lemma loop_inv (entries seen : list string) (acc : option string * Z) :
  loop_knows mtimeMs join dir seen acc ->
  loop_knows mtimeMs join dir (seen ++ entries) (fold_left (consider mtimeMs join dir) entries acc).
Proof.
  revert seen acc. induction entries as [|e entries IH]; intros seen acc H.
  - now rewrite app_nil_r.
  - cbn [fold_left].
    replace (seen ++ e :: entries)%list with ((seen ++ [e]) ++ entries)%list
      by (now rewrite <- app_assoc).
    apply IH, consider_inv, H.
Qed.

(** X10.  [findLatestLog] in general.  It returns none for a directory that
    cannot be listed; for a listed directory it returns none exactly when
    no entry ending in ".log" has a readable, positive modification time
    (so also for an empty directory and for one with no matching entry);
    and a path it returns is that of an entry ending in ".log" whose
    positive modification time is the greatest of all such entries,
    whatever their names. *)
Lemma latest_log_is_newest :
  (readdirSync dir = None -> findLatestLog readdirSync mtimeMs join dir = None)
  /\
  (forall entries, readdirSync dir = Some entries ->
     (findLatestLog readdirSync mtimeMs join dir = None <->
      forall e m, In e entries -> Str.endsWith e ".log" = true ->
                  mtimeMs (join dir e) = Some m -> (m <= 0)%Z)
     /\
     (forall p, findLatestLog readdirSync mtimeMs join dir = Some p ->
        exists e m,
          In e entries /\ Str.endsWith e ".log" = true /\ p = join dir e
          /\ mtimeMs p = Some m /\ (0 < m)%Z
          /\ forall e' m', In e' entries -> Str.endsWith e' ".log" = true ->
                           mtimeMs (join dir e') = Some m' -> (m' <= m)%Z)).
Proof.
  unfold findLatestLog. split.
  - now intros ->.
  - intros entries ->.
    assert (H0 : loop_knows mtimeMs join dir [] (None, 0%Z)) by (split; [intros ? ? []|reflexivity]).
    pose proof (loop_inv entries [] _ H0) as [Hmax Hlatest].
    cbn [app] in Hmax, Hlatest.
    destruct (fold_left (consider mtimeMs join dir) entries (None, 0%Z)) as [latest m0].
    cbn [fst snd] in *. split.
    + split.
      * intros ->. rewrite Hlatest in Hmax. exact Hmax.
      * intros Hall. destruct latest as [p|]; [|reflexivity].
        destruct Hlatest as (e & Hin & He & -> & Hm & Hpos).
        specialize (Hall e m0 Hin He Hm). lia.
    + intros p ->. destruct Hlatest as (e & Hin & He & -> & Hm & Hpos).
      exists e, m0. repeat split; auto.
Qed.
End FindLatestLogProps.

(** The test of the repository: "zzz" is older, "aaa" is newer, and "aaa"
    wins. *)
Example latest_log_aaa_beats_zzz :
  findLatestLog (listing "/logs" ["zzz-999.log"; "notes.txt"; "aaa-111.log"])
                (mtime_of [("/logs/zzz-999.log", 1000%Z); ("/logs/aaa-111.log", 11000%Z);
                           ("/logs/notes.txt", 99000%Z)])
                join_slash "/logs"
  = Some "/logs/aaa-111.log"
  /\ exists e m,
       In e ["zzz-999.log"; "notes.txt"; "aaa-111.log"]
       /\ Str.endsWith e ".log" = true /\ "/logs/aaa-111.log" = join_slash "/logs" e
       /\ mtime_of [("/logs/zzz-999.log", 1000%Z); ("/logs/aaa-111.log", 11000%Z);
                    ("/logs/notes.txt", 99000%Z)] "/logs/aaa-111.log" = Some m
       /\ (0 < m)%Z
       /\ forall e' m', In e' ["zzz-999.log"; "notes.txt"; "aaa-111.log"] ->
                        Str.endsWith e' ".log" = true ->
                        mtime_of [("/logs/zzz-999.log", 1000%Z);
                                  ("/logs/aaa-111.log", 11000%Z);
                                  ("/logs/notes.txt", 99000%Z)] (join_slash "/logs" e')
                        = Some m' -> (m' <= m)%Z.
Proof.
  split; [reflexivity|].
  exact (proj2 (proj2 (latest_log_is_newest
                         (listing "/logs" ["zzz-999.log"; "notes.txt"; "aaa-111.log"])
                         (mtime_of [("/logs/zzz-999.log", 1000%Z);
                                    ("/logs/aaa-111.log", 11000%Z);
                                    ("/logs/notes.txt", 99000%Z)])
                         join_slash "/logs") _ eq_refl)
               "/logs/aaa-111.log" eq_refl).
Defined.

(** C7 fails on a log file dated at the epoch.  The directory has one
    entry, it ends in ".log" and its modification time, 0, is the greatest
    there is; [findLatestLog] should return its path and returns none,
    because the loop starts from [latestMtime = 0] and only a time strictly
    above it is taken. *)
Theorem epoch_log_is_not_found :
  Str.endsWith "old.log" ".log" = true
  /\ mtime_of [("/logs/old.log", 0%Z)] (join_slash "/logs" "old.log") = Some 0%Z
  /\ findLatestLog (listing "/logs" ["old.log"]) (mtime_of [("/logs/old.log", 0%Z)])
       join_slash "/logs" = None.
Proof. repeat split. Qed.

(** ** Objects *)

Lemma obj_get_replace (es : list (string * JSON)) (k k' : string) (v : JSON) :
  obj_has es k = true ->
  obj_get (obj_replace es k v) k' = if String.eqb k k' then Some v else obj_get es k'.
Proof.
  unfold obj_has. induction es as [|[k0 v0] es IH]; cbn [obj_get obj_replace]; intros H.
  - discriminate.
  - destruct (String.eqb k0 k) eqn:E0.
    + apply String.eqb_eq in E0. subst k0. cbn [obj_get].
      now destruct (String.eqb k k').
    + cbn [obj_get]. rewrite (IH H).
      destruct (String.eqb k0 k') eqn:E1; [|reflexivity].
      apply String.eqb_eq in E1. subst k'.
      rewrite String.eqb_sym, E0. reflexivity.
Qed.

Lemma obj_get_insert_index (es : list (string * JSON)) (n : Z) (k k' : string) (v : JSON) :
  obj_has es k = false ->
  obj_get (obj_insert_index es n k v) k' = if String.eqb k k' then Some v else obj_get es k'.
Proof.
  unfold obj_has. induction es as [|[k0 v0] es IH]; cbn [obj_get obj_insert_index]; intros H.
  - reflexivity.
  - destruct (String.eqb k0 k) eqn:E0; [discriminate|].
    destruct (index_of_key k0) as [n'|]; [destruct (n <? n')%Z|]; cbn [obj_get];
      rewrite ?E0; try reflexivity.
    rewrite (IH H).
    destruct (String.eqb k0 k') eqn:E1; [|reflexivity].
    apply String.eqb_eq in E1. subst k'.
    rewrite String.eqb_sym, E0. reflexivity.
Qed.

Lemma obj_get_app (es : list (string * JSON)) (k k' : string) (v : JSON) :
  obj_has es k = false ->
  obj_get (es ++ [(k, v)]) k' = if String.eqb k k' then Some v else obj_get es k'.
Proof.
  unfold obj_has. induction es as [|[k0 v0] es IH]; cbn [obj_get app]; intros H.
  - reflexivity.
  - destruct (String.eqb k0 k) eqn:E0; [discriminate|].
    rewrite (IH H).
    destruct (String.eqb k0 k') eqn:E1; [|reflexivity].
    apply String.eqb_eq in E1. subst k'.
    rewrite String.eqb_sym, E0. reflexivity.
Qed.

(** [result[k] = v] is a map update. *)
Lemma obj_get_set (es : list (string * JSON)) (k k' : string) (v : JSON) :
  obj_get (obj_set es k v) k' = if String.eqb k k' then Some v else obj_get es k'.
Proof.
  unfold obj_set. destruct (obj_has es k) eqn:H.
  - now apply obj_get_replace.
  - destruct (index_of_key k); [now apply obj_get_insert_index | now apply obj_get_app].
Qed.

Lemma existsb_eqb_get (k : string) (es : list (string * JSON)) :
  existsb (String.eqb k) (map fst es) = false -> obj_get es k = None.
Proof.
  induction es as [|[k0 v0] es IH]; cbn; intros H; [reflexivity|].
  apply orb_false_iff in H. destruct H as [H0 H].
  rewrite String.eqb_sym, H0. auto.
Qed.

(** The loops that rebuild an object entry by entry, skipping some. *)
Lemma obj_get_fold (f : JSON -> JSON) (skip : string -> JSON -> bool)
    (es acc : list (string * JSON)) (k : string) :
  distinct_keys (map fst es) = true ->
  obj_get (fold_left (fun result kv =>
                        if skip (fst kv) (snd kv) then result
                        else obj_set result (fst kv) (f (snd kv))) es acc) k
  = match obj_get es k with
    | Some v => if skip k v then obj_get acc k else Some (f v)
    | None => obj_get acc k
    end.
Proof.
  revert acc. induction es as [|[k0 v0] es IH]; intros acc Hd; cbn [fold_left obj_get].
  - reflexivity.
  - cbn [map distinct_keys fst snd] in Hd |- *. apply andb_true_iff in Hd.
    destruct Hd as [Hnew Hd]. apply negb_true_iff in Hnew.
    rewrite (IH _ Hd).
    destruct (String.eqb k0 k) eqn:E0.
    + apply String.eqb_eq in E0. subst k0.
      rewrite (existsb_eqb_get _ _ Hnew).
      destruct (skip k v0); [reflexivity|].
      now rewrite obj_get_set, String.eqb_refl.
    + destruct (obj_get es k) as [v|]; [destruct (skip k v)|];
        destruct (skip k0 v0); try reflexivity; now rewrite obj_get_set, E0.
Qed.

Lemma well_formed_get (es : list (string * JSON)) (k : string) (v : JSON) :
  well_formed (JObj es) = true -> obj_get es k = Some v -> well_formed v = true.
Proof.
  cbn [well_formed]. intros H. apply andb_true_iff in H. destruct H as [_ H].
  induction es as [|[k0 v0] es IH]; cbn [obj_get]; [discriminate|].
  cbn [forallb snd] in H. apply andb_true_iff in H. destruct H as [H0 H].
  destruct (String.eqb k0 k); [intros E; now injection E as <- | auto].
Qed.

Lemma well_formed_keys (es : list (string * JSON)) :
  well_formed (JObj es) = true -> distinct_keys (map fst es) = true.
Proof. cbn [well_formed]. intros H. now apply andb_true_iff in H. Qed.

Lemma well_formed_nth (xs : list JSON) (i : nat) (v : JSON) :
  well_formed (JArr xs) = true -> nth_error xs i = Some v -> well_formed v = true.
Proof.
  cbn [well_formed]. intros H Hn. apply nth_error_In in Hn.
  rewrite forallb_forall in H. auto.
Qed.

(** ** [removeNoiseFields] *)

Lemma flag_at_key (b : bool) (k : string) (p : list step) :
  flag_at b (Key k :: p) = flag_at false p.
Proof. destruct p; reflexivity. Qed.

Lemma flag_at_idx (b : bool) (i : nat) (p : list step) :
  flag_at b (Idx i :: p) = flag_at true p.
Proof. destruct p; reflexivity. Qed.

Lemma fold_left_ext {A B} (f g : A -> B -> A) (l : list B) (a : A) :
  (forall a x, f a x = g a x) -> fold_left f l a = fold_left g l a.
Proof.
  intros H. revert a. induction l as [|x l IH]; intros a; cbn [fold_left]; [reflexivity|].
  now rewrite H, IH.
Qed.

Lemma removeNoiseFields_obj (es : list (string * JSON)) (b : bool) :
  removeNoiseFields (JObj es) b
  = JObj (fold_left
            (fun result kv =>
               if dropped b (fst kv) (snd kv) then result
               else obj_set result (fst kv) (removeNoiseFields (snd kv) false))
            es []).
Proof.
  cbn [removeNoiseFields]. f_equal. apply fold_left_ext. intros acc kv.
  unfold dropped, obj_assign.
  now destruct (noise_skipped b (fst kv) (snd kv)), (String.eqb (fst kv) "__proto__").
Qed.

(** The entries of the object that [removeNoiseFields] builds. *)
Lemma removeNoiseFields_entries (es : list (string * JSON)) (b : bool) (k : string) :
  distinct_keys (map fst es) = true ->
  exists es', removeNoiseFields (JObj es) b = JObj es'
    /\ obj_get es' k = match obj_get es k with
                       | Some x => if dropped b k x then None
                                   else Some (removeNoiseFields x false)
                       | None => None
                       end.
Proof.
  intros Hd. rewrite removeNoiseFields_obj. eexists. split; [reflexivity|].
  rewrite (obj_get_fold (fun x => removeNoiseFields x false) (dropped b) es [] k Hd).
  destruct (obj_get es k) as [x|]; [destruct (dropped b k x)|]; reflexivity.
Qed.

(** What stands at a position of the output stood at the same position of
    the input, and is its image under the flag of that position. *)
Lemma at_path_removeNoiseFields (p : list step) :
  forall (v : JSON) (b : bool) (o' : JSON),
    well_formed v = true ->
    at_path (removeNoiseFields v b) p = Some o' ->
    exists o, at_path v p = Some o /\ well_formed o = true
              /\ o' = removeNoiseFields o (flag_at b p).
Proof.
  induction p as [|s p IH]; intros v b o' Hwf H.
  - cbn in H. injection H as <-. exists v. auto.
  - destruct s as [k|i].
    + destruct v as [| | | |xs|es]; try discriminate.
      destruct (removeNoiseFields_entries es b k (well_formed_keys es Hwf))
        as (es' & Hes' & Hget).
      rewrite Hes' in H. cbn [at_path] in H |- *. rewrite Hget in H.
      destruct (obj_get es k) as [x|] eqn:Hx; [|discriminate].
      destruct (dropped b k x); [discriminate|].
      destruct (IH x false o' (well_formed_get es k x Hwf Hx) H) as (o & Ho & Hwo & ->).
      exists o. rewrite flag_at_key. auto.
    + destruct v as [| | | |xs|es]; try discriminate.
      cbn [removeNoiseFields at_path] in H |- *.
      rewrite nth_error_map in H.
      destruct (nth_error xs i) as [x|] eqn:Hx; [|discriminate]. cbn [option_map] in H.
      destruct (IH x true o' (well_formed_nth xs i x Hwf Hx) H) as (o & Ho & Hwo & ->).
      exists o. rewrite flag_at_idx. auto.
Qed.


(** ** [truncateArrays] *)

Lemma truncateArrays_obj (es : list (string * JSON)) (m : Z) :
  truncateArrays (JObj es) m
  = JObj (fold_left
            (fun result kv =>
               if String.eqb (fst kv) "__proto__" then result
               else obj_set result (fst kv) (truncateArrays (snd kv) m))
            es []).
Proof. reflexivity. Qed.

Lemma truncateArrays_arr (xs : list JSON) (m : Z) :
  truncateArrays (JArr xs) m
  = let len := List.length xs in
    let truncated := slice_map (fun item => truncateArrays item m) (slice_count len m) xs in
    if (Z.of_nat len >? m)%Z
    then JArr (truncated ++ [more_marker (Z.of_nat len - m)])
    else JArr truncated.
Proof. reflexivity. Qed.

Lemma slice_map_length {A B} (f : A -> B) (n : nat) (xs : list A) :
  List.length (slice_map f n xs) = Nat.min n (List.length xs).
Proof.
  revert n. induction xs as [|x xs IH]; intros [|n]; cbn; auto.
Qed.

Lemma slice_map_nth {A B} (f : A -> B) (n : nat) (xs : list A) (i : nat) (z : B) :
  nth_error (slice_map f n xs) i = Some z ->
  exists x, nth_error xs i = Some x /\ z = f x.
Proof.
  revert n i. induction xs as [|x xs IH]; intros [|n] [|i]; cbn; try discriminate.
  - intros H. injection H as <-. eauto.
  - apply IH.
Qed.

Lemma nth_error_snoc {A} (a : list A) (x z : A) (i : nat) :
  nth_error (a ++ [x]) i = Some z -> nth_error a i = Some z \/ z = x.
Proof.
  intros H. destruct (Nat.lt_ge_cases i (List.length a)) as [Hlt|Hge].
  - left. now rewrite nth_error_app1 in H.
  - right. rewrite nth_error_app2 in H by assumption.
    destruct (i - List.length a)%nat as [|j]; cbn in H.
    + now injection H.
    + now destruct j.
Qed.

Lemma truncateArrays_entries (es : list (string * JSON)) (m : Z) (k : string) :
  distinct_keys (map fst es) = true ->
  exists es', truncateArrays (JObj es) m = JObj es'
    /\ obj_get es' k = if String.eqb k "__proto__" then None
                       else option_map (fun x => truncateArrays x m) (obj_get es k).
Proof.
  intros Hd. rewrite truncateArrays_obj. eexists. split; [reflexivity|].
  rewrite (obj_get_fold (fun x => truncateArrays x m)
             (fun key _ => String.eqb key "__proto__") es [] k Hd).
  destruct (obj_get es k); destruct (String.eqb k "__proto__"); reflexivity.
Qed.

(** An array of the output stands where an array of the input stood, and
    is its truncation. *)
Lemma at_path_truncateArrays (m : Z) (p : list step) :
  forall (v : JSON) (ys : list JSON),
    well_formed v = true ->
    at_path (truncateArrays v m) p = Some (JArr ys) ->
    exists xs, at_path v p = Some (JArr xs) /\ truncateArrays (JArr xs) m = JArr ys.
Proof.
  induction p as [|s p IH]; intros v ys Hwf H.
  - cbn [at_path] in H |- *. injection H as H.
    destruct v as [| | | |xs|es]; try discriminate. eauto.
  - destruct s as [k|i].
    + destruct v as [| | | |xs|es]; try discriminate.
      * rewrite truncateArrays_arr in H. cbv zeta in H.
        destruct (Z.of_nat (List.length xs) >? m)%Z; discriminate.
      * destruct (truncateArrays_entries es m k (well_formed_keys es Hwf))
          as (es' & Hes' & Hget).
        rewrite Hes' in H. cbn [at_path] in H |- *. rewrite Hget in H.
        destruct (String.eqb k "__proto__"); [discriminate|].
        destruct (obj_get es k) as [x|] eqn:Hx; [|discriminate]. cbn [option_map] in H.
        exact (IH x ys (well_formed_get es k x Hwf Hx) H).
    + destruct v as [| | | |xs|es]; try discriminate.
      rewrite truncateArrays_arr in H. cbv zeta in H. cbn [at_path].
      assert (Hz : forall z, nth_error (slice_map (fun item => truncateArrays item m)
                                          (slice_count (List.length xs) m) xs) i = Some z ->
                             at_path z p = Some (JArr ys) ->
                             exists xs0, match nth_error xs i with
                                         | Some v' => at_path v' p
                                         | None => None
                                         end = Some (JArr xs0)
                                         /\ truncateArrays (JArr xs0) m = JArr ys).
      { intros z Hn Hp. destruct (slice_map_nth _ _ _ _ _ Hn) as (x & Hx & ->).
        rewrite Hx. exact (IH x ys (well_formed_nth xs i x Hwf Hx) Hp). }
      destruct (Z.of_nat (List.length xs) >? m)%Z; cbn [at_path] in H.
      * destruct (nth_error (_ ++ _) i) as [z|] eqn:Hn; [|discriminate].
        apply nth_error_snoc in Hn. destruct Hn as [Hn| ->]; [eauto|].
        destruct p as [|[?|?] ?]; discriminate.
      * destruct (nth_error _ i) as [z|] eqn:Hn; [|discriminate]. eauto.
Qed.

(** C5, as the program has it.  For a [maxItems] that is not negative, no
    array of the output of [truncateArrays], at any position, has more than
    [maxItems + 1] elements; the array stands where an array of the input
    stood, unchanged in length when that one had at most [maxItems]
    elements, and otherwise made of [maxItems] elements and the marker
    "... +N more" with [N] the original length minus [maxItems]. *)
Theorem truncated_arrays_are_short
    (v : JSON) (maxItems : Z) (p : list step) (ys : list JSON) :
  well_formed v = true ->
  (0 <= maxItems)%Z ->
  at_path (truncateArrays v maxItems) p = Some (JArr ys) ->
  (Z.of_nat (List.length ys) <= maxItems + 1)%Z
  /\ exists xs,
       at_path v p = Some (JArr xs)
       /\ ((Z.of_nat (List.length xs) <= maxItems)%Z -> List.length ys = List.length xs)
       /\ ((Z.of_nat (List.length xs) > maxItems)%Z ->
           exists kept,
             ys = (kept ++ [more_marker (Z.of_nat (List.length xs) - maxItems)])%list
             /\ Z.of_nat (List.length kept) = maxItems).
Proof.
  intros Hwf Hm H.
  destruct (at_path_truncateArrays maxItems p v ys Hwf H) as (xs & Hxs & Ht).
  rewrite truncateArrays_arr in Ht. cbv zeta in Ht.
  set (kept := slice_map (fun item => truncateArrays item maxItems)
                 (slice_count (List.length xs) maxItems) xs) in Ht.
  assert (Hlen : List.length kept = Nat.min (Z.to_nat maxItems) (List.length xs)).
  { subst kept. rewrite slice_map_length. unfold slice_count.
    destruct (0 <=? maxItems)%Z eqn:E; [reflexivity|]. apply Z.leb_gt in E. lia. }
  destruct (Z.of_nat (List.length xs) >? maxItems)%Z eqn:Hgt.
  - apply Z.gtb_lt in Hgt. injection Ht as <-. split.
    + rewrite length_app. cbn [List.length]. lia.
    + exists xs. split; [exact Hxs|]. split; [lia|].
      intros _. exists kept. split; [reflexivity|]. lia.
  - assert (Hle : (Z.of_nat (List.length xs) <= maxItems)%Z).
    { destruct (Z.gtb_spec (Z.of_nat (List.length xs)) maxItems); [discriminate|lia]. }
    injection Ht as <-. split; [lia|].
    exists xs. split; [exact Hxs|]. split; [lia|lia].
Qed.

(** The example of the specification: [truncateArrays([1,2,3,4,5], 2)] is
    [[1, 2, "... +3 more"]]. *)
Lemma truncated_arrays_are_short_witness :
  truncateArrays (JArr [JNum 1; JNum 2; JNum 3; JNum 4; JNum 5]) 2
  = JArr [JNum 1; JNum 2; JStr "... +3 more"]
  /\ (Z.of_nat (List.length [JNum 1; JNum 2; JStr "... +3 more"]) <= 2 + 1)%Z.
Proof.
  split; [reflexivity|].
  exact (proj1 (truncated_arrays_are_short
                  (JArr [JNum 1; JNum 2; JNum 3; JNum 4; JNum 5]) 2 []
                  [JNum 1; JNum 2; JStr "... +3 more"] eq_refl ltac:(lia) eq_refl)).
Defined.

(** C5 as stated fails on a negative [maxItems]: [slice(0, -1)] drops the
    last element only, the marker is appended, and the array of three
    elements comes back with three elements, more than [maxItems + 1 = 0]. *)
Lemma negative_maxItems_keeps_elements :
  truncateArrays (JArr [JNum 1; JNum 2; JNum 3]) (-1)
  = JArr [JNum 1; JNum 2; JStr "... +4 more"]
  /\ (Z.of_nat (List.length [JNum 1; JNum 2; JStr "... +4 more"]) > -1 + 1)%Z.
Proof. split; [reflexivity|]. cbn. lia. Qed.

(** ** What [JSON.parse] returns has no repeated key *)

Lemma distinct_keys_NoDup (ks : list string) : distinct_keys ks = true <-> NoDup ks.
Proof.
  induction ks as [|k ks IH]; cbn [distinct_keys].
  - split; [constructor|reflexivity].
  - rewrite andb_true_iff, negb_true_iff, IH. split.
    + intros [Hk Hd]. constructor; [|assumption].
      intros Hin. assert (E : existsb (String.eqb k) ks = true).
      { apply existsb_exists. exists k. split; [assumption|apply String.eqb_refl]. }
      congruence.
    + intros H. inversion H as [|? ? Hk Hd]; subst. split; [|assumption].
      destruct (existsb (String.eqb k) ks) eqn:E; [|reflexivity].
      apply existsb_exists in E. destruct E as (x & Hin & Hx).
      apply String.eqb_eq in Hx. subst x. contradiction.
Qed.

Lemma obj_get_None_keys (es : list (string * JSON)) (k : string) :
  obj_get es k = None -> ~ In k (map fst es).
Proof.
  induction es as [|[k0 v0] es IH]; cbn [obj_get map fst]; intros H [].
  - subst k0. now rewrite String.eqb_refl in H.
  - destruct (String.eqb k0 k); [discriminate|]. now apply IH.
Qed.

Lemma obj_replace_keys (es : list (string * JSON)) (k : string) (v : JSON) :
  map fst (obj_replace es k v) = map fst es.
Proof.
  induction es as [|[k0 v0] es IH]; cbn [obj_replace map fst]; [reflexivity|].
  destruct (String.eqb k0 k); cbn [map fst]; congruence.
Qed.

Lemma obj_replace_In (es : list (string * JSON)) (k : string) (v : JSON) (kv : string * JSON) :
  In kv (obj_replace es k v) -> snd kv = v \/ In kv es.
Proof.
  induction es as [|[k0 v0] es IH]; cbn [obj_replace]; [intros []|].
  destruct (String.eqb k0 k); cbn [In].
  - intros [<-|H]; [now left | right; now right].
  - intros [<-|H]; [right; now left|]. destruct (IH H); [now left | right; now right].
Qed.

Lemma obj_insert_index_In (es : list (string * JSON)) (n : Z) (k : string) (v : JSON)
    (kv : string * JSON) :
  In kv (obj_insert_index es n k v) <-> kv = (k, v) \/ In kv es.
Proof.
  induction es as [|[k0 v0] es IH]; cbn [obj_insert_index].
  - cbn. intuition congruence.
  - destruct (index_of_key k0) as [n'|]; [destruct (n <? n')%Z|]; cbn [In];
      rewrite ?IH; intuition congruence.
Qed.

Lemma obj_insert_index_keys (es : list (string * JSON)) (n : Z) (k : string) (v : JSON) :
  ~ In k (map fst es) -> NoDup (map fst es) ->
  NoDup (map fst (obj_insert_index es n k v)).
Proof.
  induction es as [|[k0 v0] es IH]; cbn [obj_insert_index map fst]; intros Hk Hd.
  - constructor; [intros []|constructor].
  - inversion Hd as [|? ? Hk0 Hd']; subst.
    assert (Hhere : NoDup (k :: k0 :: map fst es)) by (constructor; assumption).
    destruct (index_of_key k0) as [n'|]; [destruct (n <? n')%Z|]; cbn [map fst];
      try exact Hhere.
    constructor.
    + intros Hin. apply in_map_iff in Hin. destruct Hin as ([k1 v1] & E & Hin).
      cbn in E. subst k1. apply obj_insert_index_In in Hin.
      destruct Hin as [Hin|Hin].
      * injection Hin as -> _. apply Hk. now left.
      * apply Hk0. apply in_map_iff. now exists (k0, v1).
    + apply IH; [|assumption]. intros Hin. apply Hk. now right.
Qed.

Lemma obj_set_keys (es : list (string * JSON)) (k : string) (v : JSON) :
  distinct_keys (map fst es) = true -> distinct_keys (map fst (obj_set es k v)) = true.
Proof.
  rewrite !distinct_keys_NoDup. intros Hd. unfold obj_set, obj_has.
  destruct (obj_get es k) as [x|] eqn:Hget.
  - now rewrite obj_replace_keys.
  - pose proof (obj_get_None_keys es k Hget) as Hk.
    destruct (index_of_key k) as [n|].
    + now apply obj_insert_index_keys.
    + rewrite map_app. cbn [map fst]. apply NoDup_app.
      * assumption.
      * constructor; [intros []|constructor].
      * intros x Hx [<-|[]]. contradiction.
Qed.

Lemma obj_set_values (P : JSON -> bool) (es : list (string * JSON)) (k : string) (v : JSON) :
  forallb (fun kv => P (snd kv)) es = true -> P v = true ->
  forallb (fun kv => P (snd kv)) (obj_set es k v) = true.
Proof.
  rewrite !forallb_forall. intros Hes Hv kv Hin.
  unfold obj_set in Hin. destruct (obj_has es k).
  - apply obj_replace_In in Hin. destruct Hin as [->|Hin]; auto.
  - destruct (index_of_key k) as [n|].
    + apply obj_insert_index_In in Hin. destruct Hin as [->|Hin]; auto.
    + apply in_app_or in Hin. destruct Hin as [Hin|[<-|[]]]; auto.
Qed.

Lemma obj_set_well_formed (es : list (string * JSON)) (k : string) (v : JSON) :
  well_formed (JObj es) = true -> well_formed v = true ->
  well_formed (JObj (obj_set es k v)) = true.
Proof.
  cbn [well_formed]. rewrite !andb_true_iff. intros [Hd Hv] Hwf. split.
  - now apply obj_set_keys.
  - now apply obj_set_values.
Qed.

Section ParseWellFormed.
Variable pv : string -> parsed JSON.
Hypothesis pv_wf : forall s v r, pv s = Parsed v r -> well_formed v = true.

Lemma parse_elements_wf (fuel : nat) :
  forall s vs r, parse_elements pv fuel s = Parsed vs r -> forallb well_formed vs = true.
Proof.
  induction fuel as [|f IH]; intros s vs r; cbn [parse_elements]; [discriminate|].
  destruct (pv s) as [v r0| |] eqn:Hv; try discriminate.
  destruct (skip_ws r0) as [|c r1]; [discriminate|].
  destruct (Ascii.eqb c ",").
  - destruct (parse_elements pv f r1) as [vs' r2| |] eqn:Hrest; try discriminate.
    intros H. injection H as <- <-. cbn [forallb].
    now rewrite (pv_wf _ _ _ Hv), (IH _ _ _ Hrest).
  - destruct (Ascii.eqb c "]"); [|discriminate].
    intros H. injection H as <- <-. cbn [forallb].
    now rewrite (pv_wf _ _ _ Hv).
Qed.

Lemma parse_members_wf (fuel : nat) :
  forall acc s es r,
    well_formed (JObj acc) = true ->
    parse_members pv fuel acc s = Parsed es r -> well_formed (JObj es) = true.
Proof.
  induction fuel as [|f IH]; intros acc s es r Hacc; cbn [parse_members]; [discriminate|].
  destruct (skip_ws s) as [|q0 s1]; [discriminate|].
  destruct (Ascii.eqb q0 DQ); [|discriminate].
  destruct (parse_chars s1) as [k s2| |]; try discriminate.
  destruct (skip_ws s2) as [|c s3]; [discriminate|].
  destruct (Ascii.eqb c ":"); [|discriminate].
  destruct (pv s3) as [v r0| |] eqn:Hv; try discriminate.
  pose proof (obj_set_well_formed acc k v Hacc (pv_wf _ _ _ Hv)) as Hacc'.
  destruct (skip_ws r0) as [|d r1]; [discriminate|].
  destruct (Ascii.eqb d ",").
  - apply IH. exact Hacc'.
  - destruct (Ascii.eqb d "}"); [|discriminate].
    intros H. injection H as <- <-. exact Hacc'.
Qed.
End ParseWellFormed.

Lemma parse_value_wf (fuel : nat) :
  forall s v r, parse_value fuel s = Parsed v r -> well_formed v = true.
Proof.
  induction fuel as [|f IH]; intros s v r; cbn [parse_value]; [discriminate|].
  destruct (skip_ws s) as [|c t]; [discriminate|].
  unfold parse_literal.
  destruct (Ascii.eqb c "n").
  { destruct (expect _ _); [|discriminate]. intros H. now injection H as <- <-. }
  destruct (Ascii.eqb c "t").
  { destruct (expect _ _); [|discriminate]. intros H. now injection H as <- <-. }
  destruct (Ascii.eqb c "f").
  { destruct (expect _ _); [|discriminate]. intros H. now injection H as <- <-. }
  destruct (Ascii.eqb c DQ).
  { destruct (parse_chars t); try discriminate. intros H. now injection H as <- <-. }
  destruct (Ascii.eqb c "[").
  { assert (Hgen : match parse_elements (parse_value f) f t with
                   | Parsed vs r0 => Parsed (JArr vs) r0
                   | SyntaxError => SyntaxError
                   | Unsupported => Unsupported
                   end = Parsed v r -> well_formed v = true).
    { destruct (parse_elements (parse_value f) f t) as [vs r0| |] eqn:He; try discriminate.
      intros H. injection H as <- <-. cbn [well_formed].
      exact (parse_elements_wf (parse_value f) IH f _ _ _ He). }
    destruct (skip_ws t) as [|c1 t1]; [exact Hgen|].
    destruct c1 as [[] [] [] [] [] [] [] []]; try exact Hgen.
    intros H. now injection H as <- <-. }
  destruct (Ascii.eqb c "{").
  { assert (Hgen : match parse_members (parse_value f) f [] t with
                   | Parsed es r0 => Parsed (JObj es) r0
                   | SyntaxError => SyntaxError
                   | Unsupported => Unsupported
                   end = Parsed v r -> well_formed v = true).
    { destruct (parse_members (parse_value f) f [] t) as [es r0| |] eqn:He; try discriminate.
      intros H. injection H as <- <-.
      exact (parse_members_wf (parse_value f) IH f [] _ _ _ eq_refl He). }
    destruct (skip_ws t) as [|c1 t1]; [exact Hgen|].
    destruct c1 as [[] [] [] [] [] [] [] []]; try exact Hgen.
    intros H. now injection H as <- <-. }
  destruct (parse_number (String c t)); try discriminate.
  intros H. now injection H as <- <-.
Qed.

(** Every value that [JSON.parse] returns is well formed. *)
Lemma JSON_parse_well_formed (text : string) (v : JSON) :
  JSON_parse text = Val v -> well_formed v = true.
Proof.
  unfold JSON_parse.
  destruct (parse_value (S (String.length text)) text) as [v0 r| |] eqn:H; try discriminate.
  destruct (skip_ws r); [|discriminate].
  intros E. injection E as <-. exact (parse_value_wf _ _ _ _ H).
Qed.

(** ** Which lines change the pending requests *)

Lemma keeps_ret {A} (a : A) : keeps_pending (ret a).
Proof. intros w. reflexivity. Qed.

Lemma keeps_lift {A} (o : outcome A) : keeps_pending (lift o).
Proof. intros w. reflexivity. Qed.

Lemma keeps_write (a b : string) : keeps_pending (write a b).
Proof. intros w. reflexivity. Qed.

Lemma keeps_pending_get (k : JSON) : keeps_pending (pending_get k).
Proof. intros w. reflexivity. Qed.

Lemma keeps_bind {A B} (m : M A) (k : A -> M B) :
  keeps_pending m -> (forall a, keeps_pending (k a)) -> keeps_pending (bind m k).
Proof.
  intros Hm Hk w. unfold bind. specialize (Hm w).
  destruct (m w) as [[a|e] w']; cbn [snd] in *; [|exact Hm].
  now rewrite Hk.
Qed.

Lemma keeps_forM {A} (xs : list A) (body : A -> M unit) :
  (forall x, keeps_pending (body x)) -> keeps_pending (forM xs body).
Proof.
  intros H. induction xs as [|x xs IH]; cbn [forM].
  - apply keeps_ret.
  - apply keeps_bind; auto.
Qed.

Lemma keeps_try_catch (body handler : M unit) :
  keeps_pending body -> keeps_pending handler -> keeps_pending (try_catch body handler).
Proof.
  intros Hb Hh w. unfold try_catch. specialize (Hb w).
  destruct (body w) as [[[]|[|]] w']; cbn [snd] in *; try exact Hb.
  now rewrite Hh.
Qed.

(** Breaks a computation down to the writes it is made of. *)
Ltac keeps :=
  lazymatch goal with
  | |- keeps_pending (bind _ _) => apply keeps_bind; [keeps | intros; keeps]
  | |- keeps_pending (lift _) => apply keeps_lift
  | |- keeps_pending (ret _) => apply keeps_ret
  | |- keeps_pending (write _ _) => apply keeps_write
  | |- keeps_pending (pending_get _) => apply keeps_pending_get
  | |- keeps_pending (forM _ _) => apply keeps_forM; intros; keeps
  | |- keeps_pending (if ?b then _ else _) => destruct b; keeps
  | |- keeps_pending (match ?x with _ => _ end) => destruct x; keeps
  | |- keeps_pending (write_summary _ _ _ _ _) => unfold write_summary; keeps
  | |- keeps_pending (write_params _ _) => unfold write_params; keeps
  | |- _ => fail "not a computation made of writes"
  end.

Lemma formatBlock_keeps (c : Colors) (block : JSON) : keeps_pending (formatBlock c block).
Proof. unfold formatBlock. keeps. Qed.

Lemma formatResult_keeps (method : string) (result : jsval) (c : Colors) :
  keeps_pending (formatResult method result c).
Proof.
  unfold formatResult, list_of.
  repeat first
    [ apply keeps_ret | apply keeps_lift | apply keeps_write
    | apply keeps_forM; intros; apply formatBlock_keeps
    | apply keeps_bind; [|intros]
    | progress unfold write_summary
    | match goal with
      | |- keeps_pending (if ?b then _ else _) => destruct b
      | |- keeps_pending (match ?x with _ => _ end) => destruct x
      end ].
Qed.

Lemma try_catch_pending (body handler : M unit) (w : world) :
  keeps_pending handler ->
  pendingRequests (snd (try_catch body handler w)) = pendingRequests (snd (body w)).
Proof.
  intros Hh. unfold try_catch.
  destruct (body w) as [[[]|[|]] w']; cbn [snd]; try reflexivity. apply Hh.
Qed.

Lemma format_raw_keeps (c : Colors) (tsNow json : string) (dir : direction) :
  keeps_pending (format_raw c tsNow json dir).
Proof. unfold format_raw. keeps. Qed.

Lemma format_notification_keeps (c : Colors) (tsNow : string) (dir : direction)
    (msg : JSON) (method : jsval) :
  keeps_pending (format_notification c tsNow dir msg method).
Proof. unfold format_notification. keeps. Qed.

(** After [pendingRequests.set], nothing touches the map again. *)
Lemma format_request_sets (c : Colors) (tsNow : string) (now : Z) (dir : direction)
    (es : list (string * JSON)) (m : string) (id : JSON) (w : world) :
  truthy (Some (JStr m)) = true ->
  exists tool,
    pendingRequests (snd (format_request c tsNow now dir (JObj es) (Some (JStr m)) id w))
    = Map_set (pendingRequests w) id (Pending m tool now).
Proof.
  intros Hm. eexists. unfold format_request.
  unfold methodColor. rewrite Hm. cbn [negb].
  match goal with
  | |- context [lift (if ?a then ?x else ?y)] =>
      assert (E : exists col, (if a then x else y) = Val col)
  end.
  { repeat match goal with
           | |- exists _, (if ?b then _ else _) = _ => destruct b
           end; eexists; reflexivity. }
  destruct E as [col ->].
  rewrite bind_lift_val. cbn [template ToString prop]. rewrite !bind_lift_val.
  match goal with
  | |- pendingRequests (snd (bind (pending_set ?k ?p) ?rest w)) = _ =>
      change (bind (pending_set k p) rest w)
        with (rest tt (World (written w) (Map_set (pendingRequests w) k p)));
      assert (Hk : keeps_pending (rest tt))
  end.
  { cbv beta. keeps. }
  rewrite Hk. reflexivity.
Qed.

Lemma format_request_throws (c : Colors) (tsNow : string) (now : Z) (dir : direction)
    (msg : JSON) (method : jsval) (id : JSON) (w : world) :
  truthy method = true -> (forall m, method <> Some (JStr m)) ->
  pendingRequests (snd (format_request c tsNow now dir msg method id w)) = pendingRequests w.
Proof.
  intros Ht Hm. unfold format_request, methodColor. rewrite Ht. cbn [negb].
  destruct method as [[| | |m| |]|]; try reflexivity. now destruct (Hm m).
Qed.

Lemma deletes_bind {A} (id : JSON) (m : M A) (k : A -> M unit) :
  keeps_pending m -> (forall a, deletes_on_return id (k a)) ->
  deletes_on_return id (bind m k).
Proof.
  intros Hm Hk w. unfold bind. specialize (Hm w).
  destruct (m w) as [[a|e] w']; cbn [fst snd] in *.
  - rewrite <- Hm. apply Hk.
  - right. split; [discriminate|exact Hm].
Qed.

Lemma deletes_delete (id : JSON) : deletes_on_return id (pending_delete id).
Proof. intros w. left. split; reflexivity. Qed.

(** A response deletes the entry when its formatting returns, and leaves
    the map as it is when its formatting throws. *)
Lemma format_response_deletes (c : Colors) (tsNow : string) (now : Z) (dir : direction)
    (msg : JSON) (id : JSON) :
  deletes_on_return id (format_response c tsNow now dir msg id).
Proof.
  unfold format_response.
  repeat first
    [ apply deletes_delete
    | apply deletes_bind;
      [ first [ apply formatResult_keeps | keeps ] | intros ]
    | match goal with
      | |- deletes_on_return _ (if ?b then _ else _) => destruct b
      end ].
Qed.

(** X9.  What [formatMessage] does to the pending requests, for every line
    that [JSON.parse] reads within the model.  A line that is not JSON, or
    not JSON for an object, a notification (method, no id) and an object
    with neither method nor id leave the map as it is.  A request (method
    and id) sets the entry of its id, whatever its formatting does
    afterwards; when the method is not a string the [try] block throws
    before there is a request to register, and the map stays as it is.  A
    response (id, no method) deletes the entry of its id when the [try]
    block returns, and leaves the map as it is when the block throws.
    Nothing is said of a run that leaves the model. *)
Lemma pending_requests_effects
    (c : Colors) (tsNow : string) (now : Z) (json : string) (dir : direction) (w : world) :
  let w' := snd (formatMessage c tsNow now json dir w) in
  match JSON_parse json with
  | Abort Unmodelled => True
  | Val (JObj es) =>
      match truthy (obj_get es "method"), obj_get es "id" with
      | true, Some id =>
          match obj_get es "method" with
          | Some (JStr m) =>
              exists tool,
                pendingRequests w' = Map_set (pendingRequests w) id (Pending m tool now)
          | _ =>
              fst (format_parsed c tsNow now json dir w) = Abort Thrown
              /\ pendingRequests w' = pendingRequests w
          end
      | false, Some id =>
          match fst (format_parsed c tsNow now json dir w) with
          | Val _ => pendingRequests w' = Map_delete (pendingRequests w) id
          | Abort Thrown => pendingRequests w' = pendingRequests w
          | Abort Unmodelled => True
          end
      | _, None => pendingRequests w' = pendingRequests w
      end
  | _ => pendingRequests w' = pendingRequests w
  end.
Proof.
  cbv zeta. unfold formatMessage.
  rewrite (try_catch_pending _ _ w (format_raw_keeps c tsNow json dir)).
  destruct (JSON_parse json) as [[| | | | |es]|[|]] eqn:Hparse;
    try (unfold format_parsed; rewrite Hparse; reflexivity); [|exact I].
  destruct (truthy (obj_get es "method")) eqn:Ht; destruct (obj_get es "id") as [id|] eqn:Hid.
  - assert (E : format_parsed c tsNow now json dir w
                = format_request c tsNow now dir (JObj es) (obj_get es "method") id w).
    { unfold format_parsed. rewrite Hparse, bind_lift_val. cbn [prop].
      now rewrite Hid, !bind_lift_val, Ht. }
    rewrite E.
    destruct (obj_get es "method") as [[| | |m| |]|] eqn:Hm;
      try (split; [ unfold format_request, methodColor; rewrite Ht; reflexivity
                  | apply format_request_throws; [exact Ht | intros m0; discriminate] ]).
    apply format_request_sets. exact Ht.
  - unfold format_parsed. rewrite Hparse, bind_lift_val. cbn [prop].
    rewrite Hid, !bind_lift_val, Ht. apply format_notification_keeps.
  - assert (E : format_parsed c tsNow now json dir w
                = format_response c tsNow now dir (JObj es) id w).
    { unfold format_parsed. rewrite Hparse, bind_lift_val. cbn [prop].
      now rewrite Hid, !bind_lift_val, Ht. }
    rewrite E.
    destruct (format_response_deletes c tsNow now dir (JObj es) id w) as [[Hv Hd]|[Hv Hd]].
    + now rewrite Hv.
    + destruct (fst (format_response c tsNow now dir (JObj es) id w)) as [[]|[|]];
        [now destruct Hv|exact Hd|exact I].
  - unfold format_parsed. rewrite Hparse, bind_lift_val. cbn [prop].
    rewrite Hid, !bind_lift_val, Ht. reflexivity.
Qed.

(** * The tests of the repository, on the model *)

(** ** utils.test.ts *)

Example truncate_short : truncate "hello" 200 = "hello".
Proof. reflexivity. Qed.

Example truncate_long :
  Str.length (truncate (repeat_str "a" 300) 200) = 200%Z
  /\ Str.endsWith (truncate (repeat_str "a" 300) 200) "..." = true.
Proof. split; reflexivity. Qed.

Example truncate_exact : truncate (repeat_str "b" 200) 200 = repeat_str "b" 200.
Proof. reflexivity. Qed.

(** ** result-formatter.test.ts *)

Example truncateArrays_non_arrays :
  truncateArrays (JStr "hello") 3 = JStr "hello"
  /\ truncateArrays (JNum 42) 3 = JNum 42
  /\ truncateArrays JNull 3 = JNull.
Proof. repeat split. Qed.

Example truncateArrays_small : truncateArrays (nums [1; 2; 3]%Z) 3 = nums [1; 2; 3]%Z.
Proof. reflexivity. Qed.

Example truncateArrays_large :
  truncateArrays (nums [1; 2; 3; 4; 5]%Z) 3
  = JArr [JNum 1; JNum 2; JNum 3; JStr "... +2 more"].
Proof. reflexivity. Qed.

Example truncateArrays_nested :
  truncateArrays (JObj [("items", nums [1; 2; 3; 4; 5]%Z)]) 3
  = JObj [("items", JArr [JNum 1; JNum 2; JNum 3; JStr "... +2 more"])].
Proof. reflexivity. Qed.

Example truncateArrays_objects_in_arrays :
  truncateArrays (JArr [JObj [("nested", nums [1; 2; 3; 4; 5]%Z)];
                        JObj [("nested", nums [10; 20]%Z)];
                        JObj [("nested", nums [100]%Z)];
                        JObj [("nested", nums [1000]%Z)]]) 3
  = JArr [JObj [("nested", JArr [JNum 1; JNum 2; JNum 3; JStr "... +2 more"])];
          JObj [("nested", nums [10; 20]%Z)];
          JObj [("nested", nums [100]%Z)];
          JStr "... +1 more"].
Proof. reflexivity. Qed.

Example truncateStringValues_long :
  exists s, truncateStringValues (JStr (repeat_str "a" 150)) 100 = JStr s
            /\ Str.length s = 100%Z /\ Str.endsWith s "..." = true.
Proof. eexists. repeat split. Qed.

Example truncateStringValues_non_strings :
  truncateStringValues (JNum 42) 100 = JNum 42
  /\ truncateStringValues JNull 100 = JNull
  /\ truncateStringValues (JBool true) 100 = JBool true.
Proof. repeat split. Qed.

Example removeNoiseFields_top_level :
  removeNoiseFields (JObj [("id", JStr "123"); ("name", JStr "test");
                           ("timestamp", JStr "2024-01-01")]) false
  = JObj [("id", JStr "123"); ("name", JStr "test"); ("timestamp", JStr "2024-01-01")].
Proof. reflexivity. Qed.

Example removeNoiseFields_array_items :
  removeNoiseFields
    (JArr [JObj [("id", JStr "1"); ("name", JStr "first"); ("timestamp", JStr "2024-01-01")];
           JObj [("id", JStr "2"); ("name", JStr "second"); ("timestamp", JStr "2024-01-02")]])
    false
  = JArr [JObj [("name", JStr "first")]; JObj [("name", JStr "second")]].
Proof. reflexivity. Qed.

Example removeNoiseFields_graphql :
  removeNoiseFields (JArr [JObj [("name", JStr "req"); ("graphql", JObj [])]]) false
  = JArr [JObj [("name", JStr "req")]]
  /\ removeNoiseFields
       (JArr [JObj [("name", JStr "req");
                    ("graphql", JObj [("query", JStr "{ users }")])]]) false
     = JArr [JObj [("name", JStr "req"); ("graphql", JObj [("query", JStr "{ users }")])]].
Proof. split; reflexivity. Qed.

Example tryFormatJson_object :
  tryFormatJson ("{" ++ jq "a" ++ ":1}")
  = Val (Some ("{" ++ NL ++ "  " ++ jq "a" ++ ": 1" ++ NL ++ "}")).
Proof. reflexivity. Qed.

Example tryFormatJson_not_json : tryFormatJson "hello world" = Val None.
Proof. reflexivity. Qed.

Example tryFormatJson_primitives :
  tryFormatJson "42" = Val None /\ tryFormatJson (jq "string") = Val None
  /\ tryFormatJson "true" = Val None /\ tryFormatJson "null" = Val None.
Proof. repeat split. Qed.

Example formatResult_undefined : run_plains (formatResult "tools/list" undefined PLAIN) = [].
Proof. reflexivity. Qed.

Example formatResult_tools_list :
  run_plains (formatResult "tools/list"
                (Some (JObj [("tools", JArr [JObj [("name", JStr "echo")];
                                             JObj [("name", JStr "add")]])])) PLAIN)
  = ["    (2 tools: echo, add)"].
Proof. reflexivity. Qed.

Example formatResult_long_tools_list :
  run_plains (formatResult "tools/list"
                (Some (JObj [("tools",
                              JArr (map (fun i => JObj [("name", JStr ("tool" ++ Str.of_Z i))])
                                        [0; 1; 2; 3; 4; 5; 6; 7; 8; 9; 10; 11; 12; 13; 14;
                                         15; 16; 17; 18; 19]%Z))])) PLAIN)
  = ["    (20 tools: tool0, tool1, tool2, tool3, tool4, tool5, ... +14 more)"].
Proof. reflexivity. Qed.

Example formatResult_resources_list :
  run_plains (formatResult "resources/list"
                (Some (JObj [("resources",
                              JArr [JObj [("name", JStr "readme");
                                          ("uri", JStr "file:///readme")]])])) PLAIN)
  = ["    (1 resources: readme)"].
Proof. reflexivity. Qed.

Example formatResult_plain_text :
  run_plains (formatResult "tools/call" (one_block (text_block ("hello" ++ NL ++ "world")))
                PLAIN)
  = ["    [text] hello"; "    [text] world"].
Proof. reflexivity. Qed.

Example formatResult_json_text :
  run_plains (formatResult "tools/call"
                (one_block (text_block ("{" ++ jq "total" ++ ":5," ++ jq "name" ++ ":"
                                            ++ jq "test" ++ "}"))) PLAIN)
  = ["    [text]"; "        {"; "          " ++ jq "total" ++ ": 5,";
     "          " ++ jq "name" ++ ": " ++ jq "test"; "        }"].
Proof. reflexivity. Qed.

Example formatResult_image :
  run_plains (formatResult "tools/call"
                (one_block (image_block "image/png" (repeat_str "a" 4096))) PLAIN)
  = ["    [image image/png] 3KB"].
Proof. reflexivity. Qed.

Example formatResult_isError :
  run_plains (formatResult "tools/call"
                (Some (JObj [("content", JArr [text_block "fail"]);
                             ("isError", JBool true)])) PLAIN)
  = ["    [text] fail"; "    (isError: true)"].
Proof. reflexivity. Qed.

Example formatResult_initialize :
  run_plains (formatResult "initialize"
                (Some (JObj [("capabilities", JObj [("tools", JObj []); ("resources", JObj [])]);
                             ("serverInfo", JObj [("name", JStr "test-server");
                                                  ("version", JStr "1.0")])])) PLAIN)
  = ["    test-server v1.0  capabilities: tools, resources"].
Proof. reflexivity. Qed.

Example formatResult_unknown_method :
  run_plains (formatResult "unknown/method" (Some (JObj [("foo", JStr "bar")])) PLAIN)
  = ["    {" ++ jq "foo" ++ ":" ++ jq "bar" ++ "}"].
Proof. reflexivity. Qed.

(** ** formatter.test.ts *)

Example formatMessage_notification :
  run_plains (formatMessage PLAIN "12:00:00.000" 0
                ("{" ++ jq "jsonrpc" ++ ":" ++ jq "2.0" ++ "," ++ jq "method" ++ ":"
                     ++ jq "notifications/initialized" ++ "}") client)
  = ["12:00:00.000 → CLIENT  notification  notifications/initialized"].
Proof. reflexivity. Qed.

Example formatMessage_tools_call :
  run_plains (formatMessage PLAIN "12:00:00.000" 0
                ("{" ++ jq "jsonrpc" ++ ":" ++ jq "2.0" ++ "," ++ jq "id" ++ ":5,"
                     ++ jq "method" ++ ":" ++ jq "tools/call" ++ "," ++ jq "params" ++ ":{"
                     ++ jq "name" ++ ":" ++ jq "echo" ++ "," ++ jq "arguments" ++ ":{"
                     ++ jq "msg" ++ ":" ++ jq "hi" ++ "}}}") client)
  = ["12:00:00.000 → CLIENT  request  tools/call  echo  #5";
     "    {"; "      " ++ jq "msg" ++ ": " ++ jq "hi"; "    }"].
Proof. reflexivity. Qed.

Example formatMessage_invalid_json :
  run_plains (formatMessage PLAIN "12:00:00.000" 0 "not json at all" client)
  = ["12:00:00.000 → CLIENT  [raw] not json at all"].
Proof. reflexivity. Qed.

Example formatMessage_notification_params :
  run_plains (formatMessage PLAIN "12:00:00.000" 0
                ("{" ++ jq "jsonrpc" ++ ":" ++ jq "2.0" ++ "," ++ jq "method" ++ ":"
                     ++ jq "notifications/progress" ++ "," ++ jq "params" ++ ":{"
                     ++ jq "token" ++ ":" ++ jq "abc" ++ "," ++ jq "progress" ++ ":50}}")
                server)
  = ["12:00:00.000 ← SERVER  notification  notifications/progress";
     "    {" ++ jq "token" ++ ":" ++ jq "abc" ++ "," ++ jq "progress" ++ ":50}"].
Proof. reflexivity. Qed.

(** ** watch.test.ts *)

Example colorize_disabled :
  colorize "12:34:56.100 → CLIENT  notification  notifications/initialized" false
  = "12:34:56.100 → CLIENT  notification  notifications/initialized".
Proof. reflexivity. Qed.

Example colorize_response_line :
  colorize "12:34:56.250 ← SERVER  response  initialize  #1  50ms" true
  = ansi "2" ++ "12:34:56.250" ++ ansi "0" ++ " "
    ++ ansi "32" ++ ansi "1" ++ "← SERVER" ++ ansi "0" ++ "  "
    ++ ansi "37" ++ "response" ++ ansi "0" ++ "  "
    ++ ansi "35" ++ "initialize" ++ ansi "0" ++ "  "
    ++ ansi "2" ++ "#1" ++ ansi "0" ++ "  " ++ ansi "2" ++ "50ms" ++ ansi "0".
Proof. reflexivity. Qed.

Example colorize_error_line :
  colorize "12:34:57.456 ← SERVER  ERROR  (tools/call #3)  12ms" true
  = ansi "2" ++ "12:34:57.456" ++ ansi "0" ++ " "
    ++ ansi "32" ++ ansi "1" ++ "← SERVER" ++ ansi "0" ++ "  "
    ++ ansi "31" ++ ansi "1" ++ "ERROR" ++ ansi "0" ++ "  ("
    ++ ansi "32" ++ "tools/call" ++ ansi "0" ++ " "
    ++ ansi "2" ++ "#3" ++ ansi "0" ++ ")  " ++ ansi "2" ++ "12ms" ++ ansi "0".
Proof. reflexivity. Qed.

Example colorize_two_families :
  colorize "notifications/initialized" true
  = ansi "34" ++ "notifications/" ++ ansi "35" ++ "initialized" ++ ansi "0" ++ ansi "0".
Proof. reflexivity. Qed.

Example colorize_stderr :
  colorize "[server stderr] Listening on stdio" true
  = ansi "2" ++ "[server stderr] Listening on stdio" ++ ansi "0".
Proof. reflexivity. Qed.

Example findLatestLog_empty :
  findLatestLog (listing "/logs" []) (mtime_of []) join_slash "/logs" = None
  /\ findLatestLog (listing "/logs" []) (mtime_of []) join_slash "/logs/nope" = None.
Proof. split; reflexivity. Qed.

Example findLatestLog_ignores_other_files :
  findLatestLog (listing "/logs" ["notes.txt"; "data.json"])
    (mtime_of [("/logs/notes.txt", 5000%Z); ("/logs/data.json", 6000%Z)])
    join_slash "/logs"
  = None.
Proof. reflexivity. Qed.

(** * Further properties of the code *)

(** ** Lengths, prefixes and reversal *)

Lemma length_append (a b : string) :
  String.length (a ++ b) = (String.length a + String.length b)%nat.
Proof. induction a as [|c a IH]; cbn; [reflexivity|now rewrite IH]. Qed.

Lemma length_take (n : nat) (s : string) :
  String.length (Str.take n s) = Nat.min n (String.length s).
Proof.
  revert s. induction n as [|n IH]; intros [|c s]; cbn; try reflexivity.
  now rewrite IH.
Qed.

Lemma take_all (n : nat) (s : string) :
  (String.length s <= n)%nat -> Str.take n s = s.
Proof.
  revert s. induction n as [|n IH]; intros [|c s]; cbn; intros H; try reflexivity.
  - lia.
  - rewrite IH; [reflexivity|lia].
Qed.

Lemma rev_acc_app (s acc : string) : Str.rev_acc s acc = Str.rev s ++ acc.
Proof.
  unfold Str.rev. revert acc. induction s as [|c s IH]; intros acc; cbn [Str.rev_acc].
  - reflexivity.
  - rewrite (IH (String c acc)), (IH (String c EmptyString)).
    now rewrite append_assoc.
Qed.

Lemma rev_app (a b : string) : Str.rev (a ++ b) = Str.rev b ++ Str.rev a.
Proof.
  induction a as [|c a IH]; cbn [append].
  - now rewrite append_nil_r.
  - unfold Str.rev at 1 3. cbn [Str.rev_acc].
    rewrite !rev_acc_app, IH. now rewrite append_assoc.
Qed.

Lemma rev_involutive (s : string) : Str.rev (Str.rev s) = s.
Proof.
  induction s as [|c s IH]; [reflexivity|].
  change (String c s) with (String c EmptyString ++ s) at 1.
  rewrite rev_app, rev_app, IH. reflexivity.
Qed.

Lemma endsWith_app (a p : string) : Str.endsWith (a ++ p) p = true.
Proof. unfold Str.endsWith. rewrite rev_app. apply startsWith_app. Qed.

Lemma endsWith_split (s p : string) :
  Str.endsWith s p = true -> exists a, s = a ++ p.
Proof.
  unfold Str.endsWith. intros H.
  destruct (startsWith_split _ _ H) as [r Hr].
  exists (Str.rev r).
  rewrite <- (rev_involutive s), Hr, rev_app, rev_involutive. reflexivity.
Qed.

(** ** [truncate] *)

Lemma truncate_short_id (str : string) (max : Z) :
  (Str.length str <= max)%Z -> truncate str max = str.
Proof. intros H. unfold truncate. apply Z.leb_le in H. now rewrite H. Qed.

Lemma truncate_long_eq (str : string) (max : Z) :
  (3 <= max)%Z -> (max < Str.length str)%Z ->
  truncate str max = Str.take (Z.to_nat (max - 3)) str ++ "..."
  /\ Str.length (truncate str max) = max.
Proof.
  intros H3 Hlong. unfold truncate, Str.slice0.
  apply Z.leb_gt in Hlong as E. rewrite E.
  assert (E3 : (0 <=? max - 3)%Z = true) by (apply Z.leb_le; lia). rewrite E3.
  split; [reflexivity|].
  unfold Str.length in *. rewrite length_append, length_take. cbn [String.length]. lia.
Qed.

Lemma truncate_length_le (str : string) (max : Z) :
  (3 <= max)%Z -> (Str.length (truncate str max) <= max)%Z.
Proof.
  intros H3. destruct (Z.le_gt_cases (Str.length str) max) as [H|H].
  - now rewrite truncate_short_id.
  - destruct (truncate_long_eq str max H3 H) as [_ ->]. lia.
Qed.

(** X1.  [truncate] with a bound of at least 3, the length of the ellipsis.
    The result is never longer than [max]; a string of at most [max]
    characters comes back as it is; a longer one comes back as its first
    [max - 3] characters followed by "...", which is [max] characters in
    all; and truncating twice is truncating once. *)
Theorem truncate_fits (str : string) (max : Z) :
  (3 <= max)%Z ->
  (Str.length (truncate str max) <= max)%Z
  /\ ((Str.length str <= max)%Z -> truncate str max = str)
  /\ ((max < Str.length str)%Z ->
      truncate str max = Str.take (Z.to_nat (max - 3)) str ++ "..."
      /\ Str.length (truncate str max) = max
      /\ Str.endsWith (truncate str max) "..." = true)
  /\ truncate (truncate str max) max = truncate str max.
Proof.
  intros H3. split; [now apply truncate_length_le|]. split; [apply truncate_short_id|]. split.
  - intros Hlong. destruct (truncate_long_eq str max H3 Hlong) as [E L].
    repeat split; try assumption. rewrite E. apply endsWith_app.
  - apply truncate_short_id. now apply truncate_length_le.
Qed.

(** The test of the repository: 300 characters cut to 200. *)
Lemma truncate_fits_witness :
  Str.length (truncate (repeat_str "a" 300) 200) = 200%Z
  /\ Str.endsWith (truncate (repeat_str "a" 300) 200) "..." = true.
Proof.
  destruct (truncate_fits (repeat_str "a" 300) 200 ltac:(lia)) as (_ & _ & H & _).
  destruct (H ltac:(vm_compute; reflexivity)) as (_ & L & E).
  split; assumption.
Defined.

(** X2.  [truncate] with a bound below 3.  [max - 3] is negative, so
    [slice(0, max - 3)] counts from the end: a string longer than [max]
    comes back longer than [max], and, when [max] is not negative, at
    least as long as it was. *)
Theorem truncate_below_three (str : string) (max : Z) :
  (max < 3)%Z -> (max < Str.length str)%Z ->
  (max < Str.length (truncate str max))%Z
  /\ ((0 <= max)%Z -> (Str.length str <= Str.length (truncate str max))%Z).
Proof.
  intros H3 Hlong. unfold truncate, Str.slice0.
  apply Z.leb_gt in Hlong as E. rewrite E.
  assert (E3 : (0 <=? max - 3)%Z = false) by (apply Z.leb_gt; lia). rewrite E3.
  unfold Str.length in *. rewrite length_append, length_take. cbn [String.length]. lia.
Qed.

(** [truncate("abcdef", 2)] is ["abcde..."]. *)
Lemma truncate_below_three_witness :
  truncate "abcdef" 2 = "abcde..."
  /\ (2 < Str.length (truncate "abcdef" 2))%Z.
Proof.
  split; [reflexivity|].
  exact (proj1 (truncate_below_three "abcdef" 2 ltac:(lia) ltac:(vm_compute; reflexivity))).
Defined.

(** ** [truncateStringValues] *)

Lemma truncateStringValues_obj (es : list (string * JSON)) (m : Z) :
  truncateStringValues (JObj es) m
  = JObj (fold_left
            (fun result kv =>
               if String.eqb (fst kv) "__proto__" then result
               else obj_set result (fst kv) (truncateStringValues (snd kv) m))
            es []).
Proof. reflexivity. Qed.

Lemma truncateStringValues_entries (es : list (string * JSON)) (m : Z) (k : string) :
  distinct_keys (map fst es) = true ->
  exists es', truncateStringValues (JObj es) m = JObj es'
    /\ obj_get es' k = if String.eqb k "__proto__" then None
                       else option_map (fun x => truncateStringValues x m) (obj_get es k).
Proof.
  intros Hd. rewrite truncateStringValues_obj. eexists. split; [reflexivity|].
  rewrite (obj_get_fold (fun x => truncateStringValues x m)
             (fun key _ => String.eqb key "__proto__") es [] k Hd).
  destruct (obj_get es k); destruct (String.eqb k "__proto__"); reflexivity.
Qed.

(** [truncateStringValues] keeps every position of the value that is not
    under a key "__proto__", puts there the image of what stood there, and
    has no other position. *)
Lemma at_path_truncateStringValues (m : Z) (p : list step) :
  forall v : JSON,
    well_formed v = true ->
    at_path (truncateStringValues v m) p
    = if proto_free p
      then option_map (fun o => truncateStringValues o m) (at_path v p)
      else None.
Proof.
  induction p as [|s p IH]; intros v Hwf; [reflexivity|].
  destruct s as [k|i]; cbn [proto_free forallb].
  - destruct v as [| | |s| |es].
    1-3, 5: now destruct (negb (String.eqb k "__proto__") && _).
    + cbn [truncateStringValues].
      now destruct (Str.length s >? m)%Z, (negb (String.eqb k "__proto__") && _).
    + destruct (truncateStringValues_entries es m k (well_formed_keys es Hwf))
        as (es' & -> & Hget).
      cbn [at_path]. rewrite Hget.
      destruct (String.eqb k "__proto__"); [reflexivity|]. cbn [negb andb].
      destruct (obj_get es k) as [x|] eqn:Hx; cbn [option_map].
      * exact (IH x (well_formed_get es k x Hwf Hx)).
      * now destruct (forallb _ p).
  - cbn [andb]. destruct v as [| | |s|xs|es].
    1-3, 6: now destruct (forallb _ p).
    + cbn [truncateStringValues]. now destruct (Str.length s >? m)%Z, (forallb _ p).
    + cbn [truncateStringValues at_path]. rewrite nth_error_map.
      destruct (nth_error xs i) as [x|] eqn:Hx; cbn [option_map].
      * exact (IH x (well_formed_nth xs i x Hwf Hx)).
      * now destruct (forallb _ p).
Qed.

(** What stands at a position of the output stood at the same position of
    the input, and is its image. *)
Lemma at_path_truncateStringValues_from (m : Z) (p : list step) (v o' : JSON) :
  well_formed v = true ->
  at_path (truncateStringValues v m) p = Some o' ->
  exists o, at_path v p = Some o /\ o' = truncateStringValues o m.
Proof.
  intros Hwf H. rewrite (at_path_truncateStringValues m p v Hwf) in H.
  destruct (proto_free p); [|discriminate].
  destruct (at_path v p) as [o|]; [|discriminate].
  cbn [option_map] in H. injection H as <-. eauto.
Qed.

(** On a string, [truncateStringValues] is [truncate]. *)
Lemma truncateStringValues_str (s : string) (m : Z) :
  truncateStringValues (JStr s) m = JStr (truncate s m).
Proof.
  cbn [truncateStringValues]. unfold truncate.
  rewrite Z.gtb_ltb, Z.ltb_antisym. now destruct (Str.length s <=? m)%Z.
Qed.

Lemma truncateStringValues_is_str (o : JSON) (m : Z) (s' : string) :
  truncateStringValues o m = JStr s' -> exists s, o = JStr s /\ s' = truncate s m.
Proof.
  destruct o as [| | |s|xs|es]; try discriminate.
  rewrite truncateStringValues_str. intros H. injection H as <-. eauto.
Qed.

(** X3.  [truncateStringValues] with a bound of at least 3.  The positions
    of the output are the positions of the input that are not under a key
    "__proto__": a member under that key is not copied, since the
    assignment to it creates no property.  At each of these positions
    stands the image of what stood there: a string of the output, at any
    depth, stands where a string of the input stood and is that string cut
    by [truncate], so it has at most [maxLen] characters; numbers, booleans
    and [null] that are not under a key "__proto__" are where they
    were. *)
Theorem string_values_are_short (v : JSON) (maxLen : Z) (p : list step) :
  well_formed v = true ->
  (3 <= maxLen)%Z ->
  at_path (truncateStringValues v maxLen) p
  = (if proto_free p
     then option_map (fun o => truncateStringValues o maxLen) (at_path v p)
     else None)
  /\ (forall s', at_path (truncateStringValues v maxLen) p = Some (JStr s') ->
        (Str.length s' <= maxLen)%Z
        /\ proto_free p = true
        /\ exists s, at_path v p = Some (JStr s) /\ s' = truncate s maxLen)
  /\ (forall o, is_primitive o = true -> (forall s, o <> JStr s) ->
        proto_free p = true ->
        at_path v p = Some o -> at_path (truncateStringValues v maxLen) p = Some o).
Proof.
  intros Hwf H3. pose proof (at_path_truncateStringValues maxLen p v Hwf) as E.
  split; [exact E|]. split.
  - intros s' H. rewrite E in H.
    destruct (proto_free p); [|discriminate].
    destruct (at_path v p) as [o|]; [|discriminate]. cbn [option_map] in H.
    injection H as H. destruct (truncateStringValues_is_str o maxLen s' H) as (s & -> & ->).
    split; [now apply truncate_length_le | eauto].
  - intros o Hprim Hstr Hfree Ho. rewrite E, Hfree, Ho. cbn [option_map]. f_equal.
    destruct o as [| | |s|xs|es]; try reflexivity; try discriminate.
    now destruct (Hstr s).
Qed.

(** A long string inside an array inside an object is cut to ten
    characters, and the number beside it is kept; of a member under the
    key "__proto__" nothing is left. *)
Lemma string_values_are_short_witness :
  at_path (truncateStringValues
             (JObj [("items", JArr [JStr "abcdefghijklmnop"; JNum 16])]) 10)
          [Key "items"; Idx 0]
  = Some (JStr "abcdefg...")
  /\ (Str.length "abcdefg..." <= 10)%Z
  /\ at_path (truncateStringValues (JObj [("__proto__", JNum 5); ("n", JNum 6)]) 10)
             [Key "__proto__"]
     = None.
Proof.
  split; [reflexivity|].
  split.
  - exact (proj1 (proj1 (proj2 (string_values_are_short
                    (JObj [("items", JArr [JStr "abcdefghijklmnop"; JNum 16])]) 10
                    [Key "items"; Idx 0] eq_refl ltac:(lia)))
                   "abcdefg..." eq_refl)).
  - exact (proj1 (string_values_are_short (JObj [("__proto__", JNum 5); ("n", JNum 6)]) 10
                    [Key "__proto__"] eq_refl ltac:(lia))).
Defined.

(** ** The three passes of [tryFormatJson] keep values well formed *)


Lemma fold_set_well_formed (f : JSON -> JSON) (skip : string -> JSON -> bool)
    (es acc : list (string * JSON)) :
  well_formed (JObj acc) = true ->
  Forall (fun kv => well_formed (f (snd kv)) = true) es ->
  well_formed (JObj (fold_left (fun result kv =>
                                  if skip (fst kv) (snd kv) then result
                                  else obj_set result (fst kv) (f (snd kv))) es acc)) = true.
Proof.
  revert acc. induction es as [|kv es IH]; intros acc Hacc Hes; cbn [fold_left].
  - exact Hacc.
  - inversion Hes as [|? ? Hkv Hes']; subst. apply IH; [|assumption].
    destruct (skip (fst kv) (snd kv)); [assumption|].
    now apply obj_set_well_formed.
Qed.

Lemma slice_map_well_formed (f : JSON -> JSON) (n : nat) (xs : list JSON) :
  Forall (fun x => well_formed (f x) = true) xs ->
  forallb well_formed (slice_map f n xs) = true.
Proof.
  intros H. revert n. induction H as [|x xs Hx _ IH]; intros [|n]; cbn; try reflexivity.
  now rewrite Hx, IH.
Qed.

Lemma truncateArrays_well_formed (m : Z) (v : JSON) :
  well_formed v = true -> well_formed (truncateArrays v m) = true.
Proof.
  induction v as [| | | |xs IH|es IH] using JSON_induction; intros Hwf; try exact Hwf.
  - rewrite truncateArrays_arr. cbv zeta.
    assert (Hs : forallb well_formed
                   (slice_map (fun item => truncateArrays item m)
                      (slice_count (List.length xs) m) xs) = true).
    { apply slice_map_well_formed. cbn [well_formed] in Hwf.
      rewrite forallb_forall in Hwf. rewrite Forall_forall in IH |- *. auto. }
    destruct (Z.of_nat (List.length xs) >? m)%Z; cbn [well_formed]; [|exact Hs].
    rewrite forallb_app, Hs. reflexivity.
  - rewrite truncateArrays_obj.
    apply (fold_set_well_formed (fun x => truncateArrays x m)
             (fun key _ => String.eqb key "__proto__"));
      [reflexivity|].
    cbn [well_formed] in Hwf. apply andb_true_iff in Hwf. destruct Hwf as [_ Hwf].
    rewrite forallb_forall in Hwf. rewrite Forall_forall in IH |- *. auto.
Qed.

Lemma removeNoiseFields_well_formed (v : JSON) :
  forall b, well_formed v = true -> well_formed (removeNoiseFields v b) = true.
Proof.
  induction v as [| | | |xs IH|es IH] using JSON_induction; intros flag Hwf; try exact Hwf.
  - cbn [removeNoiseFields well_formed] in Hwf |- *.
    rewrite forallb_forall in Hwf |- *. intros y Hy.
    apply in_map_iff in Hy. destruct Hy as (x & <- & Hx).
    rewrite Forall_forall in IH. auto.
  - rewrite removeNoiseFields_obj.
    apply (fold_set_well_formed (fun x => removeNoiseFields x false) (dropped flag));
      [reflexivity|].
    cbn [well_formed] in Hwf. apply andb_true_iff in Hwf. destruct Hwf as [_ Hwf].
    rewrite forallb_forall in Hwf. rewrite Forall_forall in IH |- *. auto.
Qed.

Lemma at_path_well_formed (p : list step) :
  forall v o, well_formed v = true -> at_path v p = Some o -> well_formed o = true.
Proof.
  induction p as [|s p IH]; intros v o Hwf H.
  - cbn in H. now injection H as <-.
  - destruct s as [k|i]; destruct v as [| | | |xs|es]; try discriminate; cbn [at_path] in H.
    + destruct (obj_get es k) as [x|] eqn:Hx; [|discriminate].
      exact (IH x o (well_formed_get es k x Hwf Hx) H).
    + destruct (nth_error xs i) as [x|] eqn:Hx; [|discriminate].
      exact (IH x o (well_formed_nth xs i x Hwf Hx) H).
Qed.

(** An array cut by [truncateArrays] at 3 has at most 4 elements. *)
Lemma truncateArrays_3_length (xs ys : list JSON) :
  truncateArrays (JArr xs) 3 = JArr ys -> (List.length ys <= 4)%nat.
Proof.
  rewrite truncateArrays_arr. cbv zeta.
  pose proof (slice_map_length (fun item => truncateArrays item 3)
                (slice_count (List.length xs) 3) xs) as L.
  change (slice_count (List.length xs) 3) with 3%nat in L |- *.
  destruct (Z.of_nat (List.length xs) >? 3)%Z; intros H; injection H as <-.
  - rewrite length_app. cbn [List.length]. lia.
  - lia.
Qed.

(** ** [tryFormatJson]: what is printed is bounded *)

(** X4.  The text that [tryFormatJson] returns for the JSON text of an array or
    an object is the indented print of a value in which, at every depth, an
    array has at most 4 elements (3 and the marker), a string has at most
    100 characters, and an object that is an element of an array has
    neither an "id" nor a "timestamp". *)
Theorem tryFormatJson_output_is_bounded (text : string) (v : JSON) :
  JSON_parse text = Val v ->
  is_primitive v = false ->
  exists v',
    tryFormatJson text = Val (Some (stringify2 v'))
    /\ (forall p ys, at_path v' p = Some (JArr ys) -> (List.length ys <= 4)%nat)
    /\ (forall p s, at_path v' p = Some (JStr s) -> (Str.length s <= 100)%Z)
    /\ (forall p es, at_path v' p = Some (JObj es) -> element_of_array p = true ->
          obj_get es "id" = None /\ obj_get es "timestamp" = None).
Proof.
  intros Hparse Hprim.
  pose proof (JSON_parse_well_formed text v Hparse) as Hwf.
  pose proof (truncateArrays_well_formed 3 v Hwf) as Hwf1.
  pose proof (removeNoiseFields_well_formed _ false Hwf1) as Hwf2.
  exists (truncateStringValues (removeNoiseFields (truncateArrays v 3) false) 100).
  split; [unfold tryFormatJson; now rewrite Hparse, Hprim|].
  split; [|split].
  - intros p ys H.
    destruct (at_path_truncateStringValues_from 100 p _ _ Hwf2 H) as (o2 & H2 & E2).
    symmetry in E2. clear H. rename E2 into H.
    destruct o2 as [| | |s|ys2|es2]; try discriminate.
    { cbn [truncateStringValues] in H. destruct (Str.length s >? 100)%Z; discriminate. }
    cbn [truncateStringValues] in H. injection H as <-. rewrite length_map.
    destruct (at_path_removeNoiseFields p _ false _ Hwf1 H2) as (o1 & H1 & _ & E1).
    destruct o1 as [| | | |ys1|es1]; try discriminate.
    cbn [removeNoiseFields] in E1. injection E1 as ->. rewrite length_map.
    destruct (at_path_truncateArrays 3 p v ys1 Hwf H1) as (xs & _ & Ht).
    exact (truncateArrays_3_length xs ys1 Ht).
  - intros p s H.
    destruct (at_path_truncateStringValues_from 100 p _ _ Hwf2 H) as (o2 & _ & E2).
    symmetry in E2.
    destruct (truncateStringValues_is_str o2 100 s E2) as (s0 & _ & ->).
    apply truncate_length_le. lia.
  - intros p es H Harr.
    destruct (at_path_truncateStringValues_from 100 p _ _ Hwf2 H) as (o2 & H2 & E2).
    symmetry in E2. clear H. rename E2 into H.
    pose proof (at_path_well_formed p _ o2 Hwf2 H2) as Hwo2.
    destruct o2 as [| | |s|ys2|es2]; try discriminate.
    { cbn [truncateStringValues] in H. destruct (Str.length s >? 100)%Z; discriminate. }
    destruct (at_path_removeNoiseFields p _ false _ Hwf1 H2) as (o1 & H1 & Hwo1 & E1).
    assert (Hflag : flag_at false p = true) by (destruct p; [discriminate|exact Harr]).
    rewrite Hflag in E1.
    destruct o1 as [| | | |ys1|es1]; try discriminate.
    assert (Hgone : forall k, NOISE_FIELDS_has k = true -> obj_get es k = None).
    { intros k Hk.
      destruct (truncateStringValues_entries es2 100 k (well_formed_keys es2 Hwo2))
        as (es' & Hes' & Hget).
      rewrite Hes' in H. injection H as <-. rewrite Hget.
      destruct (String.eqb k "__proto__"); [reflexivity|].
      destruct (removeNoiseFields_entries es1 true k (well_formed_keys es1 Hwo1))
        as (es2' & Hes2' & Hget2).
      rewrite Hes2' in E1. injection E1 as ->. rewrite Hget2.
      destruct (obj_get es1 k) as [x|]; [|reflexivity].
      unfold dropped, noise_skipped. now rewrite Hk. }
    split; apply Hgone; reflexivity.
Qed.

(** The example: the array of five is cut to three and the marker, and
    the object in it has lost its id. *)
Lemma tryFormatJson_output_is_bounded_witness :
  exists v',
    tryFormatJson bounded_example = Val (Some (stringify2 v'))
    /\ (forall p ys, at_path v' p = Some (JArr ys) -> (List.length ys <= 4)%nat)
    /\ (forall p s, at_path v' p = Some (JStr s) -> (Str.length s <= 100)%Z)
    /\ (forall p es, at_path v' p = Some (JObj es) -> element_of_array p = true ->
          obj_get es "id" = None /\ obj_get es "timestamp" = None).
Proof.
  exact (tryFormatJson_output_is_bounded bounded_example
           (JObj [("items", JArr [JObj [("id", JNum 7); ("name", JStr "a")];
                                  JNum 2; JNum 3; JNum 4; JNum 5])])
           eq_refl eq_refl).
Defined.

(** ** What the formatters write *)

Lemma appends_ret {A} (P : record -> Prop) (a : A) : appends P (ret a).
Proof. intros w. exists []. cbn. now rewrite app_nil_r. Qed.

Lemma appends_lift {A} (P : record -> Prop) (o : outcome A) : appends P (lift o).
Proof. intros w. exists []. cbn. now rewrite app_nil_r. Qed.

Lemma appends_write (P : record -> Prop) (a b : string) :
  P (Rec a b) -> appends P (write a b).
Proof. intros H w. exists [Rec a b]. cbn. auto. Qed.

Lemma appends_pending_get (P : record -> Prop) (k : JSON) : appends P (pending_get k).
Proof. intros w. exists []. cbn. now rewrite app_nil_r. Qed.

Lemma appends_pending_set (P : record -> Prop) (k : JSON) (p : PendingRequest) :
  appends P (pending_set k p).
Proof. intros w. exists []. cbn. now rewrite app_nil_r. Qed.

Lemma appends_pending_delete (P : record -> Prop) (k : JSON) : appends P (pending_delete k).
Proof. intros w. exists []. cbn. now rewrite app_nil_r. Qed.

Lemma appends_bind {A B} (P : record -> Prop) (m : M A) (k : A -> M B) :
  appends P m -> (forall a, appends P (k a)) -> appends P (bind m k).
Proof.
  intros Hm Hk w. unfold bind. destruct (Hm w) as (rs & E & HP).
  destruct (m w) as [[a|e] w']; cbn [snd] in *.
  - destruct (Hk a w') as (rs' & E' & HP'). exists (rs ++ rs')%list.
    rewrite E', E, app_assoc. split; [reflexivity|]. now apply Forall_app.
  - now exists rs.
Qed.

Lemma appends_forM {A} (P : record -> Prop) (xs : list A) (body : A -> M unit) :
  (forall x, appends P (body x)) -> appends P (forM xs body).
Proof.
  intros H. induction xs as [|x xs IH]; cbn [forM].
  - apply appends_ret.
  - apply appends_bind; auto.
Qed.

Lemma appends_try_catch (P : record -> Prop) (body handler : M unit) :
  appends P body -> appends P handler -> appends P (try_catch body handler).
Proof.
  intros Hb Hh w. unfold try_catch. destruct (Hb w) as (rs & E & HP).
  destruct (body w) as [[[]|[|]] w']; cbn [snd] in *; try (now exists rs).
  destruct (Hh w') as (rs' & E' & HP'). exists (rs ++ rs')%list.
  rewrite E', E, app_assoc. split; [reflexivity|]. now apply Forall_app.
Qed.

Lemma appends_weaken {A} (P Q : record -> Prop) (m : M A) :
  (forall r, P r -> Q r) -> appends P m -> appends Q m.
Proof.
  intros H Hm w. destruct (Hm w) as (rs & E & HP). exists rs. split; [exact E|].
  revert HP. apply Forall_impl. exact H.
Qed.

Lemma startsWith_head (a s p : string) :
  Str.startsWith s p = true -> Str.startsWith (a ++ s) (a ++ p) = true.
Proof.
  intros H. destruct (startsWith_split s p H) as [r ->].
  rewrite <- append_assoc. apply startsWith_app.
Qed.

(** Breaks a computation down to its writes and leaves [tac] to show that
    each record is as it should be. *)
Ltac appends_with tac :=
  repeat first
    [ apply appends_ret | apply appends_lift
    | apply appends_pending_get | apply appends_pending_set | apply appends_pending_delete
    | apply appends_write; tac
    | apply appends_forM; intros
    | apply appends_bind; [|intros]
    | progress unfold write_summary, write_params
    | progress cbv zeta
    | match goal with
      | |- appends _ (if ?b then _ else _) => destruct b
      | |- appends _ (match ?x with _ => _ end) => destruct x
      end ].

Ltac is_detail := split; reflexivity.

Lemma formatBlock_details (c : Colors) (block : JSON) : appends detail (formatBlock c block).
Proof. unfold formatBlock. appends_with is_detail. Qed.

Lemma formatResult_details (method : string) (result : jsval) (c : Colors) :
  appends detail (formatResult method result c).
Proof.
  unfold formatResult, list_of.
  repeat first
    [ apply appends_ret | apply appends_lift
    | apply appends_write; is_detail
    | apply appends_forM; intros; apply formatBlock_details
    | apply appends_bind; [|intros]
    | progress unfold write_summary
    | progress cbv zeta
    | match goal with
      | |- appends _ (if ?b then _ else _) => destruct b
      | |- appends _ (match ?x with _ => _ end) => destruct x
      end ].
Qed.

Lemma colorize_indented (line : string) :
  Str.startsWith line "    " = true ->
  colorize line true = ansi "2" ++ highlight line ++ ansi "0".
Proof.
  intros H. unfold colorize. cbn [negb]. cbv zeta.
  rewrite (highlight_keeps_indent line H). reflexivity.
Qed.

(** X5.  Every record that [formatResult] writes is a detail line: its plain
    text and its coloured text begin with four spaces, and [colorize] shows
    the plain text dimmed as a whole.  The records already in the log stay
    as they are, in place; so it is when the function throws half-way. *)
Theorem formatResult_writes_detail_lines
    (method : string) (result : jsval) (c : Colors) (w : world) :
  exists rs,
    written (snd (formatResult method result c w)) = (written w ++ rs)%list
    /\ Forall (fun r => Str.startsWith (plain r) "    " = true
                        /\ Str.startsWith (colored r) "    " = true
                        /\ colorize (plain r) true
                           = ansi "2" ++ highlight (plain r) ++ ansi "0") rs.
Proof.
  destruct (formatResult_details method result c w) as (rs & E & H).
  exists rs. split; [exact E|]. revert H. apply Forall_impl.
  intros r [Hp Hc]. repeat split; try assumption. now apply colorize_indented.
Qed.

(** ** [formatMessage] never throws, and starts every message with a header *)

Lemma silent_lift {A} (o : outcome A) : silent (lift o).
Proof. intros w. reflexivity. Qed.

Lemma silent_pending_get (k : JSON) : silent (pending_get k).
Proof. intros w. reflexivity. Qed.

Lemma silent_pending_set (k : JSON) (p : PendingRequest) : silent (pending_set k p).
Proof. intros w. reflexivity. Qed.

Lemma begins_write (P : record -> Prop) (a b : string) :
  P (Rec a b) -> begins P (write a b).
Proof. intros H w. exists [Rec a b]. cbn. auto. Qed.

(** After a first write, anything that only appends. *)
Lemma begins_bind_write {B} (P : record -> Prop) (a b : string) (k : unit -> M B) :
  P (Rec a b) -> (forall u, appends (fun _ => True) (k u)) ->
  begins P (bind (write a b) k).
Proof.
  intros H Hk w. unfold bind, write.
  destruct (Hk tt (World (written w ++ [Rec a b]) (pendingRequests w))) as (rs & E & _).
  exists (Rec a b :: rs). rewrite E. cbn [written]. rewrite <- app_assoc. auto.
Qed.

(** Before the first write, anything that writes nothing. *)
Lemma begins_bind_silent {A B} (P : record -> Prop) (m : M A) (k : A -> M B) :
  silent m -> (forall a, begins P (k a)) -> begins P (bind m k).
Proof.
  intros Hm Hk w. unfold bind. specialize (Hm w).
  destruct (m w) as [[a|e] w']; cbn [snd] in *.
  - rewrite <- Hm. apply Hk.
  - exists []. rewrite Hm, app_nil_r. split; [reflexivity|]. cbn. discriminate.
Qed.

Ltac is_header := split; apply startsWith_head; reflexivity.

(** The same, for a computation that calls [formatResult]; [wk] shows that
    a detail record is as it should be. *)
Ltac appends_through tac wk :=
  repeat first
    [ apply (appends_weaken detail); [intros; wk | apply formatResult_details]
    | progress appends_with tac ].

Ltac just_appends := appends_through ltac:(exact I) ltac:(exact I).

Ltac begins_with_header :=
  repeat first
    [ apply begins_write; is_header
    | apply begins_bind_write; [is_header | intros; just_appends]
    | apply begins_bind_silent;
      [ first [ apply silent_lift | apply silent_pending_get | apply silent_pending_set ]
      | intros ]
    | progress cbv zeta
    | match goal with
      | |- begins _ (if ?b then _ else _) => destruct b
      | |- begins _ (match ?x with _ => _ end) => destruct x
      end ].

Lemma format_parsed_begins (c : Colors) (tsNow : string) (now : Z) (json : string)
    (dir : direction) :
  begins (header c tsNow dir) (format_parsed c tsNow now json dir).
Proof.
  unfold format_parsed, format_notification, format_request, format_response.
  begins_with_header.
Qed.

Ltac header_or_detail :=
  first [ left; is_header | right; is_detail ].

Lemma format_parsed_appends (c : Colors) (tsNow : string) (now : Z) (json : string)
    (dir : direction) :
  appends (fun r => header c tsNow dir r \/ detail r) (format_parsed c tsNow now json dir).
Proof.
  unfold format_parsed, format_notification, format_request, format_response.
  appends_through header_or_detail ltac:(now right).
Qed.

Lemma format_raw_header (c : Colors) (tsNow json : string) (dir : direction) (w : world) :
  exists h, format_raw c tsNow json dir w = (Val tt, emit [h] w) /\ header c tsNow dir h.
Proof. eexists. split; [reflexivity|]. is_header. Qed.

(** X7.  Whatever the line is, [formatMessage] does not throw: it returns, or
    leaves the model.  It only adds records to the log; each is a header
    (timestamp, arrow, label and two spaces) or a detail line (four
    spaces); the first one is a header; and when it returns it has written
    at least one record. *)
Theorem formatMessage_never_throws
    (c : Colors) (tsNow : string) (now : Z) (json : string) (dir : direction) (w : world) :
  (fst (formatMessage c tsNow now json dir w) = Val tt
   \/ fst (formatMessage c tsNow now json dir w) = Abort Unmodelled)
  /\ exists rs,
       written (snd (formatMessage c tsNow now json dir w)) = (written w ++ rs)%list
       /\ Forall (fun r => header c tsNow dir r \/ detail r) rs
       /\ match rs with
          | [] => fst (formatMessage c tsNow now json dir w) = Abort Unmodelled
          | h :: _ => header c tsNow dir h
          end.
Proof.
  unfold formatMessage, try_catch.
  destruct (format_parsed_begins c tsNow now json dir w) as (rs & E & Hfirst).
  destruct (format_parsed_appends c tsNow now json dir w) as (rs' & E' & Hall).
  assert (rs' = rs) by (rewrite E in E'; now apply app_inv_head in E'). subst rs'.
  destruct (format_parsed c tsNow now json dir w) as [[[]|[|]] w'] eqn:Hrun;
    cbn [fst snd] in *.
  - split; [now left|]. exists rs. repeat split; try assumption.
    destruct rs; [now destruct (Hfirst tt)|assumption].
  - destruct (format_raw_header c tsNow json dir w') as (h & -> & Hh). cbn [fst snd].
    split; [now left|]. exists (rs ++ [h])%list. unfold emit. cbn [written].
    rewrite E, app_assoc. split; [reflexivity|]. split.
    + apply Forall_app. split; [assumption|]. constructor; [now left|constructor].
    + destruct rs; assumption.
  - split; [now right|]. exists rs. repeat split; try assumption.
    destruct rs; [reflexivity|assumption].
Qed.

(** ** A response is matched with its request *)

Lemma same_value_zero_eq (a b : JSON) : same_value_zero a b = true -> a = b.
Proof.
  destruct a, b; cbn; try discriminate; intros H.
  - reflexivity.
  - now apply Bool.eqb_prop in H; subst.
  - now apply Z.eqb_eq in H; subst.
  - now apply String.eqb_eq in H; subst.
Qed.

Lemma Map_get_replace_same (m : Map) (id : JSON) (p : PendingRequest) :
  Map_has m id = true -> Map_get (Map_replace m id p) id = Some p.
Proof.
  unfold Map_has. induction m as [|[k q] m IH]; cbn [Map_get Map_replace]; [discriminate|].
  destruct (same_value_zero k id) eqn:E; cbn [Map_get]; rewrite E; auto.
Qed.

Lemma Map_get_app_same (m : Map) (id : JSON) (p : PendingRequest) :
  same_value_zero id id = true -> Map_has m id = false ->
  Map_get (m ++ [(id, p)])%list id = Some p.
Proof.
  unfold Map_has. intros Hid. induction m as [|[k q] m IH]; cbn [Map_get app].
  - now rewrite Hid.
  - destruct (same_value_zero k id); [discriminate|auto].
Qed.

Lemma Map_get_set_same (m : Map) (id : JSON) (p : PendingRequest) :
  same_value_zero id id = true -> Map_get (Map_set m id p) id = Some p.
Proof.
  intros Hid. unfold Map_set. destruct (Map_has m id) eqn:H.
  - now apply Map_get_replace_same.
  - now apply Map_get_app_same.
Qed.

Lemma Map_get_set_other (m : Map) (k id : JSON) (p : PendingRequest) :
  same_value_zero k id = false -> Map_get (Map_set m k p) id = Map_get m id.
Proof.
  intros Hk. unfold Map_set. destruct (Map_has m k).
  - induction m as [|[k' q] m IH]; cbn [Map_get Map_replace]; [reflexivity|].
    destruct (same_value_zero k' k) eqn:E; cbn [Map_get].
    + apply same_value_zero_eq in E. subst k'. now rewrite Hk.
    + now rewrite IH.
  - induction m as [|[k' q] m IH]; cbn [Map_get app].
    + now rewrite Hk.
    + now rewrite IH.
Qed.

Lemma Map_get_delete_other (m : Map) (k id : JSON) :
  same_value_zero k id = false -> Map_get (Map_delete m k) id = Map_get m id.
Proof.
  intros Hk. induction m as [|[k' q] m IH]; cbn [Map_get Map_delete]; [reflexivity|].
  destruct (same_value_zero k' k) eqn:E; cbn [Map_get].
  - apply same_value_zero_eq in E. subst k'. now rewrite Hk.
  - now rewrite IH.
Qed.

(** A line that is not about [id] leaves the entry of [id] as it is. *)
Lemma formatMessage_other_id (c : Colors) (tsNow : string) (now : Z) (json : string)
    (dir : direction) (id : JSON) (w : world) :
  about id json = false ->
  Map_get (pendingRequests (snd (formatMessage c tsNow now json dir w))) id
  = Map_get (pendingRequests w) id.
Proof.
  unfold about, formatMessage. intros H.
  rewrite (try_catch_pending _ _ w (format_raw_keeps c tsNow json dir)).
  unfold format_parsed.
  destruct (JSON_parse json) as [[| | | | |es]|e]; try reflexivity.
  rewrite bind_lift_val. cbn [prop]. rewrite !bind_lift_val.
  destruct (truthy (obj_get es "method")) eqn:Ht; destruct (obj_get es "id") as [k|].
  - destruct (obj_get es "method") as [[| | |m| |]|] eqn:Hm;
      try (rewrite format_request_throws; [reflexivity | exact Ht | intros m0; discriminate]).
    destruct (format_request_sets c tsNow now dir es m k w Ht) as [tool ->].
    now apply Map_get_set_other.
  - now rewrite format_notification_keeps.
  - destruct (format_response_deletes c tsNow now dir (JObj es) k w) as [[_ ->]|[_ ->]];
      [now apply Map_get_delete_other | reflexivity].
  - reflexivity.
Qed.

Lemma formatEvents_other_id (c : Colors) (id : JSON) (evs : list event) :
  forall w w', formatEvents c evs w = Some w' ->
    Forall (fun e => about id (ev_json e) = false) evs ->
    Map_get (pendingRequests w') id = Map_get (pendingRequests w) id.
Proof.
  induction evs as [|e evs IH]; intros w w' Hrun Hall; cbn [formatEvents] in Hrun.
  - now injection Hrun as <-.
  - inversion Hall as [|? ? He Hrest]; subst.
    pose proof (formatMessage_other_id c (ev_ts e) (ev_now e) (ev_json e) (ev_dir e) id w He)
      as Hstep.
    unfold formatEvent in Hrun.
    destruct (formatMessage c (ev_ts e) (ev_now e) (ev_json e) (ev_dir e) w) as [[u|a] w1];
      [|discriminate].
    cbn [snd] in Hstep. rewrite (IH w1 w' Hrun Hrest). exact Hstep.
Qed.

(** The entry that a request leaves. *)
Lemma request_registers (c : Colors) (tsNow : string) (now : Z) (json : string)
    (dir : direction) (es : list (string * JSON)) (m : string) (id : JSON) (w : world) :
  JSON_parse json = Val (JObj es) ->
  obj_get es "method" = Some (JStr m) -> m <> EmptyString ->
  obj_get es "id" = Some id ->
  same_value_zero id id = true ->
  exists tool,
    Map_get (pendingRequests (snd (formatMessage c tsNow now json dir w))) id
    = Some (Pending m tool now).
Proof.
  intros Hparse Hm Hne Hid Hsame.
  assert (Ht : truthy (Some (JStr m)) = true).
  { cbn. destruct (String.eqb_spec m EmptyString); [contradiction|reflexivity]. }
  unfold formatMessage.
  rewrite (try_catch_pending _ _ w (format_raw_keeps c tsNow json dir)).
  unfold format_parsed. rewrite Hparse, bind_lift_val. cbn [prop].
  rewrite Hid, Hm, !bind_lift_val, Ht.
  destruct (format_request_sets c tsNow now dir es m id w Ht) as [tool ->].
  exists tool. now apply Map_get_set_same.
Qed.

(** The header of a response whose request is pending. *)
Lemma response_header (c : Colors) (tsNow : string) (now : Z) (json : string)
    (dir : direction) (es : list (string * JSON)) (id : JSON) (p : PendingRequest)
    (w : world) :
  JSON_parse json = Val (JObj es) ->
  truthy (obj_get es "method") = false ->
  obj_get es "id" = Some id ->
  truthy (obj_get es "error") = false ->
  same_value_zero id id = true ->
  Map_get (pendingRequests w) id = Some p ->
  method p <> EmptyString ->
  exists ids h rs,
    ToString id = Val ids
    /\ written (snd (formatMessage c tsNow now json dir w)) = (written w ++ h :: rs)%list
    /\ plain h = head_plain tsNow dir ++ "  response  " ++ method p ++ "  #" ++ ids
                   ++ "  " ++ Str.of_Z (now - ts p) ++ "ms".
Proof.
  intros Hparse Hmethod Hid Herror Hsame Hget Hne.
  assert (Hids : exists ids, ToString id = Val ids).
  { destruct id as [|[]| | | |]; try discriminate; eexists; reflexivity. }
  destruct Hids as [ids Hids]. exists ids.
  assert (Hbody : exists h rs,
             written (snd (format_parsed c tsNow now json dir w)) = (written w ++ h :: rs)%list
             /\ plain h = head_plain tsNow dir ++ "  response  " ++ method p ++ "  #" ++ ids
                            ++ "  " ++ Str.of_Z (now - ts p) ++ "ms").
  { unfold format_parsed. rewrite Hparse, bind_lift_val. cbn [prop].
    rewrite Hid, !bind_lift_val, Hmethod.
    unfold format_response. rewrite bind_pending_get, Hget. cbn beta iota.
    destruct (String.eqb_spec (method p) EmptyString) as [|_]; [contradiction|].
    assert (Hcol : exists col, methodColor (Some (JStr (method p))) c = Val col).
    { unfold methodColor. cbn [truthy].
      destruct (String.eqb_spec (method p) EmptyString); [contradiction|]. cbn [negb].
      repeat match goal with
             | |- exists _, (if ?b then _ else _) = _ => destruct b
             end; eexists; reflexivity. }
    destruct Hcol as [col ->]. rewrite bind_lift_val.
    cbn [prop]. rewrite bind_lift_val, Herror, Hids, bind_lift_val, bind_write.
    match goal with
    | |- context [snd (?k (emit [?h] w))] =>
        assert (Hk : appends (fun _ => True) k) by just_appends;
        destruct (Hk (emit [h] w)) as (rs & E & _); exists h, rs
    end.
    rewrite E. unfold emit. cbn [written]. rewrite <- app_assoc. split; reflexivity. }
  destruct Hbody as (h & rs & E & Hh).
  unfold formatMessage, try_catch.
  destruct (format_parsed c tsNow now json dir w) as [[[]|[|]] w'] eqn:Hrun;
    cbn [snd] in E |- *.
  - exists h, rs. auto.
  - destruct (format_raw_header c tsNow json dir w') as (h' & -> & _).
    exists h, (rs ++ [h'])%list. split; [exact Hids|]. split; [|exact Hh].
    unfold emit. cbn [snd written]. rewrite E, <- app_assoc. reflexivity.
  - exists h, rs. auto.
Qed.

(** X8.  The response to a pending request.  A request with a method [m] and an
    id that is a string, a number, a boolean or [null] is formatted; then
    any lines that are not about this id, each formatted within the model;
    then a response with the same id and no error.  The first record of
    the response is its header, and the header names the method [m], the
    id, and the time between the two readings of [Date.now()]. *)
Theorem response_names_its_request
    (c : Colors) (req : event) (between : list event) (resp : event)
    (es1 es2 : list (string * JSON)) (m : string) (id : JSON) (w w1 : world) :
  JSON_parse (ev_json req) = Val (JObj es1) ->
  obj_get es1 "method" = Some (JStr m) ->
  m <> EmptyString ->
  obj_get es1 "id" = Some id ->
  same_value_zero id id = true ->
  formatEvents c between (snd (formatEvent c req w)) = Some w1 ->
  Forall (fun e => about id (ev_json e) = false) between ->
  JSON_parse (ev_json resp) = Val (JObj es2) ->
  truthy (obj_get es2 "method") = false ->
  obj_get es2 "id" = Some id ->
  truthy (obj_get es2 "error") = false ->
  exists ids h rs,
    ToString id = Val ids
    /\ written (snd (formatEvent c resp w1)) = (written w1 ++ h :: rs)%list
    /\ plain h = head_plain (ev_ts resp) (ev_dir resp) ++ "  response  " ++ m ++ "  #" ++ ids
                   ++ "  " ++ Str.of_Z (ev_now resp - ev_now req) ++ "ms".
Proof.
  intros Hp1 Hm Hne Hid1 Hsame Hrun Hother Hp2 Hm2 Hid2 Herr.
  destruct (request_registers c (ev_ts req) (ev_now req) (ev_json req) (ev_dir req)
              es1 m id w Hp1 Hm Hne Hid1 Hsame) as [tool Hreg].
  pose proof (formatEvents_other_id c id between _ w1 Hrun Hother) as Hkept.
  unfold formatEvent in Hkept. rewrite Hreg in Hkept.
  exact (response_header c (ev_ts resp) (ev_now resp) (ev_json resp) (ev_dir resp)
           es2 id (Pending m tool (ev_now req)) w1 Hp2 Hm2 Hid2 Herr Hsame Hkept Hne).
Qed.

(** A ping, a progress notification, and the answer to the ping 42 ms
    after it. *)
Lemma response_names_its_request_witness :
  exists w1,
    formatEvents PLAIN [progress_notification] (snd (formatEvent PLAIN ping_request (World [] [])))
    = Some w1
    /\ exists h rs,
         written (snd (formatEvent PLAIN ping_response w1)) = (written w1 ++ h :: rs)%list
         /\ plain h = "10:00:00.042 ← SERVER  response  ping  #a  42ms".
Proof.
  eexists. split; [reflexivity|].
  destruct (response_names_its_request PLAIN ping_request [progress_notification] ping_response
              [("id", JStr "a"); ("method", JStr "ping")]
              [("id", JStr "a"); ("result", JObj [])] "ping" (JStr "a") (World [] []) _
              eq_refl eq_refl ltac:(discriminate) eq_refl eq_refl eq_refl
              ltac:(repeat constructor) eq_refl eq_refl eq_refl eq_refl)
    as (ids & h & rs & Hids & E & Hh).
  exists h, rs. split; [exact E|].
  injection Hids as <-. exact Hh.
Defined.

(** ** Lines of a text *)

Lemma split_lines_nonempty (s : string) : Str.split_lines s <> [].
Proof.
  induction s as [|c s IH]; cbn [Str.split_lines]; [discriminate|].
  destruct (Ascii.eqb c Str.LF); [discriminate|].
  destruct (Str.split_lines s); [contradiction|discriminate].
Qed.

(** [(a + "\n" + b).split("\n")] is [a.split("\n")] followed by
    [b.split("\n")]. *)
Lemma split_lines_LF (a b : string) :
  Str.split_lines (a ++ String Str.LF b) = (Str.split_lines a ++ Str.split_lines b)%list.
Proof.
  induction a as [|c a IH]; cbn [append Str.split_lines].
  - now rewrite Ascii.eqb_refl.
  - rewrite IH. destruct (Ascii.eqb c Str.LF); [reflexivity|].
    pose proof (split_lines_nonempty a). destruct (Str.split_lines a); [contradiction|reflexivity].
Qed.

(** The lines of [a + b]: the complete lines of [a], then the lines of
    what [a] left open followed by [b]. *)
Lemma split_lines_app (a b : string) :
  Str.split_lines (a ++ b)
  = (removelast (Str.split_lines a)
     ++ Str.split_lines (last (Str.split_lines a) EmptyString ++ b))%list.
Proof.
  induction a as [|c a IH]; [reflexivity|].
  cbn [append Str.split_lines]. rewrite IH.
  pose proof (split_lines_nonempty a) as Hne.
  destruct (Ascii.eqb c Str.LF) eqn:Hc.
  - destruct (Str.split_lines a) as [|h r]; [contradiction|]. reflexivity.
  - destruct (Str.split_lines a) as [|h [|h1 r]]; [contradiction| |].
    + cbn [removelast last app append Str.split_lines]. now rewrite Hc.
    + reflexivity.
Qed.

Lemma complete_lines_app (a b : string) :
  removelast (Str.split_lines (a ++ b))
  = (removelast (Str.split_lines a)
     ++ removelast (Str.split_lines (last (Str.split_lines a) EmptyString ++ b)))%list.
Proof.
  rewrite split_lines_app. apply removelast_app, split_lines_nonempty.
Qed.

Lemma last_app_nonempty {A} (l l' : list A) (d : A) :
  l' <> [] -> last (l ++ l') d = last l' d.
Proof.
  intros H. induction l as [|x l IH]; [reflexivity|].
  cbn [app]. rewrite <- IH. cbn [last].
  destruct (l ++ l')%list eqn:E; [|reflexivity].
  apply app_eq_nil in E. destruct E as [_ ->]. contradiction.
Qed.

Lemma open_line_app (a b : string) :
  last (Str.split_lines (a ++ b)) EmptyString
  = last (Str.split_lines (last (Str.split_lines a) EmptyString ++ b)) EmptyString.
Proof.
  rewrite split_lines_app. apply last_app_nonempty, split_lines_nonempty.
Qed.

Lemma split_lines_parts (s : string) :
  Str.split_lines s
  = (removelast (Str.split_lines s) ++ [last (Str.split_lines s) EmptyString])%list.
Proof. apply app_removelast_last, split_lines_nonempty. Qed.

Lemma indexOf_LF_None_split (s : string) :
  indexOf_LF s = None -> Str.split_lines s = [s].
Proof.
  induction s as [|c s IH]; cbn [indexOf_LF Str.split_lines]; [reflexivity|].
  destruct (Ascii.eqb c Str.LF); [discriminate|].
  destruct (indexOf_LF s); [discriminate|]. intros _. now rewrite IH.
Qed.

Lemma indexOf_LF_Some_split (s : string) (i : nat) :
  indexOf_LF s = Some i ->
  Str.split_lines s = Str.take i s :: Str.split_lines (Str.drop (S i) s)
  /\ (String.length (Str.drop (S i) s) < String.length s)%nat.
Proof.
  revert i. induction s as [|c s IH]; intros i; cbn [indexOf_LF Str.split_lines]; [discriminate|].
  destruct (Ascii.eqb c Str.LF).
  - intros H. injection H as <-. cbn. split; [|lia].
    now destruct s.
  - destruct (indexOf_LF s) as [j|]; [|discriminate]. cbn [option_map].
    intros H. injection H as <-. destruct (IH j eq_refl) as [E L].
    rewrite E. cbn [Str.take Str.drop String.length] in *. split; [reflexivity|lia].
Qed.

Lemma split_lines_no_LF (s : string) :
  Forall (fun l => indexOf_LF l = None) (Str.split_lines s).
Proof.
  induction s as [|c s IH]; cbn [Str.split_lines]; [repeat constructor|].
  destruct (Ascii.eqb c Str.LF) eqn:Hc; [constructor; [reflexivity|assumption]|].
  destruct (Str.split_lines s) as [|h r].
  - constructor; [|constructor]. cbn [indexOf_LF]. now rewrite Hc.
  - inversion IH as [|? ? Hh Hr]; subst. constructor; [|assumption].
    cbn [indexOf_LF]. now rewrite Hc, Hh.
Qed.

(** [s.split("\n").join("\n")] is [s]. *)
Lemma join_split_lines (s : string) : Str.join NL (Str.split_lines s) = s.
Proof.
  unfold Str.join.
  induction s as [|c s IH]; cbn [Str.split_lines]; [reflexivity|].
  pose proof (split_lines_nonempty s) as Hne.
  destruct (Ascii.eqb c Str.LF) eqn:Hc.
  - apply Ascii.eqb_eq in Hc. subst c.
    destruct (Str.split_lines s) as [|h r]; [contradiction|].
    cbn [String.concat] in *. now rewrite IH.
  - destruct (Str.split_lines s) as [|h [|h1 r]]; [contradiction| |].
    + cbn [String.concat] in *. now rewrite IH.
    + cbn [String.concat append] in *. now rewrite IH.
Qed.

(** ** [createLineBuffer] *)

Lemma drain_lines (fuel : nat) :
  forall s, (String.length s < fuel)%nat ->
    drain fuel s
    = Some (filter (fun l => negb (is_blank l)) (removelast (Str.split_lines s)),
            last (Str.split_lines s) EmptyString).
Proof.
  induction fuel as [|fuel IH]; intros s Hlen; [lia|].
  cbn [drain]. destruct (indexOf_LF s) as [i|] eqn:Hi.
  - destruct (indexOf_LF_Some_split s i Hi) as [E L].
    cbv zeta. rewrite IH by lia. rewrite E.
    pose proof (split_lines_nonempty (Str.drop (S i) s)) as Hne.
    destruct (Str.split_lines (Str.drop (S i) s)) as [|h r] eqn:Er; [contradiction|].
    cbn [removelast last filter]. now destruct (is_blank (Str.take i s)).
  - now rewrite (indexOf_LF_None_split s Hi).
Qed.

Lemma createLineBuffer_lines (buffer chunk : string) :
  createLineBuffer buffer chunk
  = Some (filter (fun l => negb (is_blank l))
            (removelast (Str.split_lines (buffer ++ chunk))),
          last (Str.split_lines (buffer ++ chunk)) EmptyString).
Proof. unfold createLineBuffer. cbv zeta. apply drain_lines. lia. Qed.

Lemma open_line_no_LF (s : string) :
  indexOf_LF (last (Str.split_lines s) EmptyString) = None.
Proof.
  pose proof (split_lines_no_LF s) as H. rewrite (split_lines_parts s) in H.
  apply Forall_app in H. destruct H as [_ H]. now inversion H.
Qed.

(** X11.  One call of the line buffer.  The loop ends.  With [all] the complete
    lines of the buffer followed by the chunk, and [rest] what follows the
    last newline: the lines handed to the callback are those of [all] that
    are not blank, in order; [rest] is the new buffer; no line and no buffer
    holds a newline; and nothing is lost apart from the blank lines, since
    [all] and [rest] joined by newlines are the buffer followed by the
    chunk. *)
Theorem line_buffer_delivers_complete_lines (buffer chunk : string) :
  exists all rest,
    createLineBuffer buffer chunk = Some (filter (fun l => negb (is_blank l)) all, rest)
    /\ Str.split_lines (buffer ++ chunk) = (all ++ [rest])%list
    /\ Str.join NL (all ++ [rest]) = buffer ++ chunk
    /\ Forall (fun l => indexOf_LF l = None) (all ++ [rest])
    /\ Forall (fun l => is_blank l = false /\ indexOf_LF l = None)
              (filter (fun l => negb (is_blank l)) all).
Proof.
  exists (removelast (Str.split_lines (buffer ++ chunk))),
         (last (Str.split_lines (buffer ++ chunk)) EmptyString).
  pose proof (split_lines_parts (buffer ++ chunk)) as E.
  split; [apply createLineBuffer_lines|]. split; [exact E|].
  rewrite <- E. split; [apply join_split_lines|].
  pose proof (split_lines_no_LF (buffer ++ chunk)) as H.
  split; [exact H|].
  rewrite E in H. apply Forall_app in H. destruct H as [H _].
  apply Forall_forall. intros l Hl. apply filter_In in Hl. destruct Hl as [Hin Hb].
  rewrite Forall_forall in H. split; [now apply negb_true_iff in Hb | auto].
Qed.

Lemma feed_all_lines (chunks : list string) :
  forall buffer,
    indexOf_LF buffer = None ->
    feed_all buffer chunks = createLineBuffer buffer (String.concat EmptyString chunks).
Proof.
  induction chunks as [|chunk chunks IH]; intros buffer Hb.
  - cbn [feed_all String.concat]. rewrite createLineBuffer_lines, append_nil_r.
    now rewrite (indexOf_LF_None_split buffer Hb).
  - assert (Hcat : String.concat EmptyString (chunk :: chunks)
                   = chunk ++ String.concat EmptyString chunks).
    { cbn [String.concat]. destruct chunks; [now rewrite append_nil_r|reflexivity]. }
    rewrite Hcat. cbn [feed_all].
    rewrite (createLineBuffer_lines buffer chunk).
    rewrite (IH _ (open_line_no_LF (buffer ++ chunk))).
    rewrite !createLineBuffer_lines.
    rewrite <- (append_assoc buffer chunk).
    rewrite (complete_lines_app (buffer ++ chunk)), (open_line_app (buffer ++ chunk)).
    now rewrite filter_app.
Qed.

(** X12.  The line buffer does not depend on how its input is cut into chunks:
    from a buffer that holds no newline, as it is at the start and after
    every call, calling it on the chunks one after the other hands over
    the same lines, and leaves the same buffer, as calling it once on the
    chunks put together. *)
Theorem line_buffer_ignores_chunking (buffer : string) (chunks : list string) :
  indexOf_LF buffer = None ->
  feed_all buffer chunks = createLineBuffer buffer (String.concat EmptyString chunks)
  /\ exists lines rest,
       feed_all buffer chunks = Some (lines, rest) /\ indexOf_LF rest = None.
Proof.
  intros Hb. split; [now apply feed_all_lines|].
  rewrite (feed_all_lines chunks buffer Hb), createLineBuffer_lines.
  eexists. eexists. split; [reflexivity|]. apply open_line_no_LF.
Qed.

(** The tests of the repository: three chunks that make one line, and a
    line cut in two. *)
Lemma line_buffer_ignores_chunking_witness :
  feed_all EmptyString ["a"; "b"; "c" ++ NL] = Some (["abc"], EmptyString)
  /\ feed_all EmptyString ["hel"; "lo" ++ NL ++ "wor"]
     = createLineBuffer EmptyString ("hello" ++ NL ++ "wor").
Proof.
  split; [reflexivity|].
  exact (proj1 (line_buffer_ignores_chunking EmptyString ["hel"; "lo" ++ NL ++ "wor"] eq_refl)).
Defined.

(** ** [streamFile]: every line is printed once *)

Lemma endsWith_NL_open_line (text : string) :
  Str.endsWith text NL = true -> last (Str.split_lines text) EmptyString = EmptyString.
Proof.
  intros H. destruct (endsWith_split text NL H) as [a ->].
  unfold NL. rewrite split_lines_LF. cbn [Str.split_lines]. apply last_last.
Qed.

Lemma print_existing_from_lines (useColor : bool) (text : string) (lines : list string) :
  forall partial,
    lines <> [] ->
    (Str.endsWith text NL = true -> last lines EmptyString = EmptyString) ->
    print_existing_from useColor text lines partial
    = (map (fun l => colorize l useColor ++ NL) (removelast lines),
       if String.eqb (last lines EmptyString) EmptyString then partial
       else last lines EmptyString).
Proof.
  induction lines as [|line [|next rest] IH]; intros partial Hne Hend; [contradiction| |].
  - cbn [print_existing_from removelast last map andb].
    destruct (String.eqb_spec line EmptyString) as [->|Hline]; [reflexivity|].
    destruct (Str.endsWith text NL); [|reflexivity].
    now destruct Hline; apply Hend.
  - change (print_existing_from useColor text (line :: next :: rest) partial)
      with (let (out, partial) := print_existing_from useColor text (next :: rest) partial in
            ((colorize line useColor ++ NL) :: out, partial)).
    rewrite (IH partial ltac:(discriminate) Hend). reflexivity.
Qed.

Lemma print_existing_lines (useColor : bool) (text : string) :
  print_existing useColor text
  = (map (fun l => colorize l useColor ++ NL) (removelast (Str.split_lines text)),
     last (Str.split_lines text) EmptyString).
Proof.
  unfold print_existing.
  rewrite print_existing_from_lines;
    [|apply split_lines_nonempty|apply endsWith_NL_open_line].
  f_equal. now destruct (String.eqb_spec (last (Str.split_lines text) EmptyString) EmptyString).
Qed.

Lemma print_new_from_lines (useColor : bool) (lines : list string) :
  forall partial,
    lines <> [] ->
    print_new_from useColor lines partial
    = (map (fun l => colorize l useColor ++ NL) (removelast lines),
       if String.eqb (last lines EmptyString) EmptyString then partial
       else last lines EmptyString).
Proof.
  induction lines as [|line [|next rest] IH]; intros partial Hne; [contradiction| |].
  - cbn [print_new_from removelast last map].
    now destruct (String.eqb line EmptyString).
  - change (print_new_from useColor (line :: next :: rest) partial)
      with (let (out, partial) := print_new_from useColor (next :: rest) partial in
            ((colorize line useColor ++ NL) :: out, partial)).
    rewrite (IH partial ltac:(discriminate)). reflexivity.
Qed.

Lemma print_new_lines (useColor : bool) (partial decoded : string) :
  print_new useColor partial decoded
  = (map (fun l => colorize l useColor ++ NL)
         (removelast (Str.split_lines (partial ++ decoded))),
     last (Str.split_lines (partial ++ decoded)) EmptyString).
Proof.
  unfold print_new. cbv zeta.
  rewrite print_new_from_lines by apply split_lines_nonempty.
  f_equal.
  now destruct (String.eqb_spec (last (Str.split_lines (partial ++ decoded)) EmptyString)
                  EmptyString).
Qed.

Lemma print_all_lines (useColor : bool) (reads : list string) :
  forall seen,
    print_all useColor
      (map (fun l => colorize l useColor ++ NL) (removelast (Str.split_lines seen)))
      (last (Str.split_lines seen) EmptyString) reads
    = (map (fun l => colorize l useColor ++ NL)
           (removelast (Str.split_lines (seen ++ String.concat EmptyString reads))),
       last (Str.split_lines (seen ++ String.concat EmptyString reads)) EmptyString).
Proof.
  induction reads as [|decoded reads IH]; intros seen.
  - cbn [print_all String.concat]. now rewrite append_nil_r.
  - assert (Hcat : String.concat EmptyString (decoded :: reads)
                   = decoded ++ String.concat EmptyString reads).
    { cbn [String.concat]. destruct reads; [now rewrite append_nil_r|reflexivity]. }
    rewrite Hcat. cbn [print_all]. rewrite print_new_lines.
    rewrite <- map_app, <- complete_lines_app, <- open_line_app.
    rewrite (IH (seen ++ decoded)), append_assoc. reflexivity.
Qed.

(** X13.  What [streamFile] prints of a file whose text is [text] when it is
    opened and that then grows by the texts [reads], one per turn of the
    poll.  The lines printed, each through [colorize] and followed by a
    newline, and the partial line kept at the end are exactly the lines of
    the whole text, in order: no line is lost, none is printed twice, and a
    line that comes in pieces is printed once it is complete. *)
Theorem streamFile_prints_each_line_once
    (useColor : bool) (text : string) (reads : list string) :
  exists lines partial,
    streamFile_prints useColor text reads
    = (map (fun l => colorize l useColor ++ NL) lines, partial)
    /\ Str.split_lines (text ++ String.concat EmptyString reads) = (lines ++ [partial])%list
    /\ Str.join NL (lines ++ [partial]) = text ++ String.concat EmptyString reads
    /\ Forall (fun l => indexOf_LF l = None) (lines ++ [partial]).
Proof.
  exists (removelast (Str.split_lines (text ++ String.concat EmptyString reads))),
         (last (Str.split_lines (text ++ String.concat EmptyString reads)) EmptyString).
  pose proof (split_lines_parts (text ++ String.concat EmptyString reads)) as E.
  split.
  - unfold streamFile_prints. rewrite print_existing_lines. apply print_all_lines.
  - split; [exact E|]. rewrite <- E. split; [apply join_split_lines|apply split_lines_no_LF].
Qed.

(** ** [timestamp] *)

Lemma padStart0_digits (width bound : nat) :
  forallb (fun n => (String.length (padStart0 (Str.of_Z (Z.of_nat n)) width) =? width)%nat
                    && all_digits (padStart0 (Str.of_Z (Z.of_nat n)) width))
          (seq 0 bound) = true ->
  forall n, (0 <= n < Z.of_nat bound)%Z ->
    String.length (padStart0 (Str.of_Z n) width) = width
    /\ all_digits (padStart0 (Str.of_Z n) width) = true.
Proof.
  intros Hall n Hn. rewrite forallb_forall in Hall.
  specialize (Hall (Z.to_nat n)). rewrite Z2Nat.id in Hall by lia.
  assert (Hin : In (Z.to_nat n) (seq 0 bound)) by (apply in_seq; lia).
  apply Hall, andb_true_iff in Hin. destruct Hin as [L D].
  now apply Nat.eqb_eq in L.
Qed.

Lemma two_digits (n : Z) :
  (0 <= n < 60)%Z ->
  exists a b, padStart0 (Str.of_Z n) 2 = String a (String b EmptyString)
              /\ is_digit a = true /\ is_digit b = true.
Proof.
  intros Hn. destruct (padStart0_digits 2 60 ltac:(vm_compute; reflexivity) n Hn) as [L D].
  destruct (padStart0 (Str.of_Z n) 2) as [|a [|b [|? ?]]]; try discriminate.
  cbn [all_digits] in D. rewrite andb_true_r in D. apply andb_true_iff in D.
  exists a, b. tauto.
Qed.

Lemma three_digits (n : Z) :
  (0 <= n < 1000)%Z ->
  exists a b d, padStart0 (Str.of_Z n) 3 = String a (String b (String d EmptyString))
                /\ is_digit a = true /\ is_digit b = true /\ is_digit d = true.
Proof.
  intros Hn. destruct (padStart0_digits 3 1000 ltac:(vm_compute; reflexivity) n Hn) as [L D].
  destruct (padStart0 (Str.of_Z n) 3) as [|a [|b [|d [|? ?]]]]; try discriminate.
  cbn [all_digits] in D. rewrite andb_true_r in D.
  apply andb_true_iff in D. destruct D as [Ha D]. apply andb_true_iff in D.
  exists a, b, d. tauto.
Qed.

(** X14.  For every reading of the clock, [timestamp()] has the twelve
    characters of HH:MM:SS.mmm, and a line that begins with it begins with
    what the timestamp pattern of [colorize] matches. *)
Theorem timestamp_is_recognised (hours minutes seconds milliseconds : Z) :
  (0 <= hours < 24)%Z -> (0 <= minutes < 60)%Z -> (0 <= seconds < 60)%Z ->
  (0 <= milliseconds < 1000)%Z ->
  String.length (timestamp hours minutes seconds milliseconds) = 12%nat
  /\ (exists h m s ms,
        timestamp hours minutes seconds milliseconds = h ++ ":" ++ m ++ ":" ++ s ++ "." ++ ms
        /\ String.length h = 2%nat /\ String.length m = 2%nat /\ String.length s = 2%nat
        /\ String.length ms = 3%nat
        /\ all_digits (h ++ m ++ s ++ ms) = true)
  /\ forall rest,
       Re.timestamp_at_start (timestamp hours minutes seconds milliseconds ++ rest) = true.
Proof.
  intros Hh Hm Hs Hms. unfold timestamp. cbv zeta.
  destruct (two_digits hours ltac:(lia)) as (h1 & h2 & -> & Hh1 & Hh2).
  destruct (two_digits minutes Hm) as (m1 & m2 & -> & Hm1 & Hm2).
  destruct (two_digits seconds Hs) as (s1 & s2 & -> & Hs1 & Hs2).
  destruct (three_digits milliseconds Hms) as (f1 & f2 & f3 & -> & Hf1 & Hf2 & Hf3).
  split; [reflexivity|]. split.
  - do 4 eexists. split; [reflexivity|]. repeat (split; [reflexivity|]).
    cbn [append all_digits].
    now rewrite Hh1, Hh2, Hm1, Hm2, Hs1, Hs2, Hf1, Hf2, Hf3.
  - intros rest. cbn [append Re.timestamp_at_start].
    now rewrite Hh1, Hh2, Hm1, Hm2, Hs1, Hs2, Hf1, Hf2, Hf3.
Qed.

(** Five past nine in the morning, seven seconds and forty-two
    milliseconds. *)
Lemma timestamp_is_recognised_witness :
  timestamp 9 5 7 42 = "09:05:07.042"
  /\ Re.timestamp_at_start (timestamp 9 5 7 42 ++ " → CLIENT  request  ping  #1") = true.
Proof.
  split; [reflexivity|].
  exact (proj2 (proj2 (timestamp_is_recognised 9 5 7 42 ltac:(lia) ltac:(lia) ltac:(lia)
                         ltac:(lia))) " → CLIENT  request  ping  #1").
Defined.

(** ** The command lines *)

Lemma last_cons_default {A} (x : A) (l : list A) (d : A) : last (x :: l) d = last l x.
Proof.
  revert x d. induction l as [|y l IH]; intros x d; [reflexivity|].
  change (last (x :: y :: l) d) with (last (y :: l) d). now rewrite !IH.
Qed.

Lemma means_nothing_tests (arg : string) :
  means_nothing arg = true ->
  String.eqb arg "--dir" = false /\ String.eqb arg "--file" = false
  /\ String.eqb arg "--no-color" = false
  /\ (String.eqb arg "--help" || String.eqb arg "-h") = false.
Proof.
  unfold means_nothing, is_help. intros H. apply negb_true_iff in H.
  now destruct (String.eqb arg "--dir"), (String.eqb arg "--file"),
    (String.eqb arg "--no-color"), (String.eqb arg "--help" || String.eqb arg "-h").
Qed.

(** One option read by the loop. *)
Lemma parseWatchArgs_from_option (o : watch_option) (rest : list string)
    (o0 : WatchArgs.WatchOptions) :
  well_read o = true ->
  WatchArgs.parseWatchArgs_from (arguments_of o ++ rest) o0
  = WatchArgs.parseWatchArgs_from rest (options_after o0 [o]).
Proof.
  intros Hw. destruct o0 as [d f c].
  destruct o as [value|value| |arg]; cbn [arguments_of app].
  - cbn. now destruct c.
  - cbn. now destruct c.
  - cbn. now destruct c.
  - destruct (means_nothing_tests arg Hw) as (Hd & Hf & Hn & Hh).
    cbn [WatchArgs.parseWatchArgs_from]. rewrite Hd, Hf, Hn, Hh.
    cbn. now destruct c.
Qed.

Lemma options_after_cons (o0 : WatchArgs.WatchOptions) (o : watch_option)
    (os : list watch_option) :
  options_after (options_after o0 [o]) os = options_after o0 (o :: os).
Proof.
  destruct o0 as [d f c]. unfold options_after.
  cbn [WatchArgs.dir WatchArgs.file WatchArgs.color].
  unfold dir_values, file_values.
  destruct o as [value|value| |arg];
    cbn [flat_map app map existsb is_no_color orb negb];
    rewrite ?last_cons_default; now destruct c.
Qed.

Lemma parseWatchArgs_from_options (os : list watch_option) :
  forall (rest : list string) (o0 : WatchArgs.WatchOptions),
    forallb well_read os = true ->
    WatchArgs.parseWatchArgs_from (flat_map arguments_of os ++ rest) o0
    = WatchArgs.parseWatchArgs_from rest (options_after o0 os).
Proof.
  induction os as [|o os IH]; intros rest o0 Hw.
  - destruct o0 as [d f c]. unfold options_after. cbn. now destruct c.
  - cbn [forallb] in Hw. apply andb_true_iff in Hw. destruct Hw as [Ho Hos].
    cbn [flat_map]. rewrite <- app_assoc, (parseWatchArgs_from_option o _ o0 Ho).
    rewrite (IH rest _ Hos). now rewrite options_after_cons.
Qed.

Lemma parseWatchArgs_from_dangling (tail : list string) (o0 : WatchArgs.WatchOptions) :
  dangling tail = true -> WatchArgs.parseWatchArgs_from tail o0 = Returned o0.
Proof.
  destruct tail as [|arg [|? ?]]; try discriminate; [reflexivity|].
  cbn [dangling]. intros H. apply orb_true_iff in H.
  destruct H as [H|H]; apply String.eqb_eq in H; subst arg; reflexivity.
Qed.

Lemma parseWatchArgs_from_help (h : string) (rest : list string) (o0 : WatchArgs.WatchOptions) :
  is_help h = true -> WatchArgs.parseWatchArgs_from (h :: rest) o0 = Exited 0.
Proof.
  unfold is_help. intros H. apply orb_true_iff in H.
  destruct H as [H|H]; apply String.eqb_eq in H; subst h; reflexivity.
Qed.

(** Every command line is a run of options followed by nothing, by a
    "--dir" or "--file" left without a value, or by a help flag and
    whatever follows it. *)
Lemma arguments_are_options (n : nat) :
  forall args,
    (List.length args <= n)%nat ->
    exists os,
      forallb well_read os = true
      /\ ((exists tail, dangling tail = true /\ args = (flat_map arguments_of os ++ tail)%list)
          \/ (exists h rest, is_help h = true
                             /\ args = (flat_map arguments_of os ++ h :: rest)%list)).
Proof.
  induction n as [|n IH]; intros args Hlen.
  - destruct args; [|cbn in Hlen; lia]. exists []. split; [reflexivity|].
    left. exists []. split; reflexivity.
  - destruct args as [|arg rest].
    { exists []. split; [reflexivity|]. left. exists []. split; reflexivity. }
    cbn [List.length] in Hlen.
    assert (Hpre : forall o args',
               well_read o = true -> (List.length args' <= n)%nat ->
               arg :: rest = (arguments_of o ++ args')%list ->
               exists os,
                 forallb well_read os = true
                 /\ ((exists tail, dangling tail = true
                                   /\ arg :: rest = (flat_map arguments_of os ++ tail)%list)
                     \/ (exists h rest0, is_help h = true
                                         /\ arg :: rest
                                            = (flat_map arguments_of os ++ h :: rest0)%list))).
    { intros o args' Ho Hl ->. destruct (IH args' Hl) as (os & Hos & Hform).
      exists (o :: os). cbn [forallb flat_map]. rewrite Ho, Hos. split; [reflexivity|].
      destruct Hform as [(tail & Ht & ->)|(h & rest0 & Hh & ->)].
      - left. exists tail. now rewrite app_assoc.
      - right. exists h, rest0. now rewrite app_assoc. }
    destruct (is_help arg) eqn:Hh.
    { exists []. split; [reflexivity|]. right. exists arg, rest. now split. }
    destruct (String.eqb_spec arg "--no-color") as [->|Hn].
    { apply (Hpre NoColorOption rest); [reflexivity|lia|reflexivity]. }
    destruct (String.eqb_spec arg "--dir") as [->|Hd].
    { destruct rest as [|value rest'].
      - exists []. split; [reflexivity|]. left. exists ["--dir"]. split; reflexivity.
      - apply (Hpre (DirOption value) rest'); [reflexivity|cbn in Hlen; lia|reflexivity]. }
    destruct (String.eqb_spec arg "--file") as [->|Hf].
    { destruct rest as [|value rest'].
      - exists []. split; [reflexivity|]. left. exists ["--file"]. split; reflexivity.
      - apply (Hpre (FileOption value) rest'); [reflexivity|cbn in Hlen; lia|reflexivity]. }
    apply (Hpre (OtherArgument arg) rest); [|lia|reflexivity].
    cbn [well_read]. unfold means_nothing. rewrite Hh.
    apply String.eqb_neq in Hn, Hd, Hf. now rewrite Hn, Hd, Hf.
Qed.

(** X15.  [parseWatchArgs] read as a grammar.  Take a command line made of
    options: "--dir" with the argument after it, whatever that argument
    is, "--file" likewise, "--no-color", and arguments that mean nothing.
    If it ends there, or with a "--dir" or "--file" that has no argument
    after it, [parseWatchArgs] returns: the directory is the value of the
    last "--dir", or the default; the file is the value of the last
    "--file", or none; colours are on unless a "--no-color" is among the
    options.  If a help flag comes next, the process ends with code 0,
    whatever follows.  And every command line is of one of these two
    forms. *)
Theorem parseWatchArgs_reads_its_options (DEFAULT_LOG_DIR : string) :
  (forall os tail,
     forallb well_read os = true -> dangling tail = true ->
     WatchArgs.parseWatchArgs DEFAULT_LOG_DIR (flat_map arguments_of os ++ tail)
     = Returned (options_read DEFAULT_LOG_DIR os))
  /\ (forall os h rest,
        forallb well_read os = true -> is_help h = true ->
        WatchArgs.parseWatchArgs DEFAULT_LOG_DIR (flat_map arguments_of os ++ h :: rest)
        = Exited 0)
  /\ (forall args,
        exists os,
          forallb well_read os = true
          /\ ((exists tail,
                 dangling tail = true /\ args = (flat_map arguments_of os ++ tail)%list)
              \/ (exists h rest,
                    is_help h = true
                    /\ args = (flat_map arguments_of os ++ h :: rest)%list))).
Proof.
  split; [|split].
  - intros os tail Hos Ht. unfold WatchArgs.parseWatchArgs.
    rewrite (parseWatchArgs_from_options os tail _ Hos).
    rewrite (parseWatchArgs_from_dangling tail _ Ht). reflexivity.
  - intros os h rest Hos Hh. unfold WatchArgs.parseWatchArgs.
    rewrite (parseWatchArgs_from_options os (h :: rest) _ Hos).
    now apply parseWatchArgs_from_help.
  - intros args. exact (arguments_are_options (List.length args) args (le_n _)).
Qed.

(** A "--no-color" that comes right after "--dir" is the directory, and
    colours stay on; after a directory it switches them off; and the last
    of two directories is taken. *)
Lemma parseWatchArgs_reads_its_options_witness :
  WatchArgs.parseWatchArgs "~/.ilya/logs" ["--dir"; "--no-color"]
  = Returned {| WatchArgs.dir := "--no-color"; WatchArgs.file := None;
                WatchArgs.color := true |}
  /\ WatchArgs.parseWatchArgs "~/.ilya/logs" ["--dir"; "/a"; "-x"; "--no-color"; "--dir"; "/b";
                                              "--file"]
     = Returned {| WatchArgs.dir := "/b"; WatchArgs.file := None; WatchArgs.color := false |}
  /\ WatchArgs.parseWatchArgs "~/.ilya/logs" ["--file"; "--help"; "-h"; "--no-color"]
     = Exited 0.
Proof.
  split; [|split].
  - exact (proj1 (parseWatchArgs_reads_its_options "~/.ilya/logs")
             [DirOption "--no-color"] [] eq_refl eq_refl).
  - exact (proj1 (parseWatchArgs_reads_its_options "~/.ilya/logs")
             [DirOption "/a"; OtherArgument "-x"; NoColorOption; DirOption "/b"] ["--file"]
             eq_refl eq_refl).
  - exact (proj1 (proj2 (parseWatchArgs_reads_its_options "~/.ilya/logs"))
             [FileOption "--help"] "-h" ["--no-color"] eq_refl eq_refl).
Defined.

Section ParseArgsProps.
Context {number : Type} (parseInt : string -> number).

Lemma parseArgs_from_command (n : nat) :
  forall args log port r,
    (List.length args <= n)%nat ->
    parseArgs_from parseInt args log port = Returned r ->
    match serverCmd r with
    | Some cmd =>
        exists options,
          args = (options ++ cmd :: serverArgs r)%list
          /\ options_with_values options = true
          /\ (takes_value cmd = true -> serverArgs r = [])
    | None => serverArgs r = [] /\ options_with_values args = true
    end.
Proof.
  induction n as [|n IH]; intros args log port r Hlen Hrun.
  - destruct args; [|cbn in Hlen; lia]. cbn in Hrun. injection Hrun as <-. cbn. auto.
  - destruct args as [|arg rest]; [cbn in Hrun; injection Hrun as <-; cbn; auto|].
    cbn [parseArgs_from] in Hrun.
    assert (Hcmd :
              (if String.eqb arg "--help" || String.eqb arg "-h" then Exited 0
               else if String.eqb arg "--version" || String.eqb arg "-v" then Exited 0
                    else Returned {| logFilePath := log; httpPort := port;
                                     serverCmd := Some arg; serverArgs := rest |})
              = Returned r ->
              (takes_value arg = true -> rest = []) ->
              match serverCmd r with
              | Some cmd =>
                  exists options,
                    arg :: rest = (options ++ cmd :: serverArgs r)%list
                    /\ options_with_values options = true
                    /\ (takes_value cmd = true -> serverArgs r = [])
              | None => serverArgs r = [] /\ options_with_values (arg :: rest) = true
              end).
    { intros H Hdangling.
      destruct (String.eqb arg "--help" || String.eqb arg "-h"); [discriminate|].
      destruct (String.eqb arg "--version" || String.eqb arg "-v"); [discriminate|].
      injection H as <-. cbn [serverCmd serverArgs]. exists []. auto. }
    assert (Hpair : forall value rest' log' port',
               rest = value :: rest' -> takes_value arg = true ->
               parseArgs_from parseInt rest' log' port' = Returned r ->
               match serverCmd r with
               | Some cmd =>
                   exists options,
                     arg :: rest = (options ++ cmd :: serverArgs r)%list
                     /\ options_with_values options = true
                     /\ (takes_value cmd = true -> serverArgs r = [])
               | None => serverArgs r = [] /\ options_with_values (arg :: rest) = true
               end).
    { intros value rest' log' port' -> Hflag H.
      cbn [List.length] in Hlen.
      pose proof (IH rest' log' port' r ltac:(lia) H) as Hr.
      destruct (serverCmd r) as [cmd|].
      - destruct Hr as (options & -> & Hopts & Hd).
        exists (arg :: value :: options). cbn [app options_with_values].
        rewrite Hflag, Hopts. auto.
      - destruct Hr as [-> Hopts]. cbn [options_with_values]. rewrite Hflag, Hopts. auto. }
    unfold takes_value in Hcmd, Hpair.
    destruct rest as [|value rest'].
    { destruct (String.eqb arg "--log" || String.eqb arg "-l");
        destruct (String.eqb arg "--port" || String.eqb arg "-p"); now apply Hcmd. }
    destruct (String.eqb arg "--log" || String.eqb arg "-l") eqn:Elog.
    { exact (Hpair value rest' _ _ eq_refl eq_refl Hrun). }
    destruct (String.eqb arg "--port" || String.eqb arg "-p") eqn:Eport.
    { exact (Hpair value rest' _ _ eq_refl eq_refl Hrun). }
    apply Hcmd; [exact Hrun|discriminate].
Qed.

(** X16.  What [parseArgs] takes as the server's command line.  When it returns
    a command, the arguments after the interpreter and the script are a
    run of options that take a value, each with its value, then the
    command, then the arguments of the server: all that follows the command
    goes to the server as it is, whatever it looks like.  An option that
    takes a value and comes last, with no value, is itself taken as the
    command.  When it returns no command, all the arguments were options
    with their values. *)
Theorem parseArgs_splits_the_command_line (argv : list string) (r : ParsedArgs) :
  parseArgs parseInt argv = Returned r ->
  match serverCmd r with
  | Some cmd =>
      exists options,
        skipn 2 argv = (options ++ cmd :: serverArgs r)%list
        /\ options_with_values options = true
        /\ (takes_value cmd = true -> serverArgs r = [])
  | None => serverArgs r = [] /\ options_with_values (skipn 2 argv) = true
  end.
Proof.
  unfold parseArgs. intros H.
  exact (parseArgs_from_command (List.length (skipn 2 argv)) _ None None r (le_n _) H).
Qed.
End ParseArgsProps.

(** The example of the usage text, with an argument of the server that
    looks like an option of [ilya]; and a "--log" that comes last. *)
Lemma parseArgs_splits_the_command_line_witness :
  parseArgs (fun s => s) ["node"; "ilya"; "--log"; "/tmp/tap.log"; "python"; "server.py"; "--port"; "1"]
  = Returned {| logFilePath := Some "/tmp/tap.log"; httpPort := None;
                serverCmd := Some "python"; serverArgs := ["server.py"; "--port"; "1"] |}
  /\ parseArgs (fun s => s) ["node"; "ilya"; "--log"]
     = Returned {| logFilePath := None; httpPort := None;
                   serverCmd := Some "--log"; serverArgs := [] |}
  /\ exists options,
       ["--log"; "/tmp/tap.log"; "python"; "server.py"; "--port"; "1"]
       = (options ++ "python" :: ["server.py"; "--port"; "1"])%list
       /\ options_with_values options = true.
Proof.
  split; [reflexivity|]. split; [reflexivity|].
  destruct (parseArgs_splits_the_command_line (fun s => s)
              ["node"; "ilya"; "--log"; "/tmp/tap.log"; "python"; "server.py"; "--port"; "1"]
              _ eq_refl) as (options & E & H & _).
  exists options. split; assumption.
Defined.

(** ** The server's standard error, from the proxy to the watcher *)

Lemma forM_write_unless {A} (skip : A -> bool) (f g : A -> string) (xs : list A) (w : world) :
  forM xs (fun x => if skip x then ret tt else write (f x) (g x)) w
  = (Val tt, emit (map (fun x => Rec (f x) (g x)) (filter (fun x => negb (skip x)) xs)) w).
Proof.
  revert w. induction xs as [|x xs IH]; intros w; cbn [forM filter].
  - unfold ret. now rewrite emit_nil.
  - unfold bind. destruct (skip x); cbn [negb map].
    + unfold ret. apply IH.
    + rewrite write_run, IH, emit_emit. reflexivity.
Qed.

Lemma patterns_skip_stderr_tag :
  skips_stderr_tag (Re.lit "→ CLIENT") /\ skips_stderr_tag (Re.lit "← SERVER")
  /\ skips_stderr_tag (Re.word "ERROR") /\ skips_stderr_tag (Re.word "notification")
  /\ skips_stderr_tag (Re.word "request") /\ skips_stderr_tag (Re.word "response")
  /\ skips_stderr_tag (Re.word_prefix "initialize")
  /\ skips_stderr_tag (Re.family "tools/") /\ skips_stderr_tag (Re.family "resources/")
  /\ skips_stderr_tag (Re.family "prompts/") /\ skips_stderr_tag (Re.family "notifications/")
  /\ skips_stderr_tag Re.request_id /\ skips_stderr_tag Re.elapsed_ms.
Proof. repeat split; intros pre suf g rest; reflexivity. Qed.

(** The targeted replacements leave the tag of a stderr line in place. *)
Lemma highlight_keeps_stderr_tag (line : string) :
  exists body, highlight ("[server stderr] " ++ line) = "[server stderr] " ++ body.
Proof.
  destruct patterns_skip_stderr_tag
    as (H1 & H2 & H3 & H4 & H5 & H6 & H7 & H8 & H9 & H10 & H11 & H12 & H13).
  unfold highlight.
  change (Re.timestamp_at_start ("[server stderr] " ++ line)) with false.
  cbv zeta. cbv iota.
  rewrite H1, H2, H3, H4, H5, H6, H7, H8, H9, H10, H11, H12, H13.
  eexists. reflexivity.
Qed.

(** X17.  A chunk of the server's standard error.  The proxy writes one record
    for each line of the chunk that is not blank, in order: the tag
    "[server stderr]", a space and the line.  [colorize] shows each of
    these records dimmed as a whole, with the tag in place, and not in
    red. *)
Theorem stderr_lines_are_logged_and_dimmed (c : Colors) (chunk : string) (w : world) :
  stderr_data c chunk w
  = (Val tt,
     emit (map (stderr_record c)
               (filter (fun line => negb (is_blank line)) (Str.split_lines chunk))) w)
  /\ forall line,
       exists body,
         colorize (plain (stderr_record c line)) true
         = ansi "2" ++ "[server stderr] " ++ body ++ ansi "0".
Proof.
  split.
  - unfold stderr_data.
    apply (forM_write_unless is_blank
             (fun line => DIM c ++ "[server stderr]" ++ RESET c ++ " " ++ line)
             (fun line => "[server stderr] " ++ line)).
  - intros line. destruct (highlight_keeps_stderr_tag line) as [body E].
    exists body. unfold colorize, stderr_record. cbn [negb plain]. cbv zeta.
    rewrite E. reflexivity.
Qed.

(** ** The summaries of the three list methods *)

Lemma join_vals_strings (sep : string) (names : list string) :
  join_vals sep (map (fun n => Some (JStr n)) names) = Val (Str.join sep names).
Proof.
  unfold join_vals.
  assert (E : mapM (fun x : jsval =>
                      match x with
                      | None | Some JNull => Val EmptyString
                      | Some v => ToString v
                      end) (map (fun n => Some (JStr n)) names) = Val names).
  { induction names as [|n names IH]; cbn [map mapM]; [reflexivity|].
    rewrite IH. reflexivity. }
  now rewrite E.
Qed.

Lemma summarize_strings (names : list string) :
  summarize (map (fun n => Some (JStr n)) names) = Val (summary_of names).
Proof.
  unfold summarize, summary_of. cbv zeta. rewrite length_map.
  destruct (Nat.leb_spec (List.length names) 8) as [H|H].
  - apply Nat2Z.inj_le in H. apply Z.leb_le in H. cbn in H. rewrite H.
    apply join_vals_strings.
  - assert (E : (Z.of_nat (List.length names) <=? 8)%Z = false) by (apply Z.leb_gt; lia).
    rewrite E. unfold arr_slice0, slice_count. cbn [Z.leb Z.compare Z.to_nat Pos.to_nat].
    change (Pos.to_nat 6) with 6%nat.
    rewrite firstn_map, join_vals_strings. reflexivity.
Qed.

Lemma write_summary_of (color reset kind : string) (items : list JSON) (names : list string)
    (w : world) :
  List.length items = List.length names ->
  bind (lift (summarize (map (fun n => Some (JStr n)) names)))
       (fun summary => write_summary color reset (List.length items) kind summary) w
  = (Val tt, emit [summary_record color reset kind names] w).
Proof. intros ->. rewrite summarize_strings, bind_lift_val. reflexivity. Qed.

Lemma mapM_named (items : list JSON) (names : list string) :
  Forall2 named items names ->
  mapM (fun t => prop (Some t) "name") items = Val (map (fun n => Some (JStr n)) names).
Proof.
  induction 1 as [|t n items names (props & -> & Hn) _ IH]; cbn [mapM map]; [reflexivity|].
  rewrite IH. cbn [prop]. rewrite Hn. reflexivity.
Qed.

Lemma mapM_listed_as (items : list JSON) (names : list string) :
  Forall2 listed_as items names ->
  mapM (fun r => obind (prop (Some r) "name")
                   (fun name => if truthy name then Val name else prop (Some r) "uri")) items
  = Val (map (fun n => Some (JStr n)) names).
Proof.
  induction 1 as [|t n items names (props & -> & H) _ IH]; cbn [mapM map]; [reflexivity|].
  rewrite IH. cbn [prop obind].
  destruct H as [[Hn Hne]|[Hf Hu]].
  - rewrite Hn. cbn [truthy]. destruct (String.eqb_spec n EmptyString); [contradiction|].
    reflexivity.
  - rewrite Hf, Hu. reflexivity.
Qed.

(** X6.  The result of the three list methods is one record: the count, the
    kind, and the names, all of them when they are at most eight, the
    first six and "... +N more" with [N] the count less six otherwise.
    This for tools and prompts that are objects with a string for a
    name, and for resources listed under their name or, when they have
    none, their uri. *)
Theorem list_results_are_summarized
    (c : Colors) (es : list (string * JSON)) (items : list JSON) (names : list string)
    (w : world) :
  (obj_get es "tools" = Some (JArr items) -> Forall2 named items names ->
   formatResult "tools/list" (Some (JObj es)) c w
   = (Val tt, emit [summary_record (GREEN c) (RESET c) "tools" names] w))
  /\ (obj_get es "resources" = Some (JArr items) -> Forall2 listed_as items names ->
      formatResult "resources/list" (Some (JObj es)) c w
      = (Val tt, emit [summary_record (CYAN c) (RESET c) "resources" names] w))
  /\ (obj_get es "prompts" = Some (JArr items) -> Forall2 named items names ->
      formatResult "prompts/list" (Some (JObj es)) c w
      = (Val tt, emit [summary_record (YELLOW c) (RESET c) "prompts" names] w)).
Proof.
  repeat split; intros Hget Hnames; pose proof (Forall2_length Hnames) as Hlen;
    unfold formatResult, list_of; cbn [truthy negb String.eqb Ascii.eqb Bool.eqb prop_opt];
    rewrite Hget; cbn [isArray].
  - rewrite (mapM_named items names Hnames), bind_lift_val.
    now apply write_summary_of.
  - rewrite (mapM_listed_as items names Hnames), bind_lift_val.
    now apply write_summary_of.
  - rewrite (mapM_named items names Hnames), bind_lift_val.
    now apply write_summary_of.
Qed.

(** The test of the repository: ten tools. *)
Lemma list_results_are_summarized_witness :
  run_plains (formatResult "tools/list"
                (Some (JObj [("tools", JArr (map (fun n => JObj [("name", JStr n)])
                                ["t0"; "t1"; "t2"; "t3"; "t4"; "t5"; "t6"; "t7"; "t8"; "t9"]))]))
                PLAIN)
  = ["    (10 tools: t0, t1, t2, t3, t4, t5, ... +4 more)"].
Proof.
  unfold run_plains.
  rewrite (proj1 (list_results_are_summarized PLAIN
                    [("tools", JArr (map (fun n => JObj [("name", JStr n)])
                                ["t0"; "t1"; "t2"; "t3"; "t4"; "t5"; "t6"; "t7"; "t8"; "t9"]))]
                    (map (fun n => JObj [("name", JStr n)])
                       ["t0"; "t1"; "t2"; "t3"; "t4"; "t5"; "t6"; "t7"; "t8"; "t9"])
                    ["t0"; "t1"; "t2"; "t3"; "t4"; "t5"; "t6"; "t7"; "t8"; "t9"]
                    (World [] [])) eq_refl
            ltac:(repeat constructor; eexists; split; reflexivity)).
  reflexivity.
Defined.

(** ** Lines that are no message *)

(** X18.  A line that is no request, notification or response is logged as one
    record and leaves the pending requests as they are.  The record holds
    the text of the line, trimmed and cut to 200 characters.  It carries
    the tag "[raw]" when the line is not JSON, and also when it is the JSON
    text [null], whose [id] cannot be read; it carries no tag when the line
    is JSON for a number, a boolean, a string or an array, or for an object
    with neither a method nor an id. *)
Theorem other_lines_are_logged_raw
    (c : Colors) (tsNow : string) (now : Z) (json : string) (dir : direction) (w : world) :
  (Str.length (truncate (Str.trim json) 200) <= 200)%Z
  /\ (JSON_parse json = Abort Thrown \/ JSON_parse json = Val JNull ->
      formatMessage c tsNow now json dir w
      = (Val tt, emit [raw_record c tsNow dir true json] w))
  /\ (forall v,
        JSON_parse json = Val v -> v <> JNull ->
        (forall es, v = JObj es ->
                    truthy (obj_get es "method") = false /\ obj_get es "id" = None) ->
        formatMessage c tsNow now json dir w
        = (Val tt, emit [raw_record c tsNow dir false json] w)).
Proof.
  split; [apply truncate_length_le; lia|]. split.
  - intros [H|H]; unfold formatMessage, try_catch, format_parsed; rewrite H; reflexivity.
  - intros v H Hnull Hobj. unfold formatMessage, try_catch, format_parsed.
    rewrite H, bind_lift_val.
    destruct v as [| | | | |es]; try reflexivity; [now destruct Hnull|].
    destruct (Hobj es eq_refl) as [Hm Hid].
    cbn [prop]. rewrite Hid, !bind_lift_val, Hm. reflexivity.
Qed.

(** ** The plain log does not depend on the colours *)

Lemma agree_ret {A B} (R : A -> B -> Prop) (a : A) (b : B) :
  R a b -> agree R (ret a) (ret b).
Proof. intros H w w' Hw. split; [exact Hw|exact H]. Qed.

Lemma agree_lift {A} (o : outcome A) : agree eq (lift o) (lift o).
Proof. intros w w' Hw. split; [exact Hw|]. cbn. now destruct o. Qed.

Lemma agree_methodColor (method : jsval) (c c' : Colors) :
  agree (fun _ _ => True) (lift (methodColor method c)) (lift (methodColor method c')).
Proof.
  intros w w' Hw. split; [exact Hw|]. cbn. unfold methodColor.
  destruct (negb (truthy method)); [exact I|].
  destruct method as [[| | |m| |]|]; try reflexivity.
  repeat match goal with
         | |- context [if ?b then _ else _] => destruct b
         end; exact I.
Qed.

Lemma agree_write (a a' b : string) : agree eq (write a b) (write a' b).
Proof.
  intros w w' [Hp Hm]. split; [|reflexivity]. split; [|exact Hm].
  unfold plains in *. cbn. rewrite !map_app, Hp. reflexivity.
Qed.

Lemma agree_pending_get (k : JSON) : agree eq (pending_get k) (pending_get k).
Proof. intros w w' [Hp Hm]. split; [now split|]. cbn. now rewrite Hm. Qed.

Lemma agree_pending_set (k : JSON) (p : PendingRequest) :
  agree eq (pending_set k p) (pending_set k p).
Proof. intros w w' [Hp Hm]. split; [|reflexivity]. split; [exact Hp|]. cbn. now rewrite Hm. Qed.

Lemma agree_pending_delete (k : JSON) : agree eq (pending_delete k) (pending_delete k).
Proof. intros w w' [Hp Hm]. split; [|reflexivity]. split; [exact Hp|]. cbn. now rewrite Hm. Qed.

Lemma agree_bind {A A' B B'} (R : A -> A' -> Prop) (S : B -> B' -> Prop)
    (m : M A) (m' : M A') (k : A -> M B) (k' : A' -> M B') :
  agree R m m' -> (forall a a', R a a' -> agree S (k a) (k' a')) ->
  agree S (bind m k) (bind m' k').
Proof.
  intros Hm Hk w w' Hw. unfold bind. destruct (Hm w w' Hw) as [Hs Ho].
  destruct (m w) as [[a|e] w1], (m' w') as [[a'|e'] w1']; cbn [fst snd] in *;
    try contradiction.
  - now apply Hk.
  - split; assumption.
Qed.

Lemma agree_forM {A} (xs : list A) (body body' : A -> M unit) :
  (forall x, agree eq (body x) (body' x)) -> agree eq (forM xs body) (forM xs body').
Proof.
  intros H. induction xs as [|x xs IH]; cbn [forM].
  - now apply agree_ret.
  - apply (agree_bind eq); [apply H|intros; exact IH].
Qed.

Lemma agree_try_catch (body body' handler handler' : M unit) :
  agree eq body body' -> agree eq handler handler' ->
  agree eq (try_catch body handler) (try_catch body' handler').
Proof.
  intros Hb Hh w w' Hw. unfold try_catch. destruct (Hb w w' Hw) as [Hs Ho].
  destruct (body w) as [[[]|[|]] w1], (body' w') as [[[]|[|]] w1']; cbn [fst snd] in *;
    try contradiction; try discriminate; try (split; [assumption|reflexivity]).
  now apply Hh.
Qed.

(** Breaks two runs of the same code under two colour tables down to
    their writes. *)
Ltac agrees :=
  repeat first
    [ apply agree_ret; reflexivity
    | apply agree_lift | apply agree_write
    | apply agree_pending_get | apply agree_pending_set | apply agree_pending_delete
    | apply agree_forM; intros
    | apply (agree_bind (fun _ _ => True)); [apply agree_methodColor | intros ? ? _]
    | apply (agree_bind eq); [|intros ? ? <-]
    | progress unfold write_summary, write_params
    | progress cbv zeta
    | match goal with
      | |- agree _ (if ?b then _ else _) _ => destruct b
      | |- agree _ (match ?x with _ => _ end) _ => destruct x
      end ].

Lemma formatBlock_agrees (c c' : Colors) (block : JSON) :
  agree eq (formatBlock c block) (formatBlock c' block).
Proof. unfold formatBlock. agrees. Qed.

Lemma formatResult_agrees (method : string) (result : jsval) (c c' : Colors) :
  agree eq (formatResult method result c) (formatResult method result c').
Proof.
  unfold formatResult, list_of.
  repeat first
    [ apply agree_ret; reflexivity
    | apply agree_lift | apply agree_write
    | apply agree_forM; intros; apply formatBlock_agrees
    | apply (agree_bind eq); [|intros ? ? <-]
    | progress unfold write_summary
    | progress cbv zeta
    | match goal with
      | |- agree _ (if ?b then _ else _) _ => destruct b
      | |- agree _ (match ?x with _ => _ end) _ => destruct x
      end ].
Qed.

Lemma formatMessage_agrees (c c' : Colors) (tsNow : string) (now : Z) (json : string)
    (dir : direction) :
  agree eq (formatMessage c tsNow now json dir) (formatMessage c' tsNow now json dir).
Proof.
  unfold formatMessage. apply agree_try_catch.
  - unfold format_parsed, format_notification, format_request, format_response.
    repeat first [ apply formatResult_agrees | progress agrees ].
  - unfold format_raw. agrees.
Qed.

(** X19.  Whatever the colour table is, [formatMessage] ends in the same way,
    writes the same plain texts and leaves the same pending requests: the
    colours reach the coloured texts only. *)
Theorem plain_log_ignores_colours
    (c c' : Colors) (tsNow : string) (now : Z) (json : string) (dir : direction) (w : world) :
  fst (formatMessage c tsNow now json dir w) = fst (formatMessage c' tsNow now json dir w)
  /\ plains (snd (formatMessage c tsNow now json dir w))
     = plains (snd (formatMessage c' tsNow now json dir w))
  /\ pendingRequests (snd (formatMessage c tsNow now json dir w))
     = pendingRequests (snd (formatMessage c' tsNow now json dir w)).
Proof.
  destruct (formatMessage_agrees c c' tsNow now json dir w w (conj eq_refl eq_refl))
    as [[Hp Hm] Ho].
  split; [|split; assumption].
  destruct (fst (formatMessage c tsNow now json dir w)) as [[]|e],
           (fst (formatMessage c' tsNow now json dir w)) as [[]|e'];
    try contradiction; congruence.
Qed.


(** ** [removeNoiseFields] in general *)

(** [removeNoiseFields] keeps exactly the positions no step of which is a
    member that its loop leaves out, and puts at each of them the image of
    what stood there. *)
Lemma removeNoiseFields_positions (p : list step) :
  forall (v : JSON) (b : bool),
    well_formed v = true ->
    at_path (removeNoiseFields v b) p
    = if undropped v b p
      then option_map (fun o => removeNoiseFields o (flag_at b p)) (at_path v p)
      else None.
Proof.
  induction p as [|s p IH]; intros v b Hwf; [reflexivity|].
  destruct s as [k|i].
  - rewrite flag_at_key. destruct v as [| | | |xs|es]; try reflexivity.
    destruct (removeNoiseFields_entries es b k (well_formed_keys es Hwf))
      as (es' & -> & Hget).
    cbn [at_path undropped]. rewrite Hget.
    destruct (obj_get es k) as [x|] eqn:Hx; [|reflexivity].
    destruct (dropped b k x); [reflexivity|]. cbn [negb andb].
    exact (IH x false (well_formed_get es k x Hwf Hx)).
  - rewrite flag_at_idx. destruct v as [| | | |xs|es]; try reflexivity.
    cbn [removeNoiseFields at_path undropped]. rewrite nth_error_map.
    destruct (nth_error xs i) as [x|] eqn:Hx; [|reflexivity]. cbn [option_map].
    exact (IH x true (well_formed_nth xs i x Hwf Hx)).
Qed.

(** X20.  [removeNoiseFields] on a value without repeated keys.  A member
    is left out of the output when its key is "__proto__", in any object,
    and when it is an "id", a "timestamp" or a "graphql" with an empty value
    in an object that is a direct element of an array.  The positions of
    the output are the positions of the input that pass through no such
    member, and what stands there is the image of what stood there.  So an
    object of the output stands where an object of the input stood; it has
    the keys of that object less the ones left out; an element of an array
    has no "id" and no "timestamp"; and the top-level object and an object
    inside an object keep every key but "__proto__". *)
Theorem noise_fields_go_from_array_elements (v : JSON) (p : list step) :
  well_formed v = true ->
  at_path (removeNoiseFields v false) p
  = (if undropped v false p
     then option_map (fun o => removeNoiseFields o (element_of_array p)) (at_path v p)
     else None)
  /\ forall es',
       at_path (removeNoiseFields v false) p = Some (JObj es') ->
       exists es,
         at_path v p = Some (JObj es)
         /\ (forall k,
               obj_get es' k
               = match obj_get es k with
                 | Some x =>
                     if String.eqb k "__proto__"
                        || (element_of_array p
                            && (NOISE_FIELDS_has k
                                || (String.eqb k "graphql" && is_empty_object x)))
                     then None
                     else Some (removeNoiseFields x false)
                 | None => None
                 end)
         /\ (element_of_array p = true ->
             obj_get es' "id" = None /\ obj_get es' "timestamp" = None
             /\ (obj_get es "graphql" = Some (JObj []) -> obj_get es' "graphql" = None))
         /\ (element_of_array p = false ->
             forall k, String.eqb k "__proto__" = false -> obj_has es' k = obj_has es k)
         /\ obj_get es' "__proto__" = None.
Proof.
  intros Hwf.
  assert (Hflag : flag_at false p = element_of_array p) by (destruct p; reflexivity).
  split; [rewrite <- Hflag; now apply removeNoiseFields_positions|].
  intros es' H.
  destruct (at_path_removeNoiseFields p v false (JObj es') Hwf H) as (o & Ho & Hwo & Heq).
  destruct o as [| | | |xs|es]; try discriminate.
  exists es. split; [exact Ho|].
  rewrite Hflag in Heq.
  assert (Hkeys : forall k,
             obj_get es' k
             = match obj_get es k with
               | Some x =>
                   if String.eqb k "__proto__"
                      || (element_of_array p
                          && (NOISE_FIELDS_has k
                              || (String.eqb k "graphql" && is_empty_object x)))
                   then None
                   else Some (removeNoiseFields x false)
               | None => None
               end).
  { intros k.
    destruct (removeNoiseFields_entries es (element_of_array p) k (well_formed_keys es Hwo))
      as (es2 & Hes2 & Hget).
    rewrite Hes2 in Heq. injection Heq as ->. rewrite Hget.
    destruct (obj_get es k) as [x|]; [|reflexivity].
    unfold dropped, noise_skipped.
    destruct (element_of_array p), (String.eqb k "__proto__"), (NOISE_FIELDS_has k);
      cbn [andb orb]; try reflexivity;
      now destruct (String.eqb k "graphql" && is_empty_object x). }
  split; [exact Hkeys|]. split; [|split].
  - intros Harr. rewrite Harr in Hkeys. repeat split.
    + rewrite Hkeys. now destruct (obj_get es "id").
    + rewrite Hkeys. now destruct (obj_get es "timestamp").
    + intros Hg. now rewrite Hkeys, Hg.
  - intros Harr k Hk. rewrite Harr in Hkeys. unfold obj_has. rewrite Hkeys, Hk.
    now destruct (obj_get es k).
  - rewrite Hkeys. now destruct (obj_get es "__proto__").
Qed.

(** The example of the specification: [data.id] is retained and
    [data.items[0].id] is absent. *)
Lemma noise_fields_go_from_array_elements_witness :
  at_path (removeNoiseFields noisy_example false) [Key "data"; Key "id"] = Some (JStr "keep")
  /\ at_path (removeNoiseFields noisy_example false) [Key "data"; Key "items"; Idx 0]
     = Some (JObj [])
  /\ exists es,
       at_path noisy_example [Key "data"; Key "items"; Idx 0] = Some (JObj es)
       /\ obj_get es "id" = Some (JStr "remove")
       /\ obj_get (@nil (string * JSON)) "id" = None.
Proof.
  split; [reflexivity|]. split; [reflexivity|].
  destruct (proj2 (noise_fields_go_from_array_elements noisy_example
                     [Key "data"; Key "items"; Idx 0] eq_refl) [] eq_refl)
    as (es & Hes & _ & Harr & _).
  exists es. split; [exact Hes|]. split.
  - cbn in Hes. injection Hes as <-. reflexivity.
  - exact (proj1 (Harr eq_refl)).
Defined.
